(** * LoopOptimizer: the frame de-duplication pipeline of
    [LoopOptimizer/loop_optimizer.js], embedded in Rocq.

    The file has three layers.

    - A model of the JavaScript data the optimizer handles: values as trees
      ([JsValue]), the builtins the class calls ([typeof], truthiness,
      property reads and writes, object spread, [JSON.stringify],
      [JSON.parse] after [JSON.stringify], [Array.prototype.filter],
      [Array.prototype.includes]).
    - The class itself, method by method, over those values, and the
      handler of the web server (server.js) that calls it.
    - The same local transformer over a store of mutable objects, where the
      caller's record and the copy the transformer works on are different
      locations.  The statements about what a call leaves untouched live
      there. *)

From Stdlib Require Import QArith Qround ZArith Lia DecimalString Ascii String.
From Stdlib Require Import SpecFloat.
From stdpp Require Import base tactics option list strings sorting.

Set Warnings "-register-all,-abstract-large-number".

(** ** JavaScript values *)

(** Numbers.  Finite doubles are idealised as rationals, so the arithmetic the
    optimizer does on lengths ([frameCount / 30], [dataSize * 0.3]) is exact;
    [double_agrees_with_rationals] below checks the one rounding-sensitive
    expression against binary64 on the range that contains both thresholds.
    Negative zero is identified with zero: both are falsy and both print as
    [0].  The one number that does not come from a length, the
    [Math.random()] draw, is kept as a binary64 number and the arithmetic on
    it is binary64 arithmetic ([sizeReduction_text]). *)
Inductive JsNumber : Type :=
| Finite (q : Q)
| NaN
| Infinity (negative : bool).

(** Strings are sequences of code units; this development covers the code
    units U+0000 to U+00FF, one [ascii] each. *)
Inductive JsValue : Type :=
| JUndefined
| JNull
| JBool (b : bool)
| JNum (n : JsNumber)
| JStr (s : string)
| JArr (elems : list JsValue) (extra : list (string * JsValue))
| JObj (props : list (string * JsValue)).

(** [JArr elems extra]: an array with its elements and the named
    (non-index) own properties that were assigned to it, in assignment order.
    [JObj props]: the own enumerable properties of a plain object in
    enumeration order.  Arrays have no holes. *)

Definition Number_of_nat (n : nat) : JsNumber := Finite (inject_Z (Z.of_nat n)).
Definition Number_of_Z (z : Z) : JsNumber := Finite (inject_Z z).

Inductive Exception : Type :=
| Error (message : string)
| TypeError
| SyntaxError.

(** What evaluating a piece of code ends in: a value, or a thrown exception. *)
Inductive Completion (A : Type) : Type :=
| Normal (value : A)
| Throw (e : Exception).
Arguments Normal {A} value.
Arguments Throw {A} e.

Definition Completion_bind {A B} (m : Completion A) (k : A -> Completion B) : Completion B :=
  match m with
  | Normal a => k a
  | Throw e => Throw e
  end.

Notation "'let*' x ':=' m 'in' k" := (Completion_bind m (fun x => k))
  (at level 10, x name, m at level 100, k at level 200).

(** [typeof v] *)
Definition typeof (v : JsValue) : string :=
  match v with
  | JUndefined => "undefined"
  | JNull => "object"
  | JBool _ => "boolean"
  | JNum _ => "number"
  | JStr _ => "string"
  | JArr _ _ => "object"
  | JObj _ => "object"
  end.

(** Truthiness, as used by [!v], [a || b], [a && b] and [if]. *)
Definition ToBoolean (v : JsValue) : bool :=
  match v with
  | JUndefined => false
  | JNull => false
  | JBool b => b
  | JNum (Finite q) => negb (Qeq_bool q 0)
  | JNum NaN => false
  | JNum (Infinity _) => true
  | JStr s => negb (String.eqb s "")
  | JArr _ _ => true
  | JObj _ => true
  end.

(** [a || b] when [b] has no effects. *)
Definition js_or (a b : JsValue) : JsValue := if ToBoolean a then a else b.

Definition Array_isArray (v : JsValue) : bool :=
  match v with
  | JArr _ _ => true
  | _ => false
  end.

(** The elements of an array; other values have none. *)
Definition elements (v : JsValue) : list JsValue :=
  match v with
  | JArr elems _ => elems
  | _ => []
  end.

(** [frames[i]]: reading past the end yields [undefined]. *)
Definition at_index (frames : list JsValue) (i : nat) : JsValue :=
  default JUndefined (frames !! i).

(** *** Properties *)

Fixpoint lookup_prop {V} (k : string) (props : list (string * V)) : option V :=
  match props with
  | [] => None
  | (k', v) :: rest => if String.eqb k k' then Some v else lookup_prop k rest
  end.

(** Assigning an own property: an existing key keeps its place, a new key
    goes last. *)
Fixpoint set_prop {V} (k : string) (v : V) (props : list (string * V))
  : list (string * V) :=
  match props with
  | [] => [(k, v)]
  | (k', v') :: rest =>
      if String.eqb k k' then (k, v) :: rest else (k', v') :: set_prop k v rest
  end.

(** [v.k] for a base that is neither [undefined] nor [null], and a name [k]
    that is not found on a prototype (the optimizer reads [frames],
    [duration], [metadata], [length], [quality], [enableCompression]). *)
Definition Get (v : JsValue) (k : string) : JsValue :=
  match v with
  | JObj props => default JUndefined (lookup_prop k props)
  | JArr elems extra =>
      if String.eqb k "length" then JNum (Number_of_nat (length elems))
      else default JUndefined (lookup_prop k extra)
  | JStr s =>
      if String.eqb k "length" then JNum (Number_of_nat (String.length s))
      else JUndefined
  | _ => JUndefined
  end.

(** [v.k] for any base: reading a property of [undefined] or [null] throws. *)
Definition GetV (v : JsValue) (k : string) : Completion JsValue :=
  match v with
  | JUndefined | JNull => Throw TypeError
  | _ => Normal (Get v k)
  end.

(** [o.k = v] in strict code (class bodies are strict), for a name [k] that
    is neither an array index nor [length]; the result is [o] after the
    assignment.  Creating a property on a primitive throws. *)
Definition Put (o : JsValue) (k : string) (v : JsValue) : Completion JsValue :=
  match o with
  | JObj props => Normal (JObj (set_prop k v props))
  | JArr elems extra => Normal (JArr elems (set_prop k v extra))
  | _ => Throw TypeError
  end.

Definition string_of_nat (n : nat) : string := NilZero.string_of_uint (Nat.to_uint n).
Definition string_of_Z (z : Z) : string := NilZero.string_of_int (Z.to_int z).

(** The own enumerable string-keyed properties that [{...v}] copies. *)
Definition own_enumerable (v : JsValue) : list (string * JsValue) :=
  match v with
  | JObj props => props
  | JArr elems extra => imap (fun i x => (string_of_nat i, x)) elems ++ extra
  | JStr s =>
      imap (fun i c => (string_of_nat i, JStr (String c EmptyString)))
           (list_ascii_of_string s)
  | _ => []
  end.

(** [{...target, ...source}]: each copied property is assigned in turn.
    (Integer-like keys are kept in assignment order here; the objects built
    this way are never serialized by the optimizer.) *)
Definition spread (target : list (string * JsValue)) (source : JsValue)
  : list (string * JsValue) :=
  fold_left (fun acc p => set_prop (fst p) (snd p) acc) (own_enumerable source) target.

(** *** JSON *)

Definition dquote : ascii := ascii_of_nat 34.
Definition backslash : ascii := ascii_of_nat 92.

Definition hex_digit (n : N) : ascii :=
  if (n <? 10)%N then ascii_of_N (48 + n) else ascii_of_N (87 + n).

(** [\u00XX] *)
Definition UnicodeEscape (c : ascii) : string :=
  let n := N_of_ascii c in
  String backslash (String "u" (String "0" (String "0"
    (String (hex_digit (n / 16)) (String (hex_digit (n mod 16)) EmptyString))))).

Definition quote_code_unit (c : ascii) : string :=
  let n := N_of_ascii c in
  if (n =? 8)%N then String backslash "b"
  else if (n =? 9)%N then String backslash "t"
  else if (n =? 10)%N then String backslash "n"
  else if (n =? 12)%N then String backslash "f"
  else if (n =? 13)%N then String backslash "r"
  else if (n =? 34)%N then String backslash (String dquote EmptyString)
  else if (n =? 92)%N then String backslash (String backslash EmptyString)
  else if (n <? 32)%N then UnicodeEscape c
  else String c EmptyString.

Fixpoint quote_code_units (s : string) : string :=
  match s with
  | EmptyString => EmptyString
  | String c rest => quote_code_unit c +:+ quote_code_units rest
  end.

Definition QuoteJSONString (s : string) : string :=
  String dquote (quote_code_units s +:+ String dquote EmptyString).

(** The size in bytes of a text in UTF-8: code units below U+0080 take one
    byte, the others (up to U+00FF here) two. *)
Fixpoint utf8_size (s : string) : nat :=
  match s with
  | EmptyString => 0
  | String c rest => (if (N_of_ascii c <? 128)%N then 1 else 2) + utf8_size rest
  end.

(** [JSON.parse(JSON.stringify(v))] as a function on values: the tree that
    parsing the serialization of [v] builds.  Inside arrays [undefined] and
    non-finite numbers come back as [null]; object properties whose value is
    [undefined] are dropped; named properties of arrays are not serialized. *)
Fixpoint json_clone (v : JsValue) : JsValue :=
  match v with
  | JUndefined => JUndefined
  | JNull => JNull
  | JBool b => JBool b
  | JNum (Finite q) => JNum (Finite q)
  | JNum _ => JNull
  | JStr s => JStr s
  | JArr elems _ =>
      JArr (map (fun x => match x with
                          | JUndefined => JNull
                          | _ => json_clone x
                          end) elems) []
  | JObj props =>
      JObj (omap (fun p => match snd p with
                           | JUndefined => None
                           | _ => Some (fst p, json_clone (snd p))
                           end) props)
  end.

(** At top level [JSON.stringify(undefined)] is [undefined], which
    [JSON.parse] rejects. *)
Definition JSON_parse_stringify (v : JsValue) : Completion JsValue :=
  match v with
  | JUndefined => Throw SyntaxError
  | _ => Normal (json_clone v)
  end.

(** Values that a JSON text denotes and that survive the round trip
    unchanged: no [undefined] inside, finite numbers, arrays without named
    properties. *)
Fixpoint is_json (v : JsValue) : bool :=
  match v with
  | JUndefined => false
  | JNull => true
  | JBool _ => true
  | JNum (Finite _) => true
  | JNum _ => false
  | JStr _ => true
  | JArr elems extra =>
      forallb is_json elems && match extra with [] => true | _ => false end
  | JObj props => forallb (fun p => is_json (snd p)) props
  end.

(** ** The data of the class *)

Record OptimizationPotential : Type := {
  sizeReductionPotential : string;
  performanceImprovementPotential : string;
  estimatedSizeReduction : Z
}.

Record AnalysisReport : Type := {
  frameCount : JsValue;
  duration : JsValue;
  repetitiveFrames : list nat;
  redundantProperties : list JsValue;
  estimatedOptimizationPotential : OptimizationPotential
}.

(** An instance: [this.config] and [this.isInitialized]. *)
Record LoopOptimizer : Type := {
  config : JsValue;
  isInitialized : JsValue
}.

(** What a call reads from its surroundings: the two [new Date().toISOString()]
    results and the [Math.random()] draw, a binary64 number. *)
Record Env : Type := {
  optimizationDate : string;
  random : spec_float;
  timestamp : string
}.

(** [repetitiveIndices.includes(index)] on an array of indices. *)
Definition includes (repetitiveIndices : list nat) (i : nat) : bool :=
  existsb (Nat.eqb i) repetitiveIndices.

(** [frames.filter((_, index) => keep(index))], the index counted from
    [start]. *)
Fixpoint filter_by_index {A} (keep : nat -> bool) (start : nat) (frames : list A)
  : list A :=
  match frames with
  | [] => []
  | frame :: rest =>
      if keep start then frame :: filter_by_index keep (S start) rest
      else filter_by_index keep (S start) rest
  end.

Definition _compressRepetitiveFrames (frames : JsValue) (repetitiveIndices : list nat)
  : JsValue :=
  if negb (Array_isArray frames)
     || (length (elements frames) =? 0)
     || (length repetitiveIndices =? 0)
  then frames
  else JArr (filter_by_index (fun i => negb (includes repetitiveIndices i)) 0
                             (elements frames)) [].

Definition _identifyRedundantProperties (animationData : JsValue) : list JsValue := [].

(** [o.k1.k2 = v] *)
Definition PutIn (o : JsValue) (k1 k2 : string) (v : JsValue) : Completion JsValue :=
  let* inner := GetV o k1 in
  let* inner' := Put inner k2 v in
  Put o k1 inner'.

Definition constructor (config : JsValue) : LoopOptimizer :=
  {| config := JObj (spread [("quality", JNum (Number_of_Z 8));
                             ("enableCompression", JBool true)] config);
     isInitialized := JBool true |}.

(** [x / d] for a finite divisor [d > 0]. *)
Definition Number_divide (x : JsNumber) (d : Q) : JsNumber :=
  match x with
  | Finite q => Finite (q / d)
  | NaN => NaN
  | Infinity negative => Infinity negative
  end.

(** ** The store: objects with identity *)

(** A location names an object of the store. *)
Abbreviation loc := nat.

(** A value is a primitive or a reference to an object. *)
Inductive HValue : Type :=
| HUndefined
| HNull
| HBool (b : bool)
| HNum (n : JsNumber)
| HStr (s : string)
| HRef (l : loc).

Inductive HObject : Type :=
| HArr (elems : list HValue) (extra : list (string * HValue))
| HObj (props : list (string * HValue)).

(** The store lists its objects by location; a new object goes last. *)
Abbreviation Heap := (list HObject).

(** Code that reads and writes the store and may throw. *)
Definition HeapM (A : Type) : Type := Heap -> Heap * Completion A.

Definition h_ret {A} (a : A) : HeapM A := fun h => (h, Normal a).

Definition h_bind {A B} (m : HeapM A) (k : A -> HeapM B) : HeapM B :=
  fun h => match m h with
           | (h', Normal a) => k a h'
           | (h', Throw e) => (h', Throw e)
           end.

Notation "'do*' x ':=' m 'in' k" := (h_bind m (fun x => k))
  (at level 10, x name, m at level 100, k at level 200).

(** An object or array literal, and every other creation of an object. *)
Definition allocate (o : HObject) : HeapM HValue :=
  fun h => (h ++ [o], Normal (HRef (length h))).

Definition h_ToBoolean (v : HValue) : bool :=
  match v with
  | HUndefined => false
  | HNull => false
  | HBool b => b
  | HNum n => ToBoolean (JNum n)
  | HStr s => ToBoolean (JStr s)
  | HRef _ => true
  end.

Definition h_typeof (v : HValue) : string :=
  match v with
  | HUndefined => "undefined"
  | HNull => "object"
  | HBool _ => "boolean"
  | HNum _ => "number"
  | HStr _ => "string"
  | HRef _ => "object"
  end.

(** [v.k], as [Get]. *)
Definition h_Get (h : Heap) (v : HValue) (k : string) : HValue :=
  match v with
  | HRef l =>
      match h !! l with
      | Some (HObj props) => default HUndefined (lookup_prop k props)
      | Some (HArr elems extra) =>
          if String.eqb k "length" then HNum (Number_of_nat (length elems))
          else default HUndefined (lookup_prop k extra)
      | None => HUndefined
      end
  | HStr s =>
      if String.eqb k "length" then HNum (Number_of_nat (String.length s))
      else HUndefined
  | _ => HUndefined
  end.

Definition h_GetV (v : HValue) (k : string) : HeapM HValue :=
  fun h => match v with
           | HUndefined | HNull => (h, Throw TypeError)
           | _ => (h, Normal (h_Get h v k))
           end.

(** [o.k = v], as [Put]: the object at the location of [o] is updated in
    place. *)
Definition h_Put (o : HValue) (k : string) (v : HValue) : HeapM unit :=
  fun h => match o with
           | HRef l =>
               match h !! l with
               | Some (HObj props) =>
                   (<[l := HObj (set_prop k v props)]> h, Normal tt)
               | Some (HArr elems extra) =>
                   (<[l := HArr elems (set_prop k v extra)]> h, Normal tt)
               | None => (h, Throw TypeError)
               end
           | _ => (h, Throw TypeError)
           end.

(** The tree a value denotes, as [JSON.stringify] walks it.  [stack] holds
    the objects being visited; meeting one of them again is a cycle, for
    which [JSON.stringify] throws ([None]).  Named properties of arrays are
    followed too (so that the tree answers property reads), hence a cycle
    through such a property is reported although [JSON.stringify] would not
    follow it. *)
Fixpoint snapshot (fuel : nat) (h : Heap) (stack : list loc) (v : HValue)
  : option JsValue :=
  match v with
  | HUndefined => Some JUndefined
  | HNull => Some JNull
  | HBool b => Some (JBool b)
  | HNum n => Some (JNum n)
  | HStr s => Some (JStr s)
  | HRef l =>
      match fuel with
      | 0 => None
      | S fuel' =>
          if bool_decide (l ∈ stack) then None
          else
            let visit := snapshot fuel' h (l :: stack) in
            let visit_prop (p : string * HValue) :=
              match visit (snd p) with
              | Some x => Some (fst p, x)
              | None => None
              end in
            match h !! l with
            | Some (HArr elems extra) =>
                match mapM visit elems, mapM visit_prop extra with
                | Some elems', Some extra' => Some (JArr elems' extra')
                | _, _ => None
                end
            | Some (HObj props) =>
                match mapM visit_prop props with
                | Some props' => Some (JObj props')
                | None => None
                end
            | None => None
            end
      end
  end.

(** No path through the store visits more objects than the store has. *)
Definition h_snapshot (h : Heap) (v : HValue) : option JsValue :=
  snapshot (S (length h)) h [] v.

(** Running an allocating function over a list, left to right. *)
Definition alloc_list {A B} (f : A -> Heap -> B * Heap)
  : list A -> Heap -> list B * Heap :=
  fix go (l : list A) (h : Heap) : list B * Heap :=
    match l with
    | [] => ([], h)
    | x :: rest =>
        let '(v, h1) := f x h in
        let '(vs, h2) := go rest h1 in
        (v :: vs, h2)
    end.

(** Building the objects of a tree, as [JSON.parse] does: every array and
    object of the tree becomes a new object of the store. *)
Fixpoint alloc_tree (t : JsValue) (h : Heap) : HValue * Heap :=
  let alloc_prop (p : string * JsValue) (h : Heap) :=
    let '(v, h1) := alloc_tree (snd p) h in ((fst p, v), h1) in
  match t with
  | JUndefined => (HUndefined, h)
  | JNull => (HNull, h)
  | JBool b => (HBool b, h)
  | JNum n => (HNum n, h)
  | JStr s => (HStr s, h)
  | JArr elems extra =>
      let '(elems', h1) := alloc_list alloc_tree elems h in
      let '(extra', h2) := alloc_list alloc_prop extra h1 in
      (HRef (length h2), h2 ++ [HArr elems' extra'])
  | JObj props =>
      let '(props', h1) := alloc_list alloc_prop props h in
      (HRef (length h1), h1 ++ [HObj props'])
  end.

(** [JSON.parse(JSON.stringify(v))] on the store. *)
Definition h_JSON_parse_stringify (v : HValue) : HeapM HValue :=
  fun h => match h_snapshot h v with
           | None => (h, Throw TypeError)
           | Some JUndefined => (h, Throw SyntaxError)
           | Some tree =>
               let '(copy, h') := alloc_tree (json_clone tree) h in
               (h', Normal copy)
           end.

(** [_compressRepetitiveFrames] on the store: [filter] creates a new array,
    the guard returns the array it was given. *)
Definition h_compressRepetitiveFrames (frames : HValue) (repetitiveIndices : list nat)
  : HeapM HValue :=
  fun h => match frames with
           | HRef l =>
               match h !! l with
               | Some (HArr elems extra) =>
                   if (length elems =? 0) || (length repetitiveIndices =? 0)
                   then (h, Normal frames)
                   else allocate
                          (HArr (filter_by_index
                                   (fun i => negb (includes repetitiveIndices i)) 0 elems)
                                []) h
               | _ => (h, Normal frames)
               end
           | _ => (h, Normal frames)
           end.

(** [a || {}] and [a || []]: the literal is created only when [a] is
    falsy. *)
Definition h_or_new (a : HValue) (literal : HObject) : HeapM HValue :=
  if h_ToBoolean a then h_ret a else allocate literal.

Definition h_performLocalOptimizations (env : Env) (animationData : HValue)
           (analysis : AnalysisReport) (options : HValue) : HeapM HValue :=
  do* optimized := h_JSON_parse_stringify animationData in
  do* compress :=
    (if 0 <? length (repetitiveFrames analysis)
     then do* enableCompression := h_GetV options "enableCompression" in
          h_ret (h_ToBoolean enableCompression)
     else h_ret false) in
  do* _ :=
    (if compress : bool
     then do* frames := h_GetV optimized "frames" in
          do* frames := h_or_new frames (HArr [] []) in
          do* compressed :=
            h_compressRepetitiveFrames frames (repetitiveFrames analysis) in
          h_Put optimized "frames" compressed
     else h_ret tt) in
  do* metadata := h_GetV optimized "metadata" in
  do* metadata := h_or_new metadata (HObj []) in
  do* _ := h_Put optimized "metadata" metadata in
  do* metadata := h_GetV optimized "metadata" in
  do* _ := h_Put metadata "optimized" (HBool true) in
  do* metadata := h_GetV optimized "metadata" in
  do* _ := h_Put metadata "optimizationDate" (HStr (optimizationDate env)) in
  do* metadata := h_GetV optimized "metadata" in
  do* _ := h_Put metadata "optimizationOptions" options in
  h_ret optimized.

(** The own enumerable properties of a value of the store, for spreading. *)
Definition h_own_enumerable (h : Heap) (v : HValue) : list (string * HValue) :=
  match v with
  | HRef l =>
      match h !! l with
      | Some (HObj props) => props
      | Some (HArr elems extra) =>
          imap (fun i x => (string_of_nat i, x)) elems ++ extra
      | None => []
      end
  | HStr s =>
      imap (fun i c => (string_of_nat i, HStr (String c EmptyString)))
           (list_ascii_of_string s)
  | _ => []
  end.

Definition h_spread (h : Heap) (target : list (string * HValue)) (source : HValue)
  : list (string * HValue) :=
  fold_left (fun acc p => set_prop (fst p) (snd p) acc) (h_own_enumerable h source) target.

(** An instance on the store: [this.config] refers to an object. *)
Record H_LoopOptimizer : Type := {
  h_config : HValue;
  h_isInitialized : HValue
}.

Definition h_constructor (config : HValue) : HeapM H_LoopOptimizer :=
  fun h =>
    let '(h', this_config) :=
      allocate (HObj (h_spread h [("quality", HNum (Number_of_Z 8));
                                  ("enableCompression", HBool true)] config)) h in
    (h', match this_config with
         | Normal c => Normal {| h_config := c; h_isInitialized := HBool true |}
         | Throw e => Throw e
         end).

(** ** The notions the specification uses *)

(** The subsequence of [frames] at the indices that are not in [removed],
    in the order of [frames]. *)
Definition survivors {A} (removed : list nat) (frames : list A) : list A :=
  omap (fun i => frames !! i)
       (filter (fun i => i ∉ removed) (seq 0 (length frames))).

(** The animation is absent. *)
Definition absent (animationData : JsValue) : Prop :=
  animationData = JUndefined \/ animationData = JNull.

(** The animation is a structured record, in the sense of [typeof]. *)
Definition structured_record (animationData : JsValue) : Prop :=
  typeof animationData = "object".

Definition is_object (v : JsValue) : bool :=
  match v with
  | JArr _ _ | JObj _ => true
  | _ => false
  end.

(** The [metadata] of the copy can receive properties: it is missing or
    falsy (and replaced by a new object), or it is an object. *)
Definition metadata_writable (animationData : JsValue) : bool :=
  let metadata := Get (json_clone animationData) "metadata" in
  negb (ToBoolean metadata) || is_object metadata.

(** A configuration (or an options object) that has neither key. *)
Definition omits_defaults (v : JsValue) : Prop :=
  lookup_prop "quality" (own_enumerable v) = None
  /\ lookup_prop "enableCompression" (own_enumerable v) = None.

(** The object after [o.k = v], for an [o] that is an object. *)
Definition assign (o : JsValue) (k : string) (v : JsValue) : JsValue :=
  match o with
  | JObj props => JObj (set_prop k v props)
  | JArr elems extra => JArr elems (set_prop k v extra)
  | _ => o
  end.

(** Whether the transformer removes frames. *)
Definition compresses (analysis : AnalysisReport) (options : JsValue) : bool :=
  (0 <? length (repetitiveFrames analysis))
  && ToBoolean (Get options "enableCompression").

(** The copy after the frames step. *)
Definition after_frames (animationData : JsValue) (analysis : AnalysisReport)
           (options : JsValue) : JsValue :=
  let optimized := json_clone animationData in
  if compresses analysis options
  then assign optimized "frames"
         (_compressRepetitiveFrames (js_or (Get optimized "frames") (JArr [] []))
                                    (repetitiveFrames analysis))
  else optimized.

(** The metadata object after the three assignments. *)
Definition metadata_after (env : Env) (metadata options : JsValue) : JsValue :=
  assign (assign (assign (js_or metadata (JObj [])) "optimized" (JBool true))
                 "optimizationDate" (JStr (optimizationDate env)))
         "optimizationOptions" options.

Fixpoint ascii_only (s : string) : bool :=
  match s with
  | EmptyString => true
  | String c rest => (N_of_ascii c <? 128)%N && ascii_only rest
  end.

(** *** Reasoning about the store *)

(** The values an object holds. *)
Definition cell_values (o : HObject) : list HValue :=
  match o with
  | HArr elems extra => elems ++ extra.*2
  | HObj props => props.*2
  end.

(** A value that does not refer to an object below [n]. *)
Definition points_above (n : nat) (v : HValue) : Prop :=
  match v with
  | HRef l => n <= l
  | _ => True
  end.

(** The objects from [n] on refer only to objects from [n] on. *)
Definition region_closed (n : nat) (h : Heap) : Prop :=
  forall l o, n <= l -> h !! l = Some o -> Forall (points_above n) (cell_values o).

(** The same, except that they may hold the value [allowed]. *)
Definition region_closed_except (n : nat) (allowed : HValue) (h : Heap) : Prop :=
  forall l o, n <= l -> h !! l = Some o ->
              Forall (fun v => points_above n v \/ v = allowed) (cell_values o).

(** [m], started in a store satisfying [P], ends in a store satisfying
    [Q a] when it returns [a] and [E] when it throws. *)
Definition triple {A} (P : Heap -> Prop) (m : HeapM A)
           (Q : A -> Heap -> Prop) (E : Heap -> Prop) : Prop :=
  forall h, P h -> match m h with
                   | (h', Normal a) => Q a h'
                   | (h', Throw _) => E h'
                   end.

(** The store [h0] the call started in is an untouched prefix, and the
    objects created since refer only to each other. *)
Definition extends (h0 h : Heap) : Prop :=
  h0 `prefix_of` h /\ region_closed (length h0) h.

(** ** Binary64 *)

(** The double nearest to an integer. *)
Definition double_of_Z (z : Z) : spec_float := binary_normalize 53 1024 z 0 false.

(** The literal [0.3]: [0x3FD3333333333333]. *)
Definition double_0_3 : spec_float := S754_finite false 5404319552844595 (-54).

(** [Math.floor] of a finite double, as an integer. *)
Definition double_floor (x : spec_float) : option Z :=
  match x with
  | S754_zero _ => Some 0%Z
  | S754_finite negative m e =>
      let v := if negative then Z.neg m else Z.pos m in
      Some (if (0 <=? e)%Z then v * 2 ^ e else v / 2 ^ (- e))%Z
  | _ => None
  end.

(** [Math.floor(dataSize * 0.3)] computed in binary64, rounding to nearest
    even. *)
Definition floor_of_product (dataSize : Z) : option Z :=
  double_floor (SFmul 53 1024 (double_of_Z dataSize) double_0_3).

Definition agrees (dataSize : Z) : bool :=
  match floor_of_product dataSize with
  | Some z => (z =? Qfloor (inject_Z dataSize * (3 # 10)))%Z
  | None => false
  end.

Fixpoint agrees_from (count : nat) (dataSize : Z) : bool :=
  match count with
  | 0 => true
  | S count' => agrees dataSize && agrees_from count' (dataSize + 1)
  end.

(** [Math.floor(x)] as a double: the zeros, the infinities and [NaN] are
    returned as they are; the floor of a finite double is an integer that
    is itself a double. *)
Definition Math_floor (x : spec_float) : spec_float :=
  match x with
  | S754_finite _ _ _ =>
      match double_floor x with
      | Some n => double_of_Z n
      | None => x
      end
  | _ => x
  end.

(** The rational a finite double stands for. *)
Definition Q_of_finite (negative : bool) (m : positive) (e : Z) : Q :=
  inject_Z (if negative then Z.neg m else Z.pos m) * Qpower 2 e.

(** What [Math.random()] returns: a binary64 number that is at least 0 and
    below 1. *)
Definition is_draw (x : spec_float) : bool :=
  valid_binary 53 1024 x && SFleb (S754_zero false) x && SFltb x (double_of_Z 1).

(** A bit as a number. *)
Definition bit (b : bool) : Z := if b then 1%Z else 0%Z.

(** ** The web server *)

(** What the handler of [POST /api/optimize] sends: the status code and the
    value it gives to [res.json]. *)
Record Response : Type := {
  status : nat;
  body : JsValue
}.

(** [new LoopOptimizer({quality: 8, enableCompression: true})], the one
    instance the server works with. *)
Definition optimizer : LoopOptimizer :=
  constructor (JObj [("quality", JNum (Number_of_Z 8));
                     ("enableCompression", JBool true)]).

(** ** Example data *)

(** [Number::toString] on integers: the decimal digits.  The examples hold
    integers only. *)
Definition integer_toString (q : Q) : string := string_of_Z (Qnum q).

(** [ToNumber] of a string that is not numeric, and of a plain object. *)
Definition coerce_NaN (v : JsValue) : option JsNumber := Some NaN.

Definition frame_A : JsValue := JObj [("x", JNum (Number_of_Z 1))].
Definition frame_B : JsValue := JObj [("x", JNum (Number_of_Z 2))].

(** [{frames: [A, A, A, B]}] *)
Definition animation_AAAB : JsValue :=
  JObj [("frames", JArr [frame_A; frame_A; frame_A; frame_B] [])].

Definition analysis_AAAB : AnalysisReport :=
  {| frameCount := JNum (Number_of_Z 4);
     duration := JNum (Finite (4 # 30));
     repetitiveFrames := [1; 2];
     redundantProperties := [];
     estimatedOptimizationPotential :=
       {| sizeReductionPotential := "low";
          performanceImprovementPotential := "medium";
          estimatedSizeReduction := 13 |} |}.

Definition options_on : list (string * JsValue) :=
  [("quality", JNum (Number_of_Z 8)); ("enableCompression", JBool true)].

Definition options_off : list (string * JsValue) :=
  [("quality", JNum (Number_of_Z 8)); ("enableCompression", JBool false)].

(** The draw of the examples is [0.5]. *)
Definition env_example : Env :=
  {| optimizationDate := "2024-01-01T00:00:00.000Z";
     random := S754_finite false 4503599627370496 (-53);
     timestamp := "2024-01-01T00:00:01.000Z" |}.

(** [{frames: [A, A], metadata: "v1"}]: JSON data whose [metadata] is a
    string, and the analyzer's report for it. *)
Definition animation_AA_v1 : JsValue :=
  JObj [("frames", JArr [frame_A; frame_A] []); ("metadata", JStr "v1")].

Definition analysis_AA_v1 : AnalysisReport :=
  {| frameCount := JNum (Number_of_Z 2);
     duration := JNum (Finite (2 # 30));
     repetitiveFrames := [1];
     redundantProperties := [];
     estimatedOptimizationPotential :=
       {| sizeReductionPotential := "low";
          performanceImprovementPotential := "medium";
          estimatedSizeReduction := 13 |} |}.

(** U+00E9 *)
Definition e_acute : ascii := ascii_of_nat 233.

(** [{a: "\u00e9\u00e9\u00e9"}], the three letters written out in the
    serialization. *)
Definition animation_accents : JsValue :=
  JObj [("a", JStr (String e_acute (String e_acute (String e_acute EmptyString))))].

(** The store in which the record of the example lives, and the record. *)
Definition store_AAAB : HValue * list HObject := alloc_tree animation_AAAB [].

(** What the transformer returns for [animation_AAAB] with compression
    enabled, and what the whole call then resolves with. *)
Definition optimized_AAAB : JsValue :=
  JObj [("frames", JArr [frame_A; frame_B] []);
        ("metadata", JObj [("optimized", JBool true);
                           ("optimizationDate", JStr "2024-01-01T00:00:00.000Z");
                           ("optimizationOptions", JObj options_on)])].

Definition result_AAAB : JsValue :=
  JObj [("frames", JArr [frame_A; frame_B] []);
        ("metadata", JObj [("optimized", JBool true);
                           ("optimizationDate", JStr "2024-01-01T00:00:00.000Z");
                           ("optimizationOptions", JObj options_on)]);
        ("optimized", JBool true);
        ("optimizationLevel", JNum (Number_of_Z 8));
        ("sizeReduction", JStr "25%");
        ("timestamp", JStr "2024-01-01T00:00:01.000Z")].

(** The body of a request that asks for quality 5. *)
Definition request_AAAB : JsValue :=
  JObj [("animationData", animation_AAAB);
        ("options", JObj [("quality", JNum (Number_of_Z 5))])].

(** An engine whose own exceptions all carry the same text. *)
Definition plain_message (error : Exception) : string := "TypeError".

(** ** The class *)

Section Runtime.

(** Two builtins of the host are left open: how a finite number prints
    ([Number::toString]), and what [ToNumber] makes of a string, an array or
    an object ([None] when the conversion throws a [TypeError]). *)
Variable Number_toString : Q -> string.
Variable ToNumber_coerce : JsValue -> option JsNumber.

(** [JSON.stringify(v)]; [None] stands for the result [undefined]. *)
Fixpoint JSON_stringify (v : JsValue) : option string :=
  match v with
  | JUndefined => None
  | JNull => Some "null"
  | JBool b => Some (if b then "true" else "false")
  | JNum (Finite q) => Some (Number_toString q)
  | JNum _ => Some "null"
  | JStr s => Some (QuoteJSONString s)
  | JArr elems _ =>
      Some ("[" +:+ String.concat ","
                      (map (fun x => default "null" (JSON_stringify x)) elems)
                +:+ "]")
  | JObj props =>
      Some ("{" +:+ String.concat ","
                      (omap (fun p => match JSON_stringify (snd p) with
                                      | Some text =>
                                          Some (QuoteJSONString (fst p) +:+ ":" +:+ text)
                                      | None => None
                                      end) props)
                +:+ "}")
  end.

Definition ToNumber (v : JsValue) : Completion JsNumber :=
  match v with
  | JUndefined => Normal NaN
  | JNull => Normal (Finite 0)
  | JBool b => Normal (Finite (if b then 1 else 0))
  | JNum n => Normal n
  | _ => match ToNumber_coerce v with
         | Some n => Normal n
         | None => Throw TypeError
         end
  end.

(** [v / d] *)
Definition divide (v : JsValue) (d : Q) : Completion JsValue :=
  let* n := ToNumber v in
  Normal (JNum (Number_divide n d)).

(** The [for] loop of [_identifyRepetitiveFrames]: [i] is the loop
    variable, [fuel] bounds the remaining iterations. *)
Fixpoint identify_loop (frames : list JsValue) (fuel i : nat)
         (repetitiveFrames : list nat) : list nat :=
  match fuel with
  | 0 => repetitiveFrames
  | S fuel' =>
      if i <? length frames then
        identify_loop frames fuel' (S i)
          (if bool_decide (JSON_stringify (at_index frames i)
                           = JSON_stringify (at_index frames (i - 1)))
           then repetitiveFrames ++ [i]
           else repetitiveFrames)
      else repetitiveFrames
  end.

Definition _identifyRepetitiveFrames (frames : JsValue) : list nat :=
  if Array_isArray frames
  then identify_loop (elements frames) (length (elements frames)) 1 []
  else [].

Definition _estimateOptimizationPotential (animationData : JsValue)
  : Completion OptimizationPotential :=
  match JSON_stringify animationData with
  | None => Throw TypeError
  | Some text =>
      let dataSize := Z.of_nat (String.length text) in
      Normal {| sizeReductionPotential :=
                  if (10000 <? dataSize)%Z then "high"
                  else if (1000 <? dataSize)%Z then "medium"
                  else "low";
                performanceImprovementPotential := "medium";
                estimatedSizeReduction := Qfloor (inject_Z dataSize * (3 # 10)) |}
  end.

Definition _analyzeLoop (animationData : JsValue) : Completion AnalysisReport :=
  if negb (ToBoolean animationData) || negb (String.eqb (typeof animationData) "object")
  then Throw (Error "Invalid animation data")
  else
    let frames := js_or (Get animationData "frames") (JArr [] []) in
    let frameCount := Get frames "length" in
    let* duration :=
      (if ToBoolean (Get animationData "duration")
       then Normal (Get animationData "duration")
       else divide frameCount 30) in
    let repetitiveFrames := _identifyRepetitiveFrames frames in
    let redundantProperties := _identifyRedundantProperties animationData in
    let* estimatedOptimizationPotential := _estimateOptimizationPotential animationData in
    Normal {| frameCount := frameCount;
              duration := duration;
              repetitiveFrames := repetitiveFrames;
              redundantProperties := redundantProperties;
              estimatedOptimizationPotential := estimatedOptimizationPotential |}.

Definition _performLocalOptimizations (env : Env) (animationData : JsValue)
           (analysis : AnalysisReport) (options : JsValue) : Completion JsValue :=
  let* optimized := JSON_parse_stringify animationData in
  let* compress :=
    (if 0 <? length (repetitiveFrames analysis)
     then let* enableCompression := GetV options "enableCompression" in
          Normal (ToBoolean enableCompression)
     else Normal false) in
  let* optimized :=
    (if compress : bool
     then let* frames := GetV optimized "frames" in
          Put optimized "frames"
              (_compressRepetitiveFrames (js_or frames (JArr [] []))
                                         (repetitiveFrames analysis))
     else Normal optimized) in
  let* metadata := GetV optimized "metadata" in
  let* optimized := Put optimized "metadata" (js_or metadata (JObj [])) in
  let* optimized := PutIn optimized "metadata" "optimized" (JBool true) in
  let* optimized :=
    PutIn optimized "metadata" "optimizationDate" (JStr (optimizationDate env)) in
  let* optimized := PutIn optimized "metadata" "optimizationOptions" options in
  Normal optimized.

(** The text of a double in a template literal ([Number::toString]): an
    integer of magnitude up to [2 ^ 53] prints as its decimal digits; how
    the other finite numbers print is left to the host. *)
Definition double_toString (x : spec_float) : string :=
  match x with
  | S754_nan => "NaN"
  | S754_infinity negative => if negative then "-Infinity" else "Infinity"
  | S754_zero _ => "0"
  | S754_finite negative m e =>
      let q := Qred (Q_of_finite negative m e) in
      if (Qden q =? 1)%positive && (Z.abs (Qnum q) <=? 2 ^ 53)%Z
      then string_of_Z (Qnum q)
      else Number_toString q
  end.

(** [`${Math.floor(Math.random() * 30) + 10}%`] for the draw [random]: the
    product, the floor and the sum are computed in binary64, rounding to
    nearest even. *)
Definition sizeReduction_text (random : spec_float) : string :=
  double_toString
    (SFadd 53 1024 (Math_floor (SFmul 53 1024 random (double_of_Z 30)))
           (double_of_Z 10))
  +:+ "%".

(** [{...this.config, ...options}], with the default [options = {}] of
    [optimizeLoop] applied. *)
Definition optimizationOptions (this : LoopOptimizer) (options : JsValue) : JsValue :=
  let options := match options with
                 | JUndefined => JObj []
                 | _ => options
                 end in
  JObj (spread (spread [] (config this)) options).

(** The value the returned promise settles with: [Normal] when it resolves,
    [Throw] when it rejects.  The one-second timer only delays the
    resolution. *)
Definition optimizeLoop (this : LoopOptimizer) (env : Env)
           (animationData options : JsValue) : Completion JsValue :=
  if negb (ToBoolean (isInitialized this))
  then Throw (Error "LoopOptimizer not properly initialized")
  else
    let optimizationOptions := optimizationOptions this options in
    let* analysis := _analyzeLoop animationData in
    let* locallyOptimized :=
      _performLocalOptimizations env animationData analysis optimizationOptions in
    Normal (JObj
      (set_prop "timestamp" (JStr (timestamp env))
        (set_prop "sizeReduction"
                  (JStr (sizeReduction_text (random env)))
          (set_prop "optimizationLevel" (Get optimizationOptions "quality")
            (set_prop "optimized" (JBool true)
              (spread [] locallyOptimized)))))).

(** *** Deep equality *)

(** Two frames are deep-equal when their serializations are the same text
    (or both are [undefined]). *)
Definition deep_equal (x y : JsValue) : Prop :=
  JSON_stringify x = JSON_stringify y.

#[global] Instance deep_equal_dec x y : Decision (deep_equal x y).
Proof. unfold deep_equal. apply _. Defined.

(** The indices [i], [1 <= i < length], whose frame is deep-equal to its
    predecessor, in increasing order. *)
Definition repetitive_indices (frames : list JsValue) : list nat :=
  filter (fun i => deep_equal (at_index frames i) (at_index frames (i - 1)))
         (seq 1 (length frames - 1)).

(** *** The analyzer and the whole call on the store *)

(** The analyzer only reads the store; its report and the temporary arrays
    it builds do not outlive the call and are kept outside the store.  It is
    run on the tree the record denotes; without a tree (a cycle)
    [JSON.stringify] throws. *)
Definition h_analyzeLoop (animationData : HValue) : HeapM AnalysisReport :=
  fun h =>
    if negb (h_ToBoolean animationData)
       || negb (String.eqb (h_typeof animationData) "object")
    then (h, Throw (Error "Invalid animation data"))
    else match h_snapshot h animationData with
         | Some tree => (h, _analyzeLoop tree)
         | None => (h, Throw TypeError)
         end.

Definition h_optimizeLoop (this : H_LoopOptimizer) (env : Env)
           (animationData options : HValue) : HeapM HValue :=
  do* options := (match options with
                  | HUndefined => allocate (HObj [])
                  | _ => h_ret options
                  end) in
  if negb (h_ToBoolean (h_isInitialized this))
  then fun h => (h, Throw (Error "LoopOptimizer not properly initialized"))
  else
    do* optimizationOptions :=
      (fun h => allocate (HObj (h_spread h (h_spread h [] (h_config this)) options)) h) in
    do* analysis := h_analyzeLoop animationData in
    do* locallyOptimized :=
      h_performLocalOptimizations env animationData analysis optimizationOptions in
    do* quality := h_GetV optimizationOptions "quality" in
    fun h =>
      allocate (HObj
        (set_prop "timestamp" (HStr (timestamp env))
          (set_prop "sizeReduction"
                    (HStr (sizeReduction_text (random env)))
            (set_prop "optimizationLevel" quality
              (set_prop "optimized" (HBool true)
                (h_spread h [] locallyOptimized)))))) h.

(** *** The web server *)

(** [error.message]: the text an [Error] was built with; for an exception
    the engine raises itself, the engine's text. *)
Variable engine_message : Exception -> string.

Definition error_message (error : Exception) : string :=
  match error with
  | Error text => text
  | _ => engine_message error
  end.

(** The handler of [POST /api/optimize], applied to [req.body].  The
    destructuring of [req.body] and the call are inside the [try] block;
    [res.json] without [res.status] sends 200. *)
Definition post_api_optimize (env : Env) (req_body : JsValue) : Response :=
  let attempt : Completion Response :=
    let* animationData := GetV req_body "animationData" in
    let* options := GetV req_body "options" in
    if negb (ToBoolean animationData)
    then Normal {| status := 400;
                   body := JObj [("error", JStr "Animation data is required")] |}
    else
      let* optimized := optimizeLoop optimizer env animationData options in
      Normal {| status := 200;
                body := JObj [("success", JBool true); ("data", optimized)] |} in
  match attempt with
  | Normal response => response
  | Throw error =>
      {| status := 500;
         body := JObj [("success", JBool false);
                       ("error", JStr (error_message error))] |}
  end.

(** ** The analyzer: repetitive frames *)

Lemma identify_loop_spec (frames : list JsValue) (fuel i : nat) (acc : list nat) :
  length frames - i <= fuel ->
  identify_loop frames fuel i acc
  = acc ++ filter (fun i => deep_equal (at_index frames i) (at_index frames (i - 1)))
                  (seq i (length frames - i)).
Proof.
  revert i acc. induction fuel as [|fuel IH]; intros i acc Hfuel; simpl.
  - replace (length frames - i) with 0 by lia. simpl. by rewrite app_nil_r.
  - destruct (Nat.ltb_spec i (length frames)) as [Hlt|Hge].
    + rewrite IH by lia.
      replace (length frames - i) with (S (length frames - S i)) by lia.
      rewrite <- cons_seq, filter_cons.
      unfold deep_equal at 3.
      destruct (decide _) as [Heq|Hne].
      * rewrite bool_decide_eq_true_2 by done. by rewrite <- app_assoc.
      * by rewrite bool_decide_eq_false_2.
    + replace (length frames - i) with 0 by lia. simpl. by rewrite app_nil_r.
Qed.

Lemma identifyRepetitiveFrames_array (frames : list JsValue) extra :
  _identifyRepetitiveFrames (JArr frames extra) = repetitive_indices frames.
Proof.
  unfold _identifyRepetitiveFrames, repetitive_indices. simpl.
  rewrite identify_loop_spec by lia. done.
Qed.

Lemma identifyRepetitiveFrames_not_array (frames : JsValue) :
  Array_isArray frames = false -> _identifyRepetitiveFrames frames = [].
Proof. unfold _identifyRepetitiveFrames. by intros ->. Qed.

Lemma StronglySorted_seq (j n : nat) : StronglySorted lt (seq j n).
Proof.
  revert j. induction n as [|n IH]; intros j; simpl; constructor; [apply IH|].
  apply Forall_forall. intros k Hk%elem_of_seq. lia.
Qed.

Lemma StronglySorted_filter_lt (P : nat -> Prop) `{!forall x, Decision (P x)} (l : list nat) :
  StronglySorted lt l -> StronglySorted lt (filter P l).
Proof.
  induction 1 as [|x l Hl IH Hx]; [constructor|].
  rewrite filter_cons. destruct (decide (P x)); [|done].
  constructor; [done|].
  apply Forall_forall. intros y [_ Hy]%list_elem_of_filter.
  by eapply Forall_forall in Hx.
Qed.

Lemma repetitive_indices_sorted (frames : list JsValue) :
  StronglySorted lt (repetitive_indices frames).
Proof. apply StronglySorted_filter_lt, StronglySorted_seq. Qed.

Lemma elem_of_repetitive_indices (frames : list JsValue) (i : nat) :
  i ∈ repetitive_indices frames
  <-> 1 <= i < length frames
      /\ deep_equal (at_index frames i) (at_index frames (i - 1)).
Proof.
  unfold repetitive_indices. rewrite list_elem_of_filter, elem_of_seq.
  split; intros [? ?]; split; auto; lia.
Qed.

Lemma filter_all_id {A} (P : A -> Prop) `{!forall x, Decision (P x)} (l : list A) :
  Forall P l -> filter P l = l.
Proof.
  induction 1 as [|x l Hx _ IH]; [done|].
  by rewrite filter_cons_True, IH.
Qed.

Lemma filter_length_all {A} (P : A -> Prop) `{!forall x, Decision (P x)} (l : list A) :
  length (filter P l) = length l -> Forall P l.
Proof.
  intros Hlen. apply Forall_forall. intros x Hx.
  destruct (decide (P x)) as [|Hn]; [done|].
  pose proof (length_filter_lt P l x Hx Hn). lia.
Qed.

Lemma at_index_replicate (A : JsValue) (N i : nat) :
  i < N -> at_index (replicate N A) i = A.
Proof. intros Hi. unfold at_index. by rewrite lookup_replicate_2. Qed.

Lemma at_index_app_r (pre rest : list JsValue) (j : nat) :
  at_index (pre ++ rest) (length pre + j) = at_index rest j.
Proof.
  unfold at_index. rewrite lookup_app_r by lia.
  by replace (length pre + j - length pre) with j by lia.
Qed.

Lemma repetitive_indices_run (A : JsValue) (N : nat) :
  repetitive_indices (replicate N A) = seq 1 (N - 1).
Proof.
  unfold repetitive_indices. rewrite length_replicate.
  apply filter_all_id, Forall_forall. intros i Hi%elem_of_seq.
  unfold deep_equal. by rewrite !at_index_replicate by lia.
Qed.

Lemma repetitive_indices_inner_run (pre post : list JsValue) (A : JsValue) (N j : nat) :
  1 <= j < N ->
  length pre + j ∈ repetitive_indices (pre ++ replicate N A ++ post).
Proof.
  intros Hj. apply elem_of_repetitive_indices.
  rewrite !length_app, length_replicate. split; [lia|].
  replace (length pre + j - 1) with (length pre + (j - 1)) by lia.
  rewrite !at_index_app_r. unfold at_index, deep_equal.
  by rewrite !lookup_app_l, !lookup_replicate_2 by (rewrite ?length_replicate; lia).
Qed.

Lemma repetitive_indices_AAAB (A B : JsValue) :
  ~ deep_equal A B -> repetitive_indices [A; A; A; B] = [1; 2].
Proof.
  intros Hne. unfold repetitive_indices. simpl.
  rewrite filter_cons_True by (by unfold at_index; simpl).
  rewrite filter_cons_True by (by unfold at_index; simpl).
  rewrite filter_cons_False; [done|].
  unfold at_index; simpl. intros Heq. apply Hne. by symmetry.
Qed.

(** C1. For every frame sequence the analyzer's [repetitiveFrames] is the
    strictly increasing list of the indices [i], [1 <= i < length], whose
    frame has the same serialization as frame [i - 1].  Every non-first
    member of a run of identical frames is listed, a sequence that is one run
    of [N] frames yields the [N - 1] indices [1 .. N-1], and [A, A, A, B]
    yields [1, 2]. *)
Theorem identifyRepetitiveFrames_characterised (frames : list JsValue)
        (extra : list (string * JsValue)) :
  let repetitive := _identifyRepetitiveFrames (JArr frames extra) in
  repetitive = repetitive_indices frames
  /\ StronglySorted lt repetitive
  /\ (forall i, i ∈ repetitive
                <-> 1 <= i < length frames
                    /\ deep_equal (at_index frames i) (at_index frames (i - 1)))
  /\ (forall pre post A N j,
         frames = pre ++ replicate N A ++ post -> 1 <= j < N ->
         length pre + j ∈ repetitive)
  /\ (forall A N, frames = replicate N A -> repetitive = seq 1 (N - 1))
  /\ (forall A B, ~ deep_equal A B -> frames = [A; A; A; B] -> repetitive = [1; 2]).
Proof.
  simpl. rewrite identifyRepetitiveFrames_array.
  split; [done|]. split; [apply repetitive_indices_sorted|].
  split; [apply elem_of_repetitive_indices|].
  split; [|split].
  - intros pre post A N j -> Hj. by apply repetitive_indices_inner_run.
  - intros A N ->. apply repetitive_indices_run.
  - intros A B Hne ->. by apply repetitive_indices_AAAB.
Qed.

(** *** How many indices are reported *)

Lemma repetitive_indices_length (frames : list JsValue) :
  length (repetitive_indices frames) <= length frames - 1.
Proof.
  unfold repetitive_indices.
  etrans; [apply length_filter|]. by rewrite length_seq.
Qed.

Lemma consecutive_deep_equal (frames : list JsValue) :
  (forall i, 1 <= i < length frames ->
             deep_equal (at_index frames i) (at_index frames (i - 1))) ->
  forall i, i < length frames -> deep_equal (at_index frames i) (at_index frames 0).
Proof.
  intros Hstep i. induction i as [|i IH]; intros Hi; [done|].
  unfold deep_equal in *. rewrite Hstep by lia.
  replace (S i - 1) with i by lia. apply IH. lia.
Qed.

Lemma repetitive_indices_maximal (frames : list JsValue) :
  length (repetitive_indices frames) = length frames - 1
  <-> forall i j, i < length frames -> j < length frames ->
                  deep_equal (at_index frames i) (at_index frames j).
Proof.
  unfold repetitive_indices. split.
  - intros Hlen i j Hi Hj.
    rewrite <- (length_seq (length frames - 1) 1) in Hlen.
    rewrite length_seq in Hlen at 1.
    apply filter_length_all in Hlen.
    assert (forall k, 1 <= k < length frames ->
                      deep_equal (at_index frames k) (at_index frames (k - 1))) as Hstep.
    { intros k Hk. eapply Forall_forall in Hlen; [exact Hlen|].
      apply elem_of_seq. lia. }
    unfold deep_equal.
    rewrite (consecutive_deep_equal frames Hstep i Hi).
    by rewrite (consecutive_deep_equal frames Hstep j Hj).
  - intros Hall. rewrite filter_all_id; [by rewrite length_seq|].
    apply Forall_forall. intros k Hk%elem_of_seq. apply Hall; lia.
Qed.

(** C3, as the code has it.  For a sequence of [n] frames the number of
    reported indices is at most [n - 1], hence strictly below [n] as soon as
    there is a frame (for [n = 0] both numbers are 0); it reaches [n - 1]
    exactly when all frames are deep-equal; and nothing is reported when
    [n] is 0 or 1. *)
Theorem repetitiveFrames_count (frames : list JsValue) (extra : list (string * JsValue)) :
  let repetitive := _identifyRepetitiveFrames (JArr frames extra) in
  length repetitive <= length frames - 1
  /\ (frames <> [] -> length repetitive < length frames)
  /\ (length repetitive = length frames - 1
      <-> forall i j, i < length frames -> j < length frames ->
                      deep_equal (at_index frames i) (at_index frames j))
  /\ (length frames <= 1 -> repetitive = []).
Proof.
  simpl. rewrite identifyRepetitiveFrames_array.
  pose proof (repetitive_indices_length frames) as Hle.
  split; [done|]. split; [|split].
  - intros Hne. destruct frames; [done|]. simpl in *. lia.
  - apply repetitive_indices_maximal.
  - intros Hn. apply length_zero_iff_nil. lia.
Qed.

(** ** Property reads and writes *)

Lemma lookup_set_prop_same {V} k (v : V) props :
  lookup_prop k (set_prop k v props) = Some v.
Proof.
  induction props as [|[k' v'] rest IH]; simpl.
  - by rewrite String.eqb_refl.
  - destruct (String.eqb_spec k k') as [->|Hne]; simpl.
    + by rewrite String.eqb_refl.
    + by destruct (String.eqb_spec k k').
Qed.

Lemma lookup_set_prop_other {V} k k' (v : V) props :
  k <> k' -> lookup_prop k' (set_prop k v props) = lookup_prop k' props.
Proof.
  intros Hne. induction props as [|[k0 v0] rest IH]; simpl.
  - destruct (String.eqb_spec k' k); congruence.
  - destruct (String.eqb_spec k k0) as [->|Hk]; simpl.
    + destruct (String.eqb_spec k' k0); congruence.
    + by rewrite IH.
Qed.

Lemma Put_object o k v : is_object o = true -> Put o k v = Normal (assign o k v).
Proof. by destruct o. Qed.

Lemma Put_primitive o k v : is_object o = false -> Put o k v = Throw TypeError.
Proof. by destruct o. Qed.

Lemma GetV_object o k : is_object o = true -> GetV o k = Normal (Get o k).
Proof. by destruct o. Qed.

Lemma is_object_assign o k v : is_object (assign o k v) = is_object o.
Proof. by destruct o. Qed.

Lemma is_object_json_clone a : is_object (json_clone a) = is_object a.
Proof. by destruct a as [| | |[]| | |]. Qed.

Lemma Get_assign_same o k v :
  is_object o = true -> k <> "length" -> Get (assign o k v) k = v.
Proof.
  intros Ho Hk. destruct o; try done; simpl.
  - destruct (String.eqb_spec k "length"); [done|]. by rewrite lookup_set_prop_same.
  - by rewrite lookup_set_prop_same.
Qed.

Lemma Get_assign_other o k k' v :
  k <> k' -> Get (assign o k v) k' = Get o k'.
Proof.
  intros Hne. destruct o; try done; simpl.
  - destruct (String.eqb k' "length"); [done|]. by rewrite lookup_set_prop_other.
  - by rewrite lookup_set_prop_other.
Qed.

(** ** The local transformer in closed form *)

Lemma bind_Normal {A B} (a : A) (k : A -> Completion B) :
  Completion_bind (Normal a) k = k a.
Proof. reflexivity. Qed.

Lemma bind_Throw {A B} (e : Exception) (k : A -> Completion B) :
  Completion_bind (Throw e) k = Throw e.
Proof. reflexivity. Qed.

Lemma PutIn_object o k1 k2 v :
  is_object o = true -> k1 <> "length" -> is_object (Get o k1) = true ->
  PutIn o k1 k2 v = Normal (assign o k1 (assign (Get o k1) k2 v)).
Proof.
  intros Ho Hk Hin. unfold PutIn.
  rewrite GetV_object, bind_Normal by done.
  rewrite Put_object, bind_Normal by done.
  by rewrite Put_object.
Qed.

Lemma PutIn_primitive o k1 k2 v :
  is_object o = true -> is_object (Get o k1) = false ->
  PutIn o k1 k2 v = Throw TypeError.
Proof.
  intros Ho Hin. unfold PutIn.
  rewrite GetV_object, bind_Normal by done.
  by rewrite Put_primitive.
Qed.

Lemma set_prop_twice {V} k (v v' : V) props :
  set_prop k v' (set_prop k v props) = set_prop k v' props.
Proof.
  induction props as [|[k0 v0] rest IH]; simpl.
  - by rewrite String.eqb_refl.
  - destruct (String.eqb_spec k k0) as [->|Hne]; simpl.
    + by rewrite String.eqb_refl.
    + destruct (String.eqb_spec k k0); [done|]. by rewrite IH.
Qed.

Lemma assign_twice o k v v' : assign (assign o k v) k v' = assign o k v'.
Proof. destruct o; try done; simpl; by rewrite set_prop_twice. Qed.

Lemma PutIn_assign o k1 k2 v m :
  is_object o = true -> k1 <> "length" -> is_object m = true ->
  PutIn (assign o k1 m) k1 k2 v = Normal (assign o k1 (assign m k2 v)).
Proof.
  intros Ho Hk Hm.
  rewrite PutIn_object by (by rewrite ?is_object_assign, ?Get_assign_same).
  by rewrite Get_assign_same, assign_twice.
Qed.

Lemma performLocalOptimizations_eq (env : Env) (animationData : JsValue)
      (analysis : AnalysisReport) (options : list (string * JsValue)) :
  is_object animationData = true ->
  _performLocalOptimizations env animationData analysis (JObj options)
  = if metadata_writable animationData
    then Normal (assign (after_frames animationData analysis (JObj options)) "metadata"
                   (metadata_after env (Get (json_clone animationData) "metadata")
                                   (JObj options)))
    else Throw TypeError.
Proof.
  intros Hobj. unfold _performLocalOptimizations, metadata_writable.
  assert (JSON_parse_stringify animationData = Normal (json_clone animationData)) as ->
    by (by destruct animationData).
  pose proof (is_object_json_clone animationData) as Hc. rewrite Hobj in Hc.
  unfold after_frames, compresses.
  set (c := json_clone animationData) in *.
  set (rep := repetitiveFrames analysis).
  rewrite bind_Normal.
  assert ((if 0 <? length rep
           then let* enableCompression := GetV (JObj options) "enableCompression" in
                Normal (ToBoolean enableCompression)
           else Normal false)
          = Normal ((0 <? length rep) && ToBoolean (Get (JObj options) "enableCompression")))
    as -> by (by destruct (0 <? length rep)).
  rewrite bind_Normal.
  set (o1 := if (0 <? length rep) && ToBoolean (Get (JObj options) "enableCompression")
             then assign c "frames"
                    (_compressRepetitiveFrames (js_or (Get c "frames") (JArr [] [])) rep)
             else c).
  assert ((if (0 <? length rep) && ToBoolean (Get (JObj options) "enableCompression")
           then let* frames := GetV c "frames" in
                Put c "frames" (_compressRepetitiveFrames (js_or frames (JArr [] [])) rep)
           else Normal c) = Normal o1) as ->.
  { unfold o1. destruct (_ && _); [|done].
    rewrite GetV_object, bind_Normal by done. by rewrite Put_object. }
  assert (is_object o1 = true) as Ho1.
  { unfold o1. destruct (_ && _); [by rewrite is_object_assign|done]. }
  assert (Get o1 "metadata" = Get c "metadata") as Hm.
  { unfold o1. destruct (_ && _); [by rewrite Get_assign_other|done]. }
  rewrite bind_Normal, GetV_object, bind_Normal, Put_object, bind_Normal by done.
  rewrite Hm. set (m := Get c "metadata").
  destruct (ToBoolean m) eqn:Htruthy; simpl negb; simpl orb.
  - destruct (is_object m) eqn:Hmo.
    + assert (js_or m (JObj []) = m) as -> by (by unfold js_or; rewrite Htruthy).
      do 2 (rewrite PutIn_assign, bind_Normal by (by rewrite ?is_object_assign)).
      rewrite PutIn_assign by (by rewrite ?is_object_assign).
      unfold metadata_after, js_or. by rewrite Htruthy.
    + rewrite PutIn_primitive; [done| by rewrite is_object_assign |].
      rewrite Get_assign_same by done. unfold js_or. by rewrite Htruthy.
  - assert (js_or m (JObj []) = JObj []) as Hm0 by (by unfold js_or; rewrite Htruthy).
    rewrite Hm0.
    do 2 (rewrite PutIn_assign, bind_Normal by (by rewrite ?is_object_assign)).
    rewrite PutIn_assign by (by rewrite ?is_object_assign).
    unfold metadata_after. by rewrite Hm0.
Qed.

(** ** The deep copy *)

Lemma JsValue_induction (P : JsValue -> Prop) :
  P JUndefined -> P JNull -> (forall b, P (JBool b)) -> (forall n, P (JNum n)) ->
  (forall s, P (JStr s)) ->
  (forall elems extra,
      Forall P elems -> Forall (fun p => P (snd p)) extra -> P (JArr elems extra)) ->
  (forall props, Forall (fun p => P (snd p)) props -> P (JObj props)) ->
  forall v, P v.
Proof.
  intros Hu Hn Hb Hnum Hs Harr Hobj.
  fix IH 1. intros [| |b|n|s|elems extra|props];
    [exact Hu|exact Hn|apply Hb|apply Hnum|apply Hs| |].
  - apply Harr.
    + induction elems as [|x elems IHl]; constructor; [apply IH|apply IHl].
    + induction extra as [|[k x] extra IHl]; constructor; [apply IH|apply IHl].
  - apply Hobj.
    induction props as [|[k x] props IHl]; constructor; [apply IH|apply IHl].
Qed.

(** On JSON data the copy is equal to the original. *)
Lemma json_clone_id (v : JsValue) : is_json v = true -> json_clone v = v.
Proof.
  induction v as [| |b|n|s|elems extra IHe _|props IHp] using JsValue_induction;
    simpl; try done.
  - by destruct n.
  - intros [Helems Hextra]%andb_prop. destruct extra; [|done]. f_equal.
    induction IHe as [|x elems Hx _ IHl]; [done|].
    simpl in Helems. apply andb_prop in Helems as [Hjx Hjl]. simpl.
    rewrite IHl by done. f_equal.
    destruct x; try done; by apply Hx.
  - intros Hprops. f_equal.
    induction IHp as [|[k x] props Hx _ IHl]; [done|].
    simpl in Hprops. apply andb_prop in Hprops as [Hjx Hjl].
    specialize (IHl Hjl). specialize (Hx Hjx).
    destruct x; try done; simpl in *; f_equal;
      solve [exact IHl | f_equal; exact Hx].
Qed.

Lemma omap_cons {A B} (f : A -> option B) (x : A) (l : list A) :
  omap f (x :: l) = match f x with
                    | Some y => y :: omap f l
                    | None => omap f l
                    end.
Proof. reflexivity. Qed.

(** Serializing the copy gives the text the copy was parsed from. *)
Lemma stringify_json_clone (v : JsValue) :
  JSON_stringify (json_clone v) = JSON_stringify v.
Proof.
  induction v as [| |b|n|s|elems extra IHe _|props IHp] using JsValue_induction;
    simpl; try done.
  - by destruct n.
  - assert (map (fun x => default "null" (JSON_stringify x))
                (map (fun x => match x with
                               | JUndefined => JNull
                               | _ => json_clone x
                               end) elems)
            = map (fun x => default "null" (JSON_stringify x)) elems) as ->; [|done].
    induction IHe as [|x elems Hx _ IHl]; [done|]. simpl. rewrite IHl. f_equal.
    destruct x; [done|exact (f_equal (default "null") Hx)..].
  - match goal with
    | |- Some (_ +:+ String.concat _ ?l1 +:+ _) = Some (_ +:+ String.concat _ ?l2 +:+ _) =>
        assert (l1 = l2) as ->; [|done]
    end.
    induction IHp as [|[k x] props Hx _ IHl]; [done|].
    rewrite (omap_cons _ (k, x)). cbn [fst snd] in *.
    destruct x; [rewrite omap_cons; exact IHl|..];
      cbn match; rewrite omap_cons; cbn [fst snd]; by rewrite Hx, IHl.
Qed.

(** A property of a plain object that is not [undefined] is copied in
    place. *)
Lemma Get_json_clone_defined (props : list (string * JsValue)) (k : string) :
  Get (JObj props) k <> JUndefined ->
  Get (json_clone (JObj props)) k = json_clone (Get (JObj props) k).
Proof.
  simpl. induction props as [|[k' x] props IH]; simpl; [done|].
  destruct (String.eqb_spec k k') as [->|Hne].
  - simpl. intros Hx. destruct x; try done; simpl; by rewrite String.eqb_refl.
  - intros Hx. specialize (IH Hx).
    destruct x; simpl; try done;
      by destruct (String.eqb_spec k k').
Qed.

Lemma lookup_prop_None_not_key (props : list (string * JsValue)) (k : string) :
  k ∉ props.*1 -> lookup_prop k props = None.
Proof.
  induction props as [|[k' x] props IH]; simpl; [done|].
  intros Hk. apply not_elem_of_cons in Hk as [Hne Hk].
  destruct (String.eqb_spec k k'); [done|]. by apply IH.
Qed.

Lemma lookup_prop_omap_None {B} (f : string * JsValue -> option (string * B))
      (props : list (string * JsValue)) (k : string) :
  (forall p q, f p = Some q -> fst q = fst p) ->
  k ∉ props.*1 -> k ∉ (omap f props).*1.
Proof.
  intros Hf. induction props as [|p props IH]; simpl; [done|].
  intros Hk. apply not_elem_of_cons in Hk as [Hne Hk].
  destruct (f p) as [q|] eqn:Hq; simpl; [|by apply IH].
  apply not_elem_of_cons. split; [|by apply IH].
  by rewrite (Hf _ _ Hq).
Qed.

(** In a plain object without repeated keys every property of the copy
    serializes like the original property. *)
Lemma Get_json_clone_deep_equal (props : list (string * JsValue)) (k : string) :
  NoDup props.*1 ->
  deep_equal (Get (json_clone (JObj props)) k) (Get (JObj props) k).
Proof.
  unfold deep_equal. intros Hnd.
  assert (Get (JObj props) k = JUndefined \/ Get (JObj props) k <> JUndefined)
    as [Hu|Hd] by (destruct (Get (JObj props) k); auto).
  - rewrite Hu. simpl in *.
    induction props as [|[k' x] props IH]; simpl in *; [done|].
    apply NoDup_cons in Hnd as [Hk' Hnd].
    destruct (String.eqb_spec k k') as [->|Hne].
    + simpl in Hu. subst x. simpl.
      rewrite lookup_prop_None_not_key; [done|].
      apply lookup_prop_omap_None; [|done].
      intros [k0 x0] q. simpl. destruct x0; intros; simplify_eq; done.
    + specialize (IH Hnd Hu).
      destruct x; simpl; try done; by destruct (String.eqb_spec k k').
  - rewrite Get_json_clone_defined by done. apply stringify_json_clone.
Qed.

(** ** Removing frames by index *)

Lemma filter_by_index_spec {A} (keep : nat -> bool) (start : nat) (frames : list A) :
  filter_by_index keep start frames
  = omap (fun i => frames !! (i - start))
         (filter (fun i => keep i = true) (seq start (length frames))).
Proof.
  revert start. induction frames as [|x frames IH]; intros start; [done|].
  simpl filter_by_index. simpl length. rewrite <- cons_seq, filter_cons.
  assert (omap (fun i => (x :: frames) !! (i - start))
               (filter (fun i => keep i = true) (seq (S start) (length frames)))
          = omap (fun i => frames !! (i - S start))
                 (filter (fun i => keep i = true) (seq (S start) (length frames))))
    as Htail.
  { apply list_omap_ext, Forall_Forall2_diag, Forall_forall.
    intros i [_ Hi%elem_of_seq]%list_elem_of_filter.
    by replace (i - start) with (S (i - S start)) by lia. }
  destruct (keep start) eqn:Hkeep.
  - rewrite decide_True by done. rewrite omap_cons.
    replace (start - start) with 0 by lia. simpl lookup.
    by rewrite Htail, <- IH.
  - rewrite decide_False by (by intros ?). by rewrite Htail, <- IH.
Qed.

Lemma includes_spec (repetitiveIndices : list nat) (i : nat) :
  includes repetitiveIndices i = true <-> i ∈ repetitiveIndices.
Proof.
  unfold includes. induction repetitiveIndices as [|j rest IH]; simpl.
  - split; [done|]. by intros ?%elem_of_nil.
  - rewrite orb_true_iff, IH, elem_of_cons, Nat.eqb_eq. done.
Qed.

Lemma filter_excluding_survivors {A} (repetitiveIndices : list nat) (frames : list A) :
  filter_by_index (fun i => negb (includes repetitiveIndices i)) 0 frames
  = survivors repetitiveIndices frames.
Proof.
  rewrite filter_by_index_spec. unfold survivors.
  rewrite (list_filter_iff _ (fun i => i ∉ repetitiveIndices)).
  - apply list_omap_ext, Forall_Forall2_diag, Forall_forall.
    intros i _. by rewrite Nat.sub_0_r.
  - intros i. rewrite negb_true_iff, <- not_true_iff_false.
    by rewrite includes_spec.
Qed.

Lemma filter_by_index_sublist {A} (keep : nat -> bool) (start : nat) (frames : list A) :
  sublist (filter_by_index keep start frames) frames.
Proof.
  revert start. induction frames as [|x frames IH]; intros start; simpl; [constructor|].
  destruct (keep start); by constructor.
Qed.

Lemma survivors_sublist {A} (removed : list nat) (frames : list A) :
  sublist (survivors removed frames) frames.
Proof. rewrite <- filter_excluding_survivors. apply filter_by_index_sublist. Qed.

(** A frame of the result is a frame of the input at a surviving index, and
    every surviving index contributes. *)
Lemma elem_of_survivors {A} (removed : list nat) (frames : list A) (x : A) :
  x ∈ survivors removed frames
  <-> exists i, (i ∉ removed) /\ frames !! i = Some x.
Proof.
  unfold survivors. rewrite list_elem_of_omap. split.
  - intros (i & [Hi _]%list_elem_of_filter & Hx). eauto.
  - intros (i & Hi & Hx). exists i. split; [|done].
    apply list_elem_of_filter. split; [done|].
    apply elem_of_seq. apply lookup_lt_Some in Hx. lia.
Qed.

Lemma compressRepetitiveFrames_array (frames : list JsValue) extra
      (repetitiveIndices : list nat) :
  frames <> [] -> repetitiveIndices <> [] ->
  _compressRepetitiveFrames (JArr frames extra) repetitiveIndices
  = JArr (survivors repetitiveIndices frames) [].
Proof.
  intros Hf Hr. unfold _compressRepetitiveFrames. simpl.
  destruct frames; [done|]. destruct repetitiveIndices; [done|]. simpl orb.
  cbv iota. by rewrite filter_excluding_survivors.
Qed.

(** ** The analyzer, field by field *)

Lemma analyzeLoop_invalid (animationData : JsValue) :
  is_object animationData = false ->
  _analyzeLoop animationData = Throw (Error "Invalid animation data").
Proof.
  unfold _analyzeLoop. destruct animationData as [| |[]|[q| |]| | |]; try done; simpl.
  - by destruct (Qeq_bool q 0).
  - intros _. by destruct (String.eqb s "").
Qed.

Lemma analyzeLoop_Normal (animationData : JsValue) (analysis : AnalysisReport) :
  _analyzeLoop animationData = Normal analysis ->
  let frames := js_or (Get animationData "frames") (JArr [] []) in
  is_object animationData = true
  /\ frameCount analysis = Get frames "length"
  /\ (if ToBoolean (Get animationData "duration")
      then duration analysis = Get animationData "duration"
      else divide (frameCount analysis) 30 = Normal (duration analysis))
  /\ repetitiveFrames analysis = _identifyRepetitiveFrames frames
  /\ redundantProperties analysis = []
  /\ _estimateOptimizationPotential animationData
     = Normal (estimatedOptimizationPotential analysis).
Proof.
  intros Han. simpl.
  destruct (is_object animationData) eqn:Hobj;
    [|by rewrite analyzeLoop_invalid in Han].
  split; [done|]. unfold _analyzeLoop in Han.
  assert (negb (ToBoolean animationData)
          || negb (String.eqb (typeof animationData) "object") = false) as Hguard
    by (by destruct animationData).
  rewrite Hguard in Han. clear Hguard.
  destruct (ToBoolean (Get animationData "duration")).
  - rewrite bind_Normal in Han.
    destruct (_estimateOptimizationPotential animationData); [|done].
    rewrite bind_Normal in Han. by simplify_eq.
  - destruct (divide _ 30) as [d|] eqn:Hdiv; [|done]. rewrite bind_Normal in Han.
    destruct (_estimateOptimizationPotential animationData); [|done].
    rewrite bind_Normal in Han. by simplify_eq.
Qed.

(** The analyzer raises [Error] for one reason only. *)
Lemma analyzeLoop_Error (animationData : JsValue) (message : string) :
  _analyzeLoop animationData = Throw (Error message) ->
  is_object animationData = false /\ message = "Invalid animation data".
Proof.
  destruct (is_object animationData) eqn:Hobj.
  - unfold _analyzeLoop.
    assert (negb (ToBoolean animationData)
            || negb (String.eqb (typeof animationData) "object") = false) as ->
      by (by destruct animationData).
    assert (forall v, divide v 30 <> Throw (Error message)) as Hdiv.
    { intros v. unfold divide, ToNumber.
      destruct v; try done; by destruct (ToNumber_coerce _). }
    assert (_estimateOptimizationPotential animationData <> Throw (Error message))
      as Hest.
    { unfold _estimateOptimizationPotential. by destruct (JSON_stringify _). }
    destruct (ToBoolean (Get animationData "duration")).
    + rewrite bind_Normal.
      destruct (_estimateOptimizationPotential animationData); [done|].
      simpl. intros ?. by simplify_eq.
    + specialize (Hdiv (Get (js_or (Get animationData "frames") (JArr [] [])) "length")).
      destruct (divide _ 30) as [d|e]; [|simpl; intros ?; by simplify_eq].
      rewrite bind_Normal.
      destruct (_estimateOptimizationPotential animationData); [done|].
      simpl. intros ?. by simplify_eq.
  - rewrite analyzeLoop_invalid by done. intros ?. by simplify_eq.
Qed.

(** ** The local transformer: frames *)

(** When frames are removed, the analyzed frames are an array with at least
    one element. *)
Lemma repetitive_nonempty_frames (animationData : JsValue) (analysis : AnalysisReport) :
  _analyzeLoop animationData = Normal analysis ->
  repetitiveFrames analysis <> [] ->
  exists frames extra,
    Get animationData "frames" = JArr frames extra /\ frames <> [].
Proof.
  intros (_ & _ & _ & Hrep & _)%analyzeLoop_Normal Hne.
  rewrite Hrep in Hne. unfold js_or in Hne.
  destruct (ToBoolean (Get animationData "frames")) eqn:Htruthy.
  - destruct (Get animationData "frames") as [| | | | |frames extra|] eqn:Hframes;
      try (by rewrite identifyRepetitiveFrames_not_array in Hne).
    exists frames, extra. split; [done|]. intros ->.
    by rewrite identifyRepetitiveFrames_array in Hne.
  - by rewrite identifyRepetitiveFrames_array in Hne.
Qed.

(** The frames of the result, in terms of the copy. *)
Lemma performLocalOptimizations_frames_of_copy (env : Env) (animationData : JsValue)
      (analysis : AnalysisReport) (options : list (string * JsValue)) :
  is_object animationData = true -> metadata_writable animationData = true ->
  exists optimized,
    _performLocalOptimizations env animationData analysis (JObj options)
    = Normal optimized
    /\ Get optimized "frames"
       = if compresses analysis (JObj options)
         then _compressRepetitiveFrames
                (js_or (Get (json_clone animationData) "frames") (JArr [] []))
                (repetitiveFrames analysis)
         else Get (json_clone animationData) "frames".
Proof.
  intros Hobj Hmeta. rewrite performLocalOptimizations_eq, Hmeta by done.
  eexists. split; [done|].
  rewrite Get_assign_other by done. unfold after_frames.
  destruct (compresses _ _); [|done].
  by rewrite Get_assign_same by (by rewrite ?is_object_json_clone).
Qed.

Lemma frames_after_local_optimizations (env : Env) (animationData : JsValue)
      (analysis : AnalysisReport) (options : list (string * JsValue)) :
  _analyzeLoop animationData = Normal analysis ->
  metadata_writable animationData = true ->
  is_json animationData = true ->
  exists optimized,
    _performLocalOptimizations env animationData analysis (JObj options)
    = Normal optimized
    /\ (repetitiveFrames analysis <> []
        /\ ToBoolean (Get (JObj options) "enableCompression") = true ->
        Get optimized "frames"
        = JArr (survivors (repetitiveFrames analysis)
                          (elements (Get animationData "frames"))) [])
    /\ (~ (repetitiveFrames analysis <> []
           /\ ToBoolean (Get (JObj options) "enableCompression") = true) ->
        Get optimized "frames" = Get animationData "frames")
    /\ sublist (elements (Get optimized "frames"))
               (elements (Get animationData "frames")).
Proof.
  intros Han Hmeta Hjson.
  pose proof (analyzeLoop_Normal _ _ Han) as (Hobj & _).
  destruct (performLocalOptimizations_frames_of_copy env animationData analysis
              options Hobj Hmeta) as (optimized & Hrun & Hframes).
  rewrite json_clone_id in Hframes by done.
  exists optimized. split; [done|].
  assert (compresses analysis (JObj options) = true
          <-> repetitiveFrames analysis <> []
              /\ ToBoolean (Get (JObj options) "enableCompression") = true) as Hc.
  { unfold compresses. rewrite andb_true_iff, Nat.ltb_lt.
    destruct (repetitiveFrames analysis); simpl; split; intros [? ?]; split;
      try done; lia. }
  destruct (compresses analysis (JObj options)) eqn:Hcomp.
  - apply proj1 in Hc. destruct (Hc eq_refl) as [Hne Hec].
    destruct (repetitive_nonempty_frames _ _ Han Hne) as (frames & extra & Hf & Hfne).
    rewrite Hf in Hframes. unfold js_or in Hframes. simpl in Hframes.
    rewrite compressRepetitiveFrames_array in Hframes by done.
    rewrite Hframes, Hf. simpl.
    split; [done|]. split; [by intros []|]. apply survivors_sublist.
  - rewrite Hframes. split; [|split; [done|done]].
    intros Hyes. apply Hc in Hyes. done.
Qed.

(** The frames step in terms of the deep copy, for any accepted record. *)
Lemma frames_of_copy_after_local_optimizations (env : Env) (animationData : JsValue)
      (analysis : AnalysisReport) (options : list (string * JsValue)) :
  _analyzeLoop animationData = Normal analysis ->
  metadata_writable animationData = true ->
  exists optimized,
    _performLocalOptimizations env animationData analysis (JObj options)
    = Normal optimized
    /\ (repetitiveFrames analysis <> []
        /\ ToBoolean (Get (JObj options) "enableCompression") = true ->
        Get optimized "frames"
        = JArr (survivors (repetitiveFrames analysis)
                          (elements (Get (json_clone animationData) "frames"))) [])
    /\ (~ (repetitiveFrames analysis <> []
           /\ ToBoolean (Get (JObj options) "enableCompression") = true) ->
        Get optimized "frames" = Get (json_clone animationData) "frames").
Proof.
  intros Han Hmeta.
  destruct (analyzeLoop_Normal _ _ Han) as (Hobj & _).
  destruct (performLocalOptimizations_frames_of_copy env _ analysis options
              Hobj Hmeta) as (optimized & Hrun & Hframes).
  exists optimized. split; [done|]. rewrite Hframes. unfold compresses.
  split.
  - intros [Hne Hon]. rewrite Hon, andb_true_r.
    destruct (repetitiveFrames analysis) as [|i rest] eqn:Hrep; [done|].
    cbn [length Nat.ltb Nat.leb].
    destruct (repetitive_nonempty_frames _ _ Han) as (frames & extra & Hget & Hframes');
      [by rewrite Hrep|].
    destruct animationData as [| |b|n|str|elems named|props]; try done.
    rewrite Get_json_clone_defined by (by rewrite Hget).
    rewrite Hget. cbn [json_clone js_or ToBoolean elements].
    apply compressRepetitiveFrames_array; [|done].
    by destruct frames.
  - intros Hnot.
    destruct (repetitiveFrames analysis) as [|i rest]; [done|].
    cbn [length Nat.ltb Nat.leb andb].
    destruct (ToBoolean (Get (JObj options) "enableCompression")); [|done].
    exfalso. by apply Hnot.
Qed.

(** C2, amended.  For an animation the analyzer accepts, with its report
    and any options object: if the [metadata] of the deep copy is a truthy
    primitive, the local transformer throws a [TypeError] and there is no
    transformed animation.  Otherwise it returns a record; if
    [repetitiveFrames] is non-empty and [options.enableCompression] is
    truthy, the record's [frames] is the subsequence of the copy's frames
    at the indices not in [repetitiveFrames], in their original order, and
    otherwise [frames] is the copy's; for an animation that is JSON data
    the copy's frames are the input frames themselves. *)
Theorem performLocalOptimizations_frames (env : Env) (animationData : JsValue)
        (analysis : AnalysisReport) (options : list (string * JsValue)) :
  _analyzeLoop animationData = Normal analysis ->
  (metadata_writable animationData = false ->
   _performLocalOptimizations env animationData analysis (JObj options)
   = Throw TypeError)
  /\ (metadata_writable animationData = true ->
      exists optimized,
        _performLocalOptimizations env animationData analysis (JObj options)
        = Normal optimized
        /\ (repetitiveFrames analysis <> []
            /\ ToBoolean (Get (JObj options) "enableCompression") = true ->
            Get optimized "frames"
            = JArr (survivors (repetitiveFrames analysis)
                              (elements (Get (json_clone animationData) "frames")))
                   [])
        /\ (~ (repetitiveFrames analysis <> []
               /\ ToBoolean (Get (JObj options) "enableCompression") = true) ->
            Get optimized "frames" = Get (json_clone animationData) "frames")
        /\ (is_json animationData = true ->
            (repetitiveFrames analysis <> []
             /\ ToBoolean (Get (JObj options) "enableCompression") = true ->
             Get optimized "frames"
             = JArr (survivors (repetitiveFrames analysis)
                               (elements (Get animationData "frames"))) [])
            /\ (~ (repetitiveFrames analysis <> []
                   /\ ToBoolean (Get (JObj options) "enableCompression") = true) ->
                Get optimized "frames" = Get animationData "frames")
            /\ sublist (elements (Get optimized "frames"))
                       (elements (Get animationData "frames")))).
Proof.
  intros Han.
  destruct (analyzeLoop_Normal _ _ Han) as (Hobj & _).
  split.
  - intros Hmeta. by rewrite performLocalOptimizations_eq, Hmeta.
  - intros Hmeta.
    destruct (frames_of_copy_after_local_optimizations env _ _ options Han Hmeta)
      as (optimized & Hrun & Hcompress & Hkeep).
    exists optimized. do 3 (split; [done|]).
    intros Hjson.
    destruct (frames_after_local_optimizations env _ _ options Han Hmeta Hjson)
      as (optimized' & Hrun' & Hfacts).
    rewrite Hrun in Hrun'. by injection Hrun' as <-.
Qed.

(** A value that is neither an object nor an array is not transformed. *)
Lemma performLocalOptimizations_not_object (env : Env) (animationData : JsValue)
      (analysis : AnalysisReport) (options : list (string * JsValue)) :
  is_object animationData = false ->
  exists e,
    _performLocalOptimizations env animationData analysis (JObj options) = Throw e.
Proof.
  intros Hobj. unfold _performLocalOptimizations.
  destruct animationData as [| |b|[q| |]|str|elems named|props]; try done;
    cbn [JSON_parse_stringify json_clone GetV];
    rewrite ?bind_Normal, ?bind_Throw; try (by eexists);
    destruct (0 <? length (repetitiveFrames analysis));
    rewrite ?bind_Normal;
    try destruct (ToBoolean (Get (JObj options) "enableCompression"));
    cbn; by eexists.
Qed.

(** C6, amended.  With [enableCompression] false (or otherwise falsy): for
    a value that is not an object or array, and for one whose deep copy has
    a truthy primitive as [metadata], the transformer throws and yields no
    output.  Otherwise it keeps the frames: the result's [frames] is the
    copy's, equal to the input's on JSON data and deep-equal to it on any
    plain object; every field other than [metadata] is the copy's. *)
Theorem performLocalOptimizations_without_compression (env : Env)
        (animationData : JsValue) (analysis : AnalysisReport)
        (options : list (string * JsValue)) :
  ToBoolean (Get (JObj options) "enableCompression") = false ->
  (is_object animationData = false ->
   exists e,
     _performLocalOptimizations env animationData analysis (JObj options)
     = Throw e)
  /\ (is_object animationData = true ->
      metadata_writable animationData = false ->
      _performLocalOptimizations env animationData analysis (JObj options)
      = Throw TypeError)
  /\ (is_object animationData = true ->
      metadata_writable animationData = true ->
      exists optimized,
        _performLocalOptimizations env animationData analysis (JObj options)
        = Normal optimized
        /\ Get optimized "frames" = Get (json_clone animationData) "frames"
        /\ (is_json animationData = true ->
            Get optimized "frames" = Get animationData "frames")
        /\ (forall props, animationData = JObj props -> NoDup props.*1 ->
            deep_equal (Get optimized "frames") (Get animationData "frames"))
        /\ (forall k, k <> "metadata" ->
            Get optimized k = Get (json_clone animationData) k)).
Proof.
  intros Hoff. split; [apply performLocalOptimizations_not_object|]. split.
  { intros Hobj Hmeta. by rewrite performLocalOptimizations_eq, Hmeta. }
  intros Hobj Hmeta.
  rewrite performLocalOptimizations_eq, Hmeta by done.
  eexists. split; [done|].
  assert (after_frames animationData analysis (JObj options)
          = json_clone animationData) as ->.
  { unfold after_frames, compresses. rewrite Hoff. by rewrite andb_false_r. }
  rewrite Get_assign_other by done.
  split; [done|]. split; [|split].
  - intros Hjson. by rewrite json_clone_id.
  - intros props -> Hnd. by apply Get_json_clone_deep_equal.
  - intros k Hk. by rewrite Get_assign_other.
Qed.

(** ** Invalid input *)

Lemma not_record_iff (animationData : JsValue) :
  absent animationData \/ ~ structured_record animationData
  <-> is_object animationData = false.
Proof.
  unfold absent, structured_record.
  destruct animationData; simpl; split; try done; try (by left; auto);
    try (by right); try (by intros [[?|?]|?]); by intros _; auto.
Qed.

Lemma optimizeLoop_constructed (config : JsValue) (env : Env)
      (animationData options : JsValue) :
  optimizeLoop (constructor config) env animationData options
  = match _analyzeLoop animationData with
    | Throw e => Throw e
    | Normal analysis =>
        if metadata_writable animationData
        then Normal (JObj
               (set_prop "timestamp" (JStr (timestamp env))
                 (set_prop "sizeReduction"
                    (JStr (sizeReduction_text (random env)))
                   (set_prop "optimizationLevel"
                      (Get (optimizationOptions (constructor config) options) "quality")
                     (set_prop "optimized" (JBool true)
                       (spread []
                          (assign
                             (after_frames animationData analysis
                                (optimizationOptions (constructor config) options))
                             "metadata"
                             (metadata_after env
                                (Get (json_clone animationData) "metadata")
                                (optimizationOptions (constructor config) options)))))))))
        else Throw TypeError
    end.
Proof.
  unfold optimizeLoop. simpl negb. cbv iota.
  destruct (_analyzeLoop animationData) as [analysis|e] eqn:Han; [|done].
  rewrite bind_Normal.
  pose proof (analyzeLoop_Normal _ _ Han) as (Hobj & _).
  unfold optimizationOptions at 1 3 4.
  rewrite performLocalOptimizations_eq by done.
  by destruct (metadata_writable animationData).
Qed.

(** C4. [optimizeLoop] rejects with the error "Invalid animation data"
    exactly when the animation is absent or not a structured record.  The
    error is the analyzer's, passed on as it is (as is any other exception of
    the analyzer), and in that case no value is returned. *)
Theorem optimizeLoop_invalid_input (config : JsValue) (env : Env)
        (animationData options : JsValue) :
  let this := constructor config in
  (optimizeLoop this env animationData options
   = Throw (Error "Invalid animation data")
   <-> absent animationData \/ ~ structured_record animationData)
  /\ (_analyzeLoop animationData = Throw (Error "Invalid animation data")
      <-> absent animationData \/ ~ structured_record animationData)
  /\ (forall e, _analyzeLoop animationData = Throw e ->
                optimizeLoop this env animationData options = Throw e)
  /\ (absent animationData \/ ~ structured_record animationData ->
      forall result, optimizeLoop this env animationData options <> Normal result).
Proof.
  simpl. rewrite not_record_iff, optimizeLoop_constructed.
  assert (_analyzeLoop animationData = Throw (Error "Invalid animation data")
          <-> is_object animationData = false) as Hanalyze.
  { split; [by intros [? _]%analyzeLoop_Error|apply analyzeLoop_invalid]. }
  split; [|split; [done|split]].
  - rewrite <- Hanalyze.
    destruct (_analyzeLoop animationData) as [analysis|e];
      [|split; intros ?; by simplify_eq].
    destruct (metadata_writable animationData); split; done.
  - by intros e ->.
  - intros Hinv result. rewrite analyzeLoop_invalid by done. done.
Qed.

(** ** The analyzer: frame count and duration *)

Lemma frameCount_of_array (animationData : JsValue) (analysis : AnalysisReport)
      (frames : list JsValue) extra :
  _analyzeLoop animationData = Normal analysis ->
  Get animationData "frames" = JArr frames extra ->
  frameCount analysis = JNum (Number_of_nat (length frames)).
Proof. intros (_ & -> & _)%analyzeLoop_Normal ->. done. Qed.

Lemma frameCount_of_falsy (animationData : JsValue) (analysis : AnalysisReport) :
  _analyzeLoop animationData = Normal analysis ->
  ToBoolean (Get animationData "frames") = false ->
  frameCount analysis = JNum (Number_of_nat 0).
Proof. intros (_ & -> & _)%analyzeLoop_Normal Hf. unfold js_or. by rewrite Hf. Qed.

(** C7, at inputs whose [frames] is not a sequence.  With [frames: 5] the
    reported [frameCount] is [undefined], and with [frames: {length: 7}] it
    is 7, where the claim says 0; [_identifyRepetitiveFrames], which tests
    [Array.isArray], treats both as the empty sequence. *)
Theorem frameCount_of_non_sequence :
  (exists analysis,
      _analyzeLoop (JObj [("frames", JNum (Number_of_Z 5))]) = Normal analysis
      /\ frameCount analysis = JUndefined
      /\ repetitiveFrames analysis = [])
  /\ (exists analysis,
      _analyzeLoop (JObj [("frames", JObj [("length", JNum (Number_of_Z 7))])])
      = Normal analysis
      /\ frameCount analysis = JNum (Number_of_Z 7)
      /\ repetitiveFrames analysis = []).
Proof. split; eexists; (split; [reflexivity|done]). Qed.

Lemma duration_of_truthy (animationData : JsValue) (analysis : AnalysisReport) :
  _analyzeLoop animationData = Normal analysis ->
  ToBoolean (Get animationData "duration") = true ->
  duration analysis = Get animationData "duration".
Proof. intros (_ & _ & Hd & _)%analyzeLoop_Normal Ht. by rewrite Ht in Hd. Qed.

Lemma duration_of_falsy (animationData : JsValue) (analysis : AnalysisReport) :
  _analyzeLoop animationData = Normal analysis ->
  ToBoolean (Get animationData "duration") = false ->
  divide (frameCount analysis) 30 = Normal (duration analysis).
Proof. intros (_ & _ & Hd & _)%analyzeLoop_Normal Ht. by rewrite Ht in Hd. Qed.

(** C8, at a record whose [duration] field is present and is 0: the
    reported duration is [frameCount / 30 = 3 / 30], not the field. *)
Theorem duration_of_zero :
  let animationData :=
    JObj [("frames", JArr [JNull; JBool true; JNull] []);
          ("duration", JNum (Number_of_Z 0))] in
  exists analysis q,
    _analyzeLoop animationData = Normal analysis
    /\ Get animationData "duration" = JNum (Finite 0)
    /\ frameCount analysis = JNum (Number_of_Z 3)
    /\ duration analysis = JNum (Finite q)
    /\ (q == 3 / 30)%Q
    /\ ~ (q == 0)%Q.
Proof. simpl. eexists _, _. split; [reflexivity|]. by repeat split. Qed.

(** ** The analyzer: optimization potential *)

Lemma utf8_size_ascii_only (s : string) :
  ascii_only s = true -> utf8_size s = String.length s.
Proof.
  induction s as [|c rest IH]; simpl; [done|].
  intros [Hc Hrest]%andb_prop. rewrite Hc, IH; done.
Qed.

Lemma Qfloor_three_tenths (s : Z) : Qfloor (inject_Z s * (3 # 10)) = (3 * s / 10)%Z.
Proof. unfold Qfloor, Qmult, inject_Z. simpl. by rewrite Z.mul_comm. Qed.

(** C9, as the code has it.  With [text] the serialization of the whole
    record and [s] its length in code units (which is its size in bytes when
    the text is ASCII): [estimatedSizeReduction] is [floor (0.3 * s)], and
    [sizeReductionPotential] is [high] iff [s > 10000], [medium] iff
    [1000 < s <= 10000], [low] iff [s <= 1000]. *)
Theorem estimateOptimizationPotential_by_length (animationData : JsValue)
        (analysis : AnalysisReport) :
  _analyzeLoop animationData = Normal analysis ->
  exists text,
    JSON_stringify animationData = Some text
    /\ let s := Z.of_nat (String.length text) in
       let potential := estimatedOptimizationPotential analysis in
       estimatedSizeReduction potential = Qfloor (inject_Z s * (3 # 10))
       /\ estimatedSizeReduction potential = (3 * s / 10)%Z
       /\ (sizeReductionPotential potential = "high" <-> (10000 < s)%Z)
       /\ (sizeReductionPotential potential = "medium" <-> (1000 < s <= 10000)%Z)
       /\ (sizeReductionPotential potential = "low" <-> (s <= 1000)%Z)
       /\ (ascii_only text = true -> Z.of_nat (utf8_size text) = s).
Proof.
  intros (_ & _ & _ & _ & _ & Hest)%analyzeLoop_Normal.
  unfold _estimateOptimizationPotential in Hest.
  destruct (JSON_stringify animationData) as [text|]; [|done].
  exists text. split; [done|]. injection Hest as <-.
  cbn [estimatedSizeReduction sizeReductionPotential].
  split; [done|]. split; [apply Qfloor_three_tenths|].
  destruct (Z.ltb_spec 10000 (Z.of_nat (String.length text)));
    [|destruct (Z.ltb_spec 1000 (Z.of_nat (String.length text)))];
    (repeat split; try done; try lia);
    by intros ->%utf8_size_ascii_only.
Qed.

(** ** Configuration and options *)

Lemma set_prop_not_key k v (props : list (string * JsValue)) :
  k ∉ props.*1 -> set_prop k v props = props ++ [(k, v)].
Proof.
  induction props as [|[k' v'] rest IH]; simpl; [done|].
  intros [Hne Hrest]%not_elem_of_cons.
  destruct (String.eqb_spec k k'); [done|]. by rewrite IH.
Qed.

Lemma set_prop_keys k v (props : list (string * JsValue)) :
  (set_prop k v props).*1 = props.*1
  \/ ((k ∉ props.*1) /\ (set_prop k v props).*1 = props.*1 ++ [k]).
Proof.
  induction props as [|[k' v'] rest IH].
  - right. split; [apply not_elem_of_nil|done].
  - cbn [set_prop]. destruct (String.eqb_spec k k') as [->|Hne]; [by left|].
    rewrite !fmap_cons. cbn [fst].
    destruct IH as [->|[Hk ->]]; [by left|right].
    split; [|done]. by apply not_elem_of_cons.
Qed.

Lemma NoDup_set_prop k v (props : list (string * JsValue)) :
  NoDup props.*1 -> NoDup (set_prop k v props).*1.
Proof.
  intros Hnd. destruct (set_prop_keys k v props) as [->|[Hk ->]]; [done|].
  apply NoDup_app. split; [done|]. split; [|apply NoDup_singleton].
  intros x Hx ->%list_elem_of_singleton. done.
Qed.

Lemma NoDup_spread (target : list (string * JsValue)) (source : JsValue) :
  NoDup target.*1 -> NoDup (spread target source).*1.
Proof.
  unfold spread. generalize (own_enumerable source). intros props.
  revert target. induction props as [|[k v] props IH]; intros target Hnd; [done|].
  simpl. by apply IH, NoDup_set_prop.
Qed.

(** Spreading an object without repeated keys into an empty literal copies
    its property list. *)
Lemma spread_copy (props : list (string * JsValue)) :
  NoDup props.*1 -> spread [] (JObj props) = props.
Proof.
  unfold spread. simpl.
  assert (forall acc : list (string * JsValue),
             NoDup (acc.*1 ++ props.*1) ->
             fold_left (fun acc p => set_prop (fst p) (snd p) acc) props acc
             = acc ++ props) as Hgen.
  { induction props as [|[k v] props IH]; intros acc Hnd; simpl.
    - by rewrite app_nil_r.
    - simpl in Hnd.
      rewrite set_prop_not_key.
      + rewrite IH; [by rewrite <- app_assoc|].
        by rewrite fmap_app, <- app_assoc.
      + apply NoDup_app in Hnd as (_ & Hdisj & _).
        intros Hk. apply (Hdisj k Hk). by left. }
  intros Hnd. by apply (Hgen []).
Qed.

Lemma lookup_spread_omitted (k : string) (target : list (string * JsValue))
      (source : JsValue) :
  lookup_prop k (own_enumerable source) = None ->
  lookup_prop k (spread target source) = lookup_prop k target.
Proof.
  unfold spread. generalize (own_enumerable source). intros props.
  revert target. induction props as [|[k' v] props IH]; intros target; simpl; [done|].
  destruct (String.eqb_spec k k') as [->|Hne]; [done|].
  intros Hnone. rewrite IH by done. by rewrite lookup_set_prop_other.
Qed.

Lemma optimizationOptions_defaults (settings options : JsValue) (k : string) :
  lookup_prop k (own_enumerable settings) = None ->
  lookup_prop k (own_enumerable options) = None ->
  Get (optimizationOptions (constructor settings) options) k
  = default JUndefined
      (lookup_prop k [("quality", JNum (Number_of_Z 8));
                      ("enableCompression", JBool true)]).
Proof.
  intros Hconfig Hoptions. unfold optimizationOptions, constructor.
  cbn [config Get].
  rewrite spread_copy.
  2:{ apply NoDup_spread. cbn. apply NoDup_cons. split; [|apply NoDup_singleton].
      by intros ?%list_elem_of_singleton. }
  rewrite lookup_spread_omitted by (by destruct options).
  by rewrite lookup_spread_omitted.
Qed.


(** ** What a call leaves untouched *)

Lemma triple_ret {A} (P : Heap -> Prop) (a : A) (Q : A -> Heap -> Prop) E :
  (forall h, P h -> Q a h) -> triple P (h_ret a) Q E.
Proof. intros HPQ h HP. by apply HPQ. Qed.

Lemma triple_bind {A B} (P : Heap -> Prop) (m : HeapM A) (k : A -> HeapM B)
      (Q : A -> Heap -> Prop) (R : B -> Heap -> Prop) E :
  triple P m Q E -> (forall a, triple (Q a) (k a) R E) ->
  triple P (h_bind m k) R E.
Proof.
  intros Hm Hk h HP. unfold h_bind. specialize (Hm h HP).
  destruct (m h) as [h' [a|e]]; [|done]. by apply Hk.
Qed.

Lemma triple_consequence {A} (P P' : Heap -> Prop) (m : HeapM A)
      (Q Q' : A -> Heap -> Prop) (E E' : Heap -> Prop) :
  triple P' m Q' E' ->
  (forall h, P h -> P' h) -> (forall a h, Q' a h -> Q a h) -> (forall h, E' h -> E h) ->
  triple P m Q E.
Proof.
  intros Hm HP HQ HE h Hh. specialize (Hm h (HP h Hh)).
  destruct (m h) as [h' [a|e]]; auto.
Qed.

Lemma Forall_set_prop_values (P : HValue -> Prop) k v (props : list (string * HValue)) :
  P v -> Forall P props.*2 -> Forall P (set_prop k v props).*2.
Proof.
  intros Hv. induction props as [|[k' v'] rest IH]; intros Hall.
  - by repeat constructor.
  - cbn [set_prop]. apply Forall_cons in Hall as [Hv' Hrest].
    destruct (String.eqb k k'); rewrite fmap_cons; constructor; auto.
Qed.

Lemma Forall_lookup_prop (P : HValue -> Prop) k (props : list (string * HValue)) v :
  Forall P props.*2 -> lookup_prop k props = Some v -> P v.
Proof.
  induction props as [|[k' v'] rest IH]; [done|].
  intros [Hv' Hrest]%Forall_cons. cbn [lookup_prop].
  destruct (String.eqb k k'); [by intros [= <-]|by apply IH].
Qed.

Lemma prefix_insert (h0 h : Heap) (l : nat) (o : HObject) :
  h0 `prefix_of` h -> length h0 <= l -> h0 `prefix_of` <[l := o]> h.
Proof.
  intros [k ->] Hl. rewrite insert_app_r_alt by done. by eexists.
Qed.

Lemma region_closed_insert (n : nat) (h : Heap) (l : nat) (o : HObject) :
  region_closed n h -> Forall (points_above n) (cell_values o) ->
  region_closed n (<[l := o]> h).
Proof.
  intros Hclosed Ho l' o' Hl' [(-> & -> & _)|[_ Hlook]]%list_lookup_insert_Some;
    [done|by eapply Hclosed].
Qed.

Lemma region_closed_snoc (n : nat) (h : Heap) (o : HObject) :
  region_closed n h -> Forall (points_above n) (cell_values o) ->
  region_closed n (h ++ [o]).
Proof.
  intros Hclosed Ho l' o' Hl' [[_ Hlook]|[_ <-]]%lookup_snoc_Some;
    [by eapply Hclosed|done].
Qed.

Lemma extends_refl (h0 : Heap) : region_closed (length h0) h0 -> extends h0 h0.
Proof. by split. Qed.

Lemma region_closed_start (h0 : Heap) : region_closed (length h0) h0.
Proof.
  intros l o Hl Hlook. apply lookup_lt_Some in Hlook. lia.
Qed.

(** *** The primitive steps *)

Lemma allocate_extends (h0 : Heap) (o : HObject) :
  Forall (points_above (length h0)) (cell_values o) ->
  triple (extends h0) (allocate o)
         (fun v h => extends h0 h /\ points_above (length h0) v) (extends h0).
Proof.
  intros Ho h [Hpre Hclosed]. unfold allocate. split; [split|].
  - by apply prefix_app_r.
  - by apply region_closed_snoc.
  - simpl. by apply prefix_length.
Qed.

Lemma h_GetV_extends (h0 : Heap) (v : HValue) (k : string) :
  points_above (length h0) v ->
  triple (extends h0) (h_GetV v k)
         (fun r h => extends h0 h /\ points_above (length h0) r) (extends h0).
Proof.
  intros Hv h [Hpre Hclosed]. unfold h_GetV.
  destruct v as [| | | |s|l]; try done; simpl.
  - split; [done|]. by destruct (String.eqb k "length").
  - split; [done|].
    destruct (h !! l) as [[elems extra|props]|] eqn:Hlook; [| |done].
    + destruct (String.eqb k "length"); [done|].
      destruct (lookup_prop k extra) as [r|] eqn:Hr; [|done]. simpl.
      specialize (Hclosed l _ Hv Hlook). simpl in Hclosed.
      apply Forall_app in Hclosed as [_ Hextra].
      by eapply Forall_lookup_prop.
    + destruct (lookup_prop k props) as [r|] eqn:Hr; [|done]. simpl.
      specialize (Hclosed l _ Hv Hlook). by eapply Forall_lookup_prop.
Qed.

(** Reading never changes the store, whatever is read. *)
Lemma h_GetV_reads (P : Heap -> Prop) (v : HValue) (k : string) :
  triple P (h_GetV v k) (fun _ h => P h) P.
Proof. intros h HP. unfold h_GetV. by destruct v. Qed.

Lemma h_Put_extends (h0 : Heap) (o : HValue) (k : string) (v : HValue) :
  points_above (length h0) o -> points_above (length h0) v ->
  triple (extends h0) (h_Put o k v) (fun _ h => extends h0 h) (extends h0).
Proof.
  intros Ho Hv h [Hpre Hclosed]. unfold h_Put.
  destruct o as [| | | | |l]; try done.
  destruct (h !! l) as [[elems extra|props]|] eqn:Hlook; [| |done].
  - split; [by apply prefix_insert|].
    apply region_closed_insert; [done|].
    specialize (Hclosed l _ Ho Hlook). simpl in *.
    apply Forall_app in Hclosed as [Helems Hextra].
    apply Forall_app. split; [done|]. by apply Forall_set_prop_values.
  - split; [by apply prefix_insert|].
    apply region_closed_insert; [done|].
    specialize (Hclosed l _ Ho Hlook). simpl in *.
    by apply Forall_set_prop_values.
Qed.

(** The last assignment stores [options], which may refer to an object the
    caller owns. *)
Lemma h_Put_allowed (h0 : Heap) (o : HValue) (k : string) (allowed : HValue) :
  points_above (length h0) o ->
  triple (extends h0) (h_Put o k allowed)
         (fun _ h => h0 `prefix_of` h /\ region_closed_except (length h0) allowed h)
         (extends h0).
Proof.
  intros Ho h [Hpre Hclosed]. unfold h_Put.
  assert (forall (l : nat) (o' : HObject),
             Forall (fun v => points_above (length h0) v \/ v = allowed) (cell_values o') ->
             region_closed_except (length h0) allowed (<[l := o']> h)) as Hins.
  { intros l o' Ho' l' o'' Hl' [(-> & -> & _)|[_ Hlook]]%list_lookup_insert_Some;
      [done|].
    eapply Forall_impl; [by eapply Hclosed|]. by left. }
  destruct o as [| | | | |l]; try done.
  destruct (h !! l) as [[elems extra|props]|] eqn:Hlook; [| |done].
  - split; [by apply prefix_insert|]. apply Hins.
    specialize (Hclosed l _ Ho Hlook). simpl in *.
    apply Forall_app in Hclosed as [Helems Hextra].
    apply Forall_app. split; [eapply Forall_impl; [done|by left]|].
    apply Forall_set_prop_values; [by right|].
    eapply Forall_impl; [done|by left].
  - split; [by apply prefix_insert|]. apply Hins.
    specialize (Hclosed l _ Ho Hlook). simpl in *.
    apply Forall_set_prop_values; [by right|].
    eapply Forall_impl; [done|by left].
Qed.

Lemma h_or_new_extends (h0 : Heap) (a : HValue) (literal : HObject) :
  points_above (length h0) a ->
  Forall (points_above (length h0)) (cell_values literal) ->
  triple (extends h0) (h_or_new a literal)
         (fun v h => extends h0 h /\ points_above (length h0) v) (extends h0).
Proof.
  intros Ha Hlit. unfold h_or_new. destruct (h_ToBoolean a).
  - by apply triple_ret.
  - by apply allocate_extends.
Qed.

Lemma Forall_filter_by_index {A} (P : A -> Prop) keep start (l : list A) :
  Forall P l -> Forall P (filter_by_index keep start l).
Proof.
  intros Hall. revert start.
  induction Hall as [|x l Hx _ IH]; intros start; simpl; [done|].
  destruct (keep start); [constructor|]; auto.
Qed.

Lemma h_compressRepetitiveFrames_extends (h0 : Heap) (frames : HValue)
      (repetitiveIndices : list nat) :
  points_above (length h0) frames ->
  triple (extends h0) (h_compressRepetitiveFrames frames repetitiveIndices)
         (fun v h => extends h0 h /\ points_above (length h0) v) (extends h0).
Proof.
  intros Hf h [Hpre Hclosed]. unfold h_compressRepetitiveFrames.
  destruct frames as [| | | | |l]; try done.
  destruct (h !! l) as [[elems extra|props]|] eqn:Hlook; try done.
  destruct (_ || _); [done|].
  apply allocate_extends; [|done]. simpl. rewrite app_nil_r.
  specialize (Hclosed l _ Hf Hlook). simpl in Hclosed.
  apply Forall_app in Hclosed as [Helems _].
  by apply Forall_filter_by_index.
Qed.

Lemma triple_assume {A} (P : Heap -> Prop) (fact : Prop) (m : HeapM A)
      (Q : A -> Heap -> Prop) E :
  (fact -> triple P m Q E) -> triple (fun h => P h /\ fact) m Q E.
Proof. intros Hm h [HP Hfact]. by apply Hm. Qed.

Lemma alloc_list_extends {A B} (f : A -> Heap -> B * Heap) (good : B -> Prop)
      (h0 : Heap) (l : list A) :
  Forall (fun x => forall h v h', f x h = (v, h') -> extends h0 h ->
                                  extends h0 h' /\ good v) l ->
  forall h vs h', alloc_list f l h = (vs, h') -> extends h0 h ->
                  extends h0 h' /\ Forall good vs.
Proof.
  induction 1 as [|x l Hx _ IH]; intros h vs h' Hrun Hext; simpl in Hrun.
  - by simplify_eq.
  - destruct (f x h) as [v h1] eqn:Hv.
    destruct (alloc_list f l h1) as [vs' h2] eqn:Hvs. simplify_eq.
    destruct (Hx _ _ _ Hv Hext) as [Hext1 Hgood].
    destruct (IH _ _ _ Hvs Hext1) as [Hext2 Hgoods]. by split; [|constructor].
Qed.

(** The objects built for a tree are new and refer only to each other. *)
Lemma alloc_tree_extends (h0 : Heap) (t : JsValue) :
  forall h v h', alloc_tree t h = (v, h') -> extends h0 h ->
                 extends h0 h' /\ points_above (length h0) v.
Proof.
  assert (forall props : list (string * JsValue),
    Forall (fun p => forall h v h', alloc_tree (snd p) h = (v, h') -> extends h0 h ->
                       extends h0 h' /\ points_above (length h0) v) props ->
    Forall (fun p => forall h (q : string * HValue) h',
                       (let '(v, h1) := alloc_tree (snd p) h in ((fst p, v), h1))
                       = (q, h') ->
                       extends h0 h ->
                       extends h0 h' /\ points_above (length h0) (snd q)) props)
    as Hprops.
  { intros props Hall. eapply Forall_impl; [exact Hall|].
    intros [k x] IH h q h' Hrun Hh. simpl in *.
    destruct (alloc_tree x h) as [v' h''] eqn:Hv. simplify_eq.
    by apply (IH _ _ _ Hv). }
  induction t as [| |b|n|s|elems extra IHe IHx|props IHp] using JsValue_induction;
    intros h v h' Hrun Hext; simpl in Hrun; try (by simplify_eq).
  - destruct (alloc_list alloc_tree elems h) as [elems' h1] eqn:Helems.
    destruct (alloc_list _ extra h1) as [extra' h2] eqn:Hextra. simplify_eq.
    destruct (alloc_list_extends _ (points_above (length h0)) h0 elems IHe
                _ _ _ Helems Hext) as [Hext1 Hgood1].
    destruct (alloc_list_extends _ (fun q => points_above (length h0) (snd q))
                h0 extra (Hprops _ IHx) _ _ _ Hextra Hext1)
      as [[Hpre2 Hclosed2] Hgood2].
    split; [split|].
    + by apply prefix_app_r.
    + apply region_closed_snoc; [done|]. simpl.
      apply Forall_app. split; [done|]. by apply Forall_fmap.
    + simpl. by apply prefix_length.
  - destruct (alloc_list _ props h) as [props' h1] eqn:Hrunp. simplify_eq.
    destruct (alloc_list_extends _ (fun q => points_above (length h0) (snd q))
                h0 props (Hprops _ IHp) _ _ _ Hrunp Hext)
      as [[Hpre1 Hclosed1] Hgood1].
    split; [split|].
    + by apply prefix_app_r.
    + apply region_closed_snoc; [done|]. simpl. by apply Forall_fmap.
    + simpl. by apply prefix_length.
Qed.

Lemma h_JSON_parse_stringify_extends (h0 : Heap) (v : HValue) :
  triple (extends h0) (h_JSON_parse_stringify v)
         (fun copy h => extends h0 h /\ points_above (length h0) copy) (extends h0).
Proof.
  intros h Hext. unfold h_JSON_parse_stringify.
  destruct (h_snapshot h v) as [tree|]; [|done].
  assert (forall t, match alloc_tree t h with
                    | (copy, h') => extends h0 h' /\ points_above (length h0) copy
                    end) as Halloc.
  { intros t. destruct (alloc_tree t h) as [copy h'] eqn:Hrun.
    by eapply alloc_tree_extends. }
  destruct tree; try done;
    match goal with
    | |- context [alloc_tree ?t h] =>
        specialize (Halloc t); by destruct (alloc_tree t h)
    end.
Qed.

(** The local transformer writes only to objects it created, and what it
    returns refers to them alone, apart from the options it was given. *)
Lemma h_performLocalOptimizations_extends (env : Env) (h0 : Heap)
      (animationData : HValue) (analysis : AnalysisReport) (options : HValue) :
  triple (extends h0)
         (h_performLocalOptimizations env animationData analysis options)
         (fun optimized h =>
            (h0 `prefix_of` h /\ region_closed_except (length h0) options h)
            /\ points_above (length h0) optimized)
         (extends h0).
Proof.
  unfold h_performLocalOptimizations.
  eapply triple_bind; [apply h_JSON_parse_stringify_extends|].
  intros optimized. apply triple_assume. intros Hopt.
  eapply (triple_bind _ _ _ (fun _ h => extends h0 h)).
  { destruct (0 <? _); [|by apply triple_ret].
    eapply triple_bind; [apply h_GetV_reads|]. intros ec. by apply triple_ret. }
  intros compress.
  eapply (triple_bind _ _ _ (fun _ h => extends h0 h)).
  { destruct compress; [|by apply triple_ret].
    eapply triple_bind; [by apply h_GetV_extends|].
    intros frames. apply triple_assume. intros Hframes.
    eapply triple_bind; [by apply h_or_new_extends|].
    intros frames'. apply triple_assume. intros Hframes'.
    eapply triple_bind; [by apply h_compressRepetitiveFrames_extends|].
    intros compressed. apply triple_assume. intros Hcompressed.
    by apply h_Put_extends. }
  intros ?.
  eapply triple_bind; [by apply h_GetV_extends|].
  intros metadata. apply triple_assume. intros Hmetadata.
  eapply triple_bind; [by apply h_or_new_extends|].
  intros metadata'. apply triple_assume. intros Hmetadata'.
  eapply triple_bind; [by apply h_Put_extends|]. intros ?.
  eapply triple_bind; [by apply h_GetV_extends|].
  intros m1. apply triple_assume. intros Hm1.
  eapply triple_bind; [by apply h_Put_extends|]. intros ?.
  eapply triple_bind; [by apply h_GetV_extends|].
  intros m2. apply triple_assume. intros Hm2.
  eapply triple_bind; [by apply h_Put_extends|]. intros ?.
  eapply triple_bind; [by apply h_GetV_extends|].
  intros m3. apply triple_assume. intros Hm3.
  eapply triple_bind; [by apply h_Put_allowed|]. intros ?.
  by apply triple_ret.
Qed.

(** *** The tree a record denotes *)

Lemma mapM_weaken {A B} (f g : A -> option B) (l : list A) (r : list B) :
  Forall (fun x => forall y, f x = Some y -> g x = Some y) l ->
  mapM f l = Some r -> mapM g l = Some r.
Proof.
  intros Hfg. rewrite !mapM_Some. intros Hall.
  induction Hall as [|x y l r Hxy _ IH]; [constructor|].
  apply Forall_cons in Hfg as [Hx Hl]. constructor; auto.
Qed.

(** More fuel and more objects do not change the tree. *)
Lemma snapshot_mono (fuel : nat) :
  forall fuel' (h h' : Heap) stack v t,
    h `prefix_of` h' -> fuel <= fuel' ->
    snapshot fuel h stack v = Some t -> snapshot fuel' h' stack v = Some t.
Proof.
  induction fuel as [|fuel IH]; intros fuel' h h' stack v t Hpre Hfuel.
  - destruct v; destruct fuel'; simpl; done.
  - destruct v as [| | | | |l]; try (destruct fuel'; simpl; done).
    destruct fuel' as [|fuel']; [lia|]. simpl.
    destruct (bool_decide (l ∈ stack)); [done|].
    destruct (h !! l) as [o|] eqn:Hlook; [|done].
    rewrite (prefix_lookup_Some _ _ _ _ Hlook Hpre).
    assert (forall x y, snapshot fuel h (l :: stack) x = Some y ->
                        snapshot fuel' h' (l :: stack) x = Some y) as Hvisit
      by (intros x y; apply IH; [done|lia]).
    assert (forall props r,
      mapM (fun p : string * HValue =>
              match snapshot fuel h (l :: stack) (snd p) with
              | Some x => Some (fst p, x)
              | None => None
              end) props = Some r ->
      mapM (fun p : string * HValue =>
              match snapshot fuel' h' (l :: stack) (snd p) with
              | Some x => Some (fst p, x)
              | None => None
              end) props = Some r) as Hprops.
    { intros props r. apply mapM_weaken, Forall_forall. intros [k x] _ y. simpl.
      destruct (snapshot fuel h (l :: stack) x) as [z|] eqn:Hz; [|done].
      by rewrite (Hvisit _ _ Hz). }
    destruct o as [elems extra|props].
    + destruct (mapM _ elems) as [elems'|] eqn:Helems; [|done].
      destruct (mapM _ extra) as [extra'|] eqn:Hextra; [|done].
      rewrite (mapM_weaken _ _ _ _ (proj2 (Forall_forall _ _)
                                      (fun x _ => Hvisit x)) Helems).
      by rewrite (Hprops _ _ Hextra).
    + destruct (mapM _ props) as [props'|] eqn:Hp; [|done].
      by rewrite (Hprops _ _ Hp).
Qed.

Lemma stack_bound (h : Heap) (stack : list loc) :
  NoDup stack -> (forall l, l ∈ stack -> l < length h) -> length stack <= length h.
Proof.
  intros Hnd Hin.
  assert (length stack <= length (seq 0 (length h))) as Hle.
  { apply submseteq_length, NoDup_submseteq; [done|].
    intros l Hl. apply elem_of_seq. specialize (Hin l Hl). lia. }
  by rewrite length_seq in Hle.
Qed.

(** A tree found with some fuel is found with the fuel [h_snapshot] uses. *)
Lemma snapshot_fuel_enough (fuel : nat) :
  forall fuel' (h : Heap) stack v t,
    NoDup stack -> (forall l, l ∈ stack -> l < length h) ->
    length h < fuel' + length stack ->
    snapshot fuel h stack v = Some t -> snapshot fuel' h stack v = Some t.
Proof.
  induction fuel as [|fuel IH]; intros fuel' h stack v t Hnd Hin Hfuel.
  - destruct v; destruct fuel'; simpl; done.
  - destruct v as [| | | | |l]; try (destruct fuel'; simpl; done).
    simpl. destruct (bool_decide (l ∈ stack)) eqn:Hvisited; [done|].
    apply bool_decide_eq_false in Hvisited.
    destruct (h !! l) as [o|] eqn:Hlook; [|done].
    assert (NoDup (l :: stack)) as Hnd' by (by constructor).
    assert (forall l', l' ∈ l :: stack -> l' < length h) as Hin'.
    { intros l' [->|Hl']%elem_of_cons; [by eapply lookup_lt_Some|by apply Hin]. }
    pose proof (stack_bound h (l :: stack) Hnd' Hin') as Hbound. simpl in Hbound.
    destruct fuel' as [|fuel']; [lia|]. simpl.
    rewrite bool_decide_eq_false_2, Hlook by done.
    assert (forall x y, snapshot fuel h (l :: stack) x = Some y ->
                        snapshot fuel' h (l :: stack) x = Some y) as Hvisit
      by (intros x y; apply IH; [done|done|simpl; lia]).
    assert (forall props r,
      mapM (fun p : string * HValue =>
              match snapshot fuel h (l :: stack) (snd p) with
              | Some x => Some (fst p, x)
              | None => None
              end) props = Some r ->
      mapM (fun p : string * HValue =>
              match snapshot fuel' h (l :: stack) (snd p) with
              | Some x => Some (fst p, x)
              | None => None
              end) props = Some r) as Hprops.
    { intros props r. apply mapM_weaken, Forall_forall. intros [k x] _ y. simpl.
      destruct (snapshot fuel h (l :: stack) x) as [z|] eqn:Hz; [|done].
      by rewrite (Hvisit _ _ Hz). }
    destruct o as [elems extra|props].
    + destruct (mapM _ elems) as [elems'|] eqn:Helems; [|done].
      destruct (mapM _ extra) as [extra'|] eqn:Hextra; [|done].
      rewrite (mapM_weaken _ _ _ _ (proj2 (Forall_forall _ _)
                                      (fun x _ => Hvisit x)) Helems).
      by rewrite (Hprops _ _ Hextra).
    + destruct (mapM _ props) as [props'|] eqn:Hp; [|done].
      by rewrite (Hprops _ _ Hp).
Qed.

Lemma h_snapshot_complete (fuel : nat) (h : Heap) (v : HValue) (t : JsValue) :
  snapshot fuel h [] v = Some t -> h_snapshot h v = Some t.
Proof.
  apply snapshot_fuel_enough; [constructor| |simpl; lia].
  by intros l ?%elem_of_nil.
Qed.

(** A record denotes the same tree in every store that extends its own. *)
Lemma h_snapshot_prefix (h h' : Heap) (v : HValue) (t : JsValue) :
  h `prefix_of` h' -> h_snapshot h v = Some t -> h_snapshot h' v = Some t.
Proof.
  intros Hpre. apply snapshot_mono; [done|].
  apply prefix_length in Hpre. lia.
Qed.

(** *** The whole call *)

Lemma triple_prefix_trans {A} (h0 : Heap) (m : HeapM A) :
  (forall h1, triple (extends h1) m (fun _ h => h1 `prefix_of` h)
                     (fun h => h1 `prefix_of` h)) ->
  triple (fun h => h0 `prefix_of` h) m (fun _ h => h0 `prefix_of` h)
         (fun h => h0 `prefix_of` h).
Proof.
  intros Hm h Hpre.
  specialize (Hm h h (extends_refl h (region_closed_start h))).
  destruct (m h) as [h' [a|e]]; by etrans.
Qed.

Lemma allocate_prefix (h0 : Heap) (o : HObject) :
  triple (fun h => h0 `prefix_of` h) (allocate o) (fun _ h => h0 `prefix_of` h)
         (fun h => h0 `prefix_of` h).
Proof. intros h Hpre. by apply prefix_app_r. Qed.

Lemma h_optimizeLoop_prefix (this : H_LoopOptimizer) (env : Env) (h0 : Heap)
      (animationData options : HValue) :
  triple (fun h => h0 `prefix_of` h)
         (h_optimizeLoop this env animationData options)
         (fun _ h => h0 `prefix_of` h) (fun h => h0 `prefix_of` h).
Proof.
  unfold h_optimizeLoop.
  eapply (triple_bind _ _ _ (fun _ h => h0 `prefix_of` h)).
  { destruct options; try (by apply triple_ret). apply allocate_prefix. }
  intros options'. destruct (negb _); [by intros h Hh|].
  eapply (triple_bind _ _ _ (fun _ h => h0 `prefix_of` h)).
  { intros h Hh. by apply prefix_app_r. }
  intros optimizationOptions.
  eapply (triple_bind _ _ _ (fun _ h => h0 `prefix_of` h)).
  { intros h Hh. unfold h_analyzeLoop. destruct (_ || _); [done|].
    destruct (h_snapshot h animationData); [|done].
    by destruct (_analyzeLoop _). }
  intros analysis.
  eapply (triple_bind _ _ _ (fun _ h => h0 `prefix_of` h)).
  { apply triple_prefix_trans. intros h1.
    eapply triple_consequence; [apply h_performLocalOptimizations_extends|..].
    - done.
    - by intros a h [[? _] _].
    - by intros h [? _]. }
  intros locallyOptimized.
  eapply (triple_bind _ _ _ (fun _ h => h0 `prefix_of` h)); [apply h_GetV_reads|].
  intros quality h Hh. by apply prefix_app_r.
Qed.

(** C5. The local transformer works on a copy: whatever the animation, the
    analysis and the options, every object of the store the call started in
    is unchanged when the call ends (normally or by an exception), so the
    caller's record denotes the same tree as before; the record it returns
    is a new object, and the objects created for it refer only to each
    other, apart from the [options] value stored under
    [metadata.optimizationOptions].  A whole [optimizeLoop] call leaves the
    store it started in unchanged as well. *)
Theorem original_record_untouched (env : Env) (h : Heap) (animationData : HValue) :
  (forall analysis options,
      let '(h', outcome) :=
        h_performLocalOptimizations env animationData analysis options h in
      h `prefix_of` h'
      /\ (forall l o, h !! l = Some o -> h' !! l = Some o)
      /\ (forall tree, h_snapshot h animationData = Some tree ->
                       h_snapshot h' animationData = Some tree)
      /\ (forall optimized, outcome = Normal optimized ->
            points_above (length h) optimized
            /\ region_closed_except (length h) options h'))
  /\ (forall this options,
      let '(h', outcome) := h_optimizeLoop this env animationData options h in
      h `prefix_of` h'
      /\ (forall l o, h !! l = Some o -> h' !! l = Some o)
      /\ (forall tree, h_snapshot h animationData = Some tree ->
                       h_snapshot h' animationData = Some tree)).
Proof.
  split.
  - intros analysis options.
    pose proof (h_performLocalOptimizations_extends env h animationData analysis
                  options h (extends_refl h (region_closed_start h))) as Hrun.
    destruct (h_performLocalOptimizations env animationData analysis options h)
      as [h' [optimized|e]].
    + destruct Hrun as [[Hpre Hclosed] Hfresh].
      split; [done|]. split; [intros l o Hl; by eapply prefix_lookup_Some|].
      split; [intros tree; by apply h_snapshot_prefix|].
      intros ? [= <-]. done.
    + destruct Hrun as [Hpre _].
      split; [done|]. split; [intros l o Hl; by eapply prefix_lookup_Some|].
      split; [intros tree; by apply h_snapshot_prefix|done].
  - intros this options.
    pose proof (h_optimizeLoop_prefix this env h animationData options h
                  (reflexivity h)) as Hrun.
    destruct (h_optimizeLoop this env animationData options h) as [h' [result|e]];
      (split; [done|]; split; [intros l o Hl; by eapply prefix_lookup_Some|];
       intros tree; by apply h_snapshot_prefix).
Qed.

(** ** Removing the repetitive frames, frame by frame *)

Lemma filter_ext_Forall {A} (P Q : A -> Prop)
      `{!forall x, Decision (P x)} `{!forall x, Decision (Q x)} (l : list A) :
  Forall (fun x => P x <-> Q x) l -> filter P l = filter Q l.
Proof.
  induction 1 as [|x l HPQ _ IH]; [done|].
  rewrite !filter_cons.
  destruct (decide (P x)), (decide (Q x)); try tauto; by f_equal.
Qed.

Lemma filter_fmap_pre {A B} (f : A -> B) (P : B -> Prop)
      `{!forall y, Decision (P y)} (l : list A) :
  filter P (f <$> l) = f <$> filter (fun x => P (f x)) l.
Proof.
  induction l as [|x l IH]; [done|].
  rewrite fmap_cons, !filter_cons.
  destruct (decide (P (f x))); [rewrite fmap_cons|]; by rewrite IH.
Qed.

(** The indices reported for [x :: y :: l] are [1], when [y] repeats [x],
    followed by those reported for [y :: l], each moved up by one. *)
Lemma repetitive_indices_cons (x y : JsValue) (l : list JsValue) :
  repetitive_indices (x :: y :: l)
  = (if decide (deep_equal y x) then [1] else [])
    ++ (S <$> repetitive_indices (y :: l)).
Proof.
  unfold repetitive_indices. cbn [length].
  replace (S (S (length l)) - 1) with (S (length l)) by lia.
  replace (S (length l) - 1) with (length l) by lia.
  cbn [seq]. rewrite filter_cons.
  assert (filter (fun i => deep_equal (at_index (x :: y :: l) i)
                                      (at_index (x :: y :: l) (i - 1)))
                 (seq 2 (length l))
          = S <$> filter (fun i => deep_equal (at_index (y :: l) i)
                                              (at_index (y :: l) (i - 1)))
                         (seq 1 (length l))) as ->.
  { rewrite <- (fmap_S_seq 1), filter_fmap_pre. f_equal.
    apply filter_ext_Forall, Forall_forall. intros i Hi.
    apply elem_of_seq in Hi. destruct i as [|i]; [lia|].
    replace (S (S i) - 1) with (S i) by lia. replace (S i - 1) with i by lia.
    reflexivity. }
  change (at_index (x :: y :: l) 1) with y.
  change (at_index (x :: y :: l) (1 - 1)) with x.
  by destruct (decide (deep_equal y x)).
Qed.

Lemma repetitive_indices_short (l : list JsValue) :
  length l <= 1 -> repetitive_indices l = [].
Proof.
  intros Hlen. unfold repetitive_indices.
  by replace (length l - 1) with 0 by lia.
Qed.

Lemma filter_by_index_ext {A} (keep keep' : nat -> bool) (start : nat)
      (frames : list A) :
  (forall i, start <= i -> keep i = keep' i) ->
  filter_by_index keep start frames = filter_by_index keep' start frames.
Proof.
  revert start. induction frames as [|frame rest IH]; intros start Hext; [done|].
  cbn [filter_by_index]. rewrite (Hext start) by lia.
  rewrite (IH (S start)) by (intros i Hi; apply Hext; lia). done.
Qed.

Lemma filter_by_index_shift {A} (keep : nat -> bool) (start : nat)
      (frames : list A) :
  filter_by_index keep (S start) frames
  = filter_by_index (fun i => keep (S i)) start frames.
Proof.
  revert start. induction frames as [|frame rest IH]; intros start; [done|].
  cbn [filter_by_index]. by rewrite IH.
Qed.

Lemma includes_false (repetitiveIndices : list nat) (i : nat) :
  i ∉ repetitiveIndices -> includes repetitiveIndices i = false.
Proof.
  intros Hnot. destruct (includes repetitiveIndices i) eqn:Hin; [|done].
  by apply includes_spec in Hin.
Qed.

Lemma includes_decide (repetitiveIndices : list nat) (i : nat) :
  includes repetitiveIndices i = bool_decide (i ∈ repetitiveIndices).
Proof.
  destruct (includes repetitiveIndices i) eqn:Hin; symmetry.
  - by apply bool_decide_eq_true, includes_spec.
  - apply bool_decide_eq_false. intros Hel. apply includes_spec in Hel. congruence.
Qed.

(** The first frame is never removed. *)
Lemma survivors_repetitive_head (x : JsValue) (l : list JsValue) :
  survivors (repetitive_indices (x :: l)) (x :: l)
  = x :: filter_by_index
           (fun i => negb (includes (repetitive_indices (x :: l)) i)) 1 l.
Proof.
  rewrite <- filter_excluding_survivors. cbn [filter_by_index].
  rewrite includes_false; [done|].
  intros Hin. apply elem_of_repetitive_indices in Hin. lia.
Qed.

(** Removing the repetitive frames of [x :: y :: l]: [x] stays, and the
    rest is what remains of [y :: l], without its head [y] when [y]
    repeats [x]. *)
Lemma survivors_repetitive_cons (x y : JsValue) (l : list JsValue) :
  survivors (repetitive_indices (x :: y :: l)) (x :: y :: l)
  = x :: (if decide (deep_equal y x)
          then tail (survivors (repetitive_indices (y :: l)) (y :: l))
          else survivors (repetitive_indices (y :: l)) (y :: l)).
Proof.
  rewrite (survivors_repetitive_head x), (survivors_repetitive_head y).
  f_equal. rewrite filter_by_index_shift. cbn [filter_by_index tail].
  assert (filter_by_index
            (fun i => negb (includes (repetitive_indices (x :: y :: l)) (S i))) 1 l
          = filter_by_index
              (fun i => negb (includes (repetitive_indices (y :: l)) i)) 1 l) as ->.
  { apply filter_by_index_ext. intros i Hi. f_equal.
    rewrite !includes_decide. apply bool_decide_ext.
    rewrite !elem_of_repetitive_indices. cbn [length].
    destruct i as [|i]; [lia|].
    replace (S (S i) - 1) with (S i) by lia.
    replace (S i - 1) with i by lia.
    change (at_index (x :: y :: l) (S (S i))) with (at_index (y :: l) (S i)).
    change (at_index (x :: y :: l) (S i)) with (at_index (y :: l) i).
    split; intros [? ?]; split; (lia || done). }
  rewrite includes_decide.
  assert (1 ∈ repetitive_indices (x :: y :: l) <-> deep_equal y x) as Hone.
  { rewrite elem_of_repetitive_indices. cbn [length].
    change (at_index (x :: y :: l) 1) with y.
    change (at_index (x :: y :: l) (1 - 1)) with x.
    split; [by intros [_ ?]|]. intros ?. split; [lia|done]. }
  destruct (decide (deep_equal y x)) as [Heq|Hne].
  - rewrite bool_decide_eq_true_2 by (by apply Hone). done.
  - rewrite bool_decide_eq_false_2 by (by rewrite Hone). done.
Qed.

(** After the removal no frame repeats its predecessor. *)
Lemma repetitive_indices_survivors (frames : list JsValue) :
  repetitive_indices (survivors (repetitive_indices frames) frames) = [].
Proof.
  induction frames as [|x l IH]; [done|].
  destruct l as [|y l].
  { rewrite survivors_repetitive_head. by apply repetitive_indices_short. }
  rewrite survivors_repetitive_cons.
  rewrite (survivors_repetitive_head y) in IH |- *. cbn [tail].
  set (T := filter_by_index _ 1 l) in *.
  destruct (decide (deep_equal y x)) as [Heq|Hne].
  - destruct T as [|z T']; [by apply repetitive_indices_short|].
    rewrite repetitive_indices_cons in IH |- *.
    apply app_eq_nil in IH as [Hzy ->].
    destruct (decide (deep_equal z y)) as [|Hzy']; [done|].
    destruct (decide (deep_equal z x)) as [Hzx|]; [|done].
    exfalso. apply Hzy'. unfold deep_equal in *. congruence.
  - rewrite repetitive_indices_cons, IH.
    by destruct (decide (deep_equal y x)).
Qed.

(** Each reported index removes exactly one frame. *)
Lemma length_survivors_repetitive (frames : list JsValue) :
  length (survivors (repetitive_indices frames) frames)
  + length (repetitive_indices frames) = length frames.
Proof.
  induction frames as [|x l IH]; [done|].
  destruct l as [|y l].
  { rewrite survivors_repetitive_head, repetitive_indices_short; cbn; lia. }
  rewrite survivors_repetitive_cons, repetitive_indices_cons.
  rewrite (survivors_repetitive_head y) in IH |- *. cbn [tail].
  rewrite length_app, length_fmap.
  destruct (decide (deep_equal y x)); cbn [length] in *; lia.
Qed.

(** Every frame has a deep-equal frame among those that remain. *)
Lemma survivors_repetitive_cover (frames : list JsValue) (frame : JsValue) :
  frame ∈ frames ->
  exists kept, kept ∈ survivors (repetitive_indices frames) frames
               /\ deep_equal frame kept.
Proof.
  revert frame. induction frames as [|x l IH]; intros frame Hin.
  { by apply elem_of_nil in Hin. }
  apply elem_of_cons in Hin as [->|Hin].
  { exists x. split; [|done]. rewrite survivors_repetitive_head. left. }
  destruct l as [|y l]; [by apply elem_of_nil in Hin|].
  destruct (IH frame Hin) as (kept & Hkept & Heq).
  rewrite survivors_repetitive_cons.
  rewrite (survivors_repetitive_head y) in Hkept |- *. cbn [tail].
  apply elem_of_cons in Hkept as [->|Hkept].
  - destruct (decide (deep_equal y x)) as [Hyx|].
    + exists x. split; [left|]. unfold deep_equal in *. congruence.
    + exists y. split; [right; left|done].
  - exists kept. split; [|done].
    destruct (decide (deep_equal y x)); right; [done|by right].
Qed.

Lemma survivors_nil {A} (frames : list A) : survivors [] frames = frames.
Proof.
  rewrite <- filter_excluding_survivors.
  generalize 0. induction frames as [|frame rest IH]; intros start; [done|].
  cbn. by rewrite IH.
Qed.

Lemma identifyRepetitiveFrames_or_empty (frames : JsValue) :
  _identifyRepetitiveFrames (js_or frames (JArr [] []))
  = repetitive_indices (elements frames).
Proof.
  unfold js_or.
  destruct frames as [| |b|n|s|elems extra|props]; cbn [ToBoolean elements];
    try apply identifyRepetitiveFrames_array; try done;
    match goal with
    | |- context [if ?c then _ else _] => by destruct c
    end.
Qed.

(** With compression enabled, the frames of the transformer's result are
    what is left of the input frames once the reported indices are
    removed. *)
Lemma elements_after_compression (env : Env) (animationData : JsValue)
      (analysis : AnalysisReport) (options : list (string * JsValue))
      (optimized : JsValue) :
  is_json animationData = true ->
  _analyzeLoop animationData = Normal analysis ->
  ToBoolean (Get (JObj options) "enableCompression") = true ->
  _performLocalOptimizations env animationData analysis (JObj options)
  = Normal optimized ->
  let frames := elements (Get animationData "frames") in
  repetitiveFrames analysis = repetitive_indices frames
  /\ elements (Get optimized "frames")
     = survivors (repetitive_indices frames) frames
  /\ Array_isArray (Get optimized "frames")
     = Array_isArray (Get animationData "frames").
Proof.
  intros Hjson Han Hon Hrun frames.
  destruct (analyzeLoop_Normal _ _ Han) as (Hobj & _ & _ & Hrep & _).
  assert (metadata_writable animationData = true) as Hmeta.
  { rewrite performLocalOptimizations_eq in Hrun by done.
    by destruct (metadata_writable animationData). }
  destruct (frames_after_local_optimizations env _ _ options Han Hmeta Hjson)
    as (optimized' & Hrun' & Hcompress & Hkeep & _).
  rewrite Hrun in Hrun'. injection Hrun' as <-.
  assert (repetitiveFrames analysis = repetitive_indices frames) as Hrep'.
  { rewrite Hrep. apply identifyRepetitiveFrames_or_empty. }
  split; [done|].
  destruct (repetitiveFrames analysis) as [|i rest] eqn:Hlist.
  - rewrite Hkeep by (by intros [? _]).
    rewrite <- Hrep', survivors_nil. done.
  - rewrite Hcompress by done. rewrite <- Hrep'. split; [done|].
    destruct (repetitive_nonempty_frames _ _ Han) as (elems & extra & -> & _);
      [by rewrite Hlist|done].
Qed.

(** ** The local transformer: what the removal achieves *)

(** X1 (loop_optimizer.js, [_performLocalOptimizations] with
    [_identifyRepetitiveFrames] and [_compressRepetitiveFrames]): on JSON
    data, with compression enabled, the frames of the transformer's result
    contain no frame that is deep-equal to its predecessor: analysing the
    result again reports no repetitive frame. *)
Theorem optimized_frames_do_not_repeat (env : Env) (animationData : JsValue)
        (analysis : AnalysisReport) (options : list (string * JsValue))
        (optimized : JsValue) :
  is_json animationData = true ->
  _analyzeLoop animationData = Normal analysis ->
  ToBoolean (Get (JObj options) "enableCompression") = true ->
  _performLocalOptimizations env animationData analysis (JObj options)
  = Normal optimized ->
  _identifyRepetitiveFrames (Get optimized "frames") = [].
Proof.
  intros Hjson Han Hon Hrun.
  destruct (elements_after_compression _ _ _ _ _ Hjson Han Hon Hrun)
    as (_ & Helems & _).
  destruct (Get optimized "frames") as [| |b|n|s|elems extra|props];
    try (by apply identifyRepetitiveFrames_not_array).
  rewrite identifyRepetitiveFrames_array. cbn [elements] in Helems.
  rewrite Helems. apply repetitive_indices_survivors.
Qed.

(** X2 (loop_optimizer.js, [_compressRepetitiveFrames] as called by
    [_performLocalOptimizations]): on JSON data, with compression enabled,
    the result has exactly one frame less per reported index, and it
    starts with the first input frame. *)
Theorem optimized_frame_count (env : Env) (animationData : JsValue)
        (analysis : AnalysisReport) (options : list (string * JsValue))
        (optimized : JsValue) :
  is_json animationData = true ->
  _analyzeLoop animationData = Normal analysis ->
  ToBoolean (Get (JObj options) "enableCompression") = true ->
  _performLocalOptimizations env animationData analysis (JObj options)
  = Normal optimized ->
  length (elements (Get optimized "frames")) + length (repetitiveFrames analysis)
  = length (elements (Get animationData "frames"))
  /\ head (elements (Get optimized "frames"))
     = head (elements (Get animationData "frames")).
Proof.
  intros Hjson Han Hon Hrun.
  destruct (elements_after_compression _ _ _ _ _ Hjson Han Hon Hrun)
    as (-> & -> & _).
  split; [apply length_survivors_repetitive|].
  destruct (elements (Get animationData "frames")) as [|x l]; [done|].
  by rewrite survivors_repetitive_head.
Qed.

(** X3 (loop_optimizer.js, [_compressRepetitiveFrames] as called by
    [_performLocalOptimizations]): on JSON data, with compression enabled,
    no frame content is lost: every input frame is deep-equal to a frame of
    the result. *)
Theorem optimized_frames_cover (env : Env) (animationData : JsValue)
        (analysis : AnalysisReport) (options : list (string * JsValue))
        (optimized : JsValue) (frame : JsValue) :
  is_json animationData = true ->
  _analyzeLoop animationData = Normal analysis ->
  ToBoolean (Get (JObj options) "enableCompression") = true ->
  _performLocalOptimizations env animationData analysis (JObj options)
  = Normal optimized ->
  frame ∈ elements (Get animationData "frames") ->
  exists kept, kept ∈ elements (Get optimized "frames")
               /\ deep_equal frame kept.
Proof.
  intros Hjson Han Hon Hrun Hin.
  destruct (elements_after_compression _ _ _ _ _ Hjson Han Hon Hrun)
    as (_ & -> & _).
  by apply survivors_repetitive_cover.
Qed.

(** ** Options: which value wins *)

Lemma lookup_prop_None {V} (k : string) (props : list (string * V)) :
  k ∉ props.*1 -> lookup_prop k props = None.
Proof.
  induction props as [|[k' v] rest IH]; intros Hnot; [done|].
  cbn [lookup_prop]. rewrite fmap_cons, not_elem_of_cons in Hnot.
  destruct Hnot as [Hne Hrest].
  destruct (String.eqb_spec k k') as [->|_]; [done|by apply IH].
Qed.

(** A property of [{...target, ...source}] is the source's when the source
    has it, and the target's otherwise. *)
Lemma lookup_spread (k : string) (target : list (string * JsValue))
      (source : JsValue) :
  NoDup (own_enumerable source).*1 ->
  lookup_prop k (spread target source)
  = match lookup_prop k (own_enumerable source) with
    | Some v => Some v
    | None => lookup_prop k target
    end.
Proof.
  unfold spread. generalize (own_enumerable source). intros props.
  revert target. induction props as [|[k' v] rest IH]; intros target Hnodup; [done|].
  rewrite fmap_cons in Hnodup. apply NoDup_cons in Hnodup as [Hnot Hnodup].
  cbn [fold_left lookup_prop fst snd]. rewrite IH by done.
  destruct (String.eqb_spec k k') as [->|Hne].
  - rewrite lookup_prop_None by done. apply lookup_set_prop_same.
  - destruct (lookup_prop k rest); [done|].
    apply lookup_set_prop_other. congruence.
Qed.

(** X4 (loop_optimizer.js, [constructor] and [optimizeLoop]): the options a
    call works with take each key from the call's options when they have
    it, else from the configuration given to the constructor, else from the
    defaults [quality: 8] and [enableCompression: true]. *)
Theorem options_precedence (settings options : JsValue) (k : string) :
  NoDup (own_enumerable settings).*1 ->
  NoDup (own_enumerable options).*1 ->
  Get (optimizationOptions (constructor settings) options) k
  = match lookup_prop k (own_enumerable options) with
    | Some v => v
    | None =>
        match lookup_prop k (own_enumerable settings) with
        | Some v => v
        | None => default JUndefined
                    (lookup_prop k [("quality", JNum (Number_of_Z 8));
                                    ("enableCompression", JBool true)])
        end
    end.
Proof.
  intros Hsettings Hoptions.
  unfold optimizationOptions, constructor. cbn [config Get].
  assert (NoDup [("quality", JNum (Number_of_Z 8));
                 ("enableCompression", JBool true)].*1) as Hdefaults.
  { cbn. apply NoDup_cons. split; [|apply NoDup_singleton].
    intros Hin. apply list_elem_of_singleton in Hin. discriminate. }
  rewrite spread_copy by (by apply NoDup_spread).
  assert (own_enumerable match options with
                         | JUndefined => JObj []
                         | _ => options
                         end = own_enumerable options) as Hown
    by (by destruct options).
  rewrite lookup_spread by (by rewrite Hown).
  rewrite Hown. destruct (lookup_prop k (own_enumerable options)); [done|].
  rewrite lookup_spread by done.
  by destruct (lookup_prop k (own_enumerable settings)).
Qed.

(** ** The whole call: how it ends *)

Lemma optimizeLoop_Normal_inv (this : LoopOptimizer) (env : Env)
      (animationData options result : JsValue) :
  optimizeLoop this env animationData options = Normal result ->
  exists analysis locallyOptimized,
    ToBoolean (isInitialized this) = true
    /\ _analyzeLoop animationData = Normal analysis
    /\ _performLocalOptimizations env animationData analysis
         (optimizationOptions this options) = Normal locallyOptimized
    /\ result
       = JObj (set_prop "timestamp" (JStr (timestamp env))
                (set_prop "sizeReduction"
                   (JStr (sizeReduction_text (random env)))
                  (set_prop "optimizationLevel"
                     (Get (optimizationOptions this options) "quality")
                    (set_prop "optimized" (JBool true)
                      (spread [] locallyOptimized))))).
Proof.
  unfold optimizeLoop. intros Hrun.
  destruct (ToBoolean (isInitialized this)); [|done]. cbn [negb] in Hrun.
  destruct (_analyzeLoop animationData) as [analysis|e]; [|done].
  rewrite bind_Normal in Hrun.
  destruct (_performLocalOptimizations env animationData analysis
              (optimizationOptions this options))
    as [locallyOptimized|e] eqn:Hlocal; [|done].
  rewrite bind_Normal in Hrun. injection Hrun as <-.
  exists analysis, locallyOptimized. do 2 (split; [reflexivity|]).
  split; [exact Hlocal|reflexivity].
Qed.

Lemma divide_outcome (v : JsValue) (d : Q) :
  (exists quotient, divide v d = Normal quotient) \/ divide v d = Throw TypeError.
Proof.
  unfold divide, ToNumber.
  destruct v; try (left; eexists; reflexivity);
    destruct (ToNumber_coerce _); (left; eexists; reflexivity) || by right.
Qed.

(** The analyzer throws nothing but its own error and [TypeError]. *)
Lemma analyzeLoop_Throw (animationData : JsValue) (e : Exception) :
  _analyzeLoop animationData = Throw e ->
  e = Error "Invalid animation data" \/ e = TypeError.
Proof.
  unfold _analyzeLoop.
  destruct (negb (ToBoolean animationData) || _); [left; congruence|].
  assert (forall duration : Completion JsValue,
            ((exists d, duration = Normal d) \/ duration = Throw TypeError) ->
            (let* duration := duration in
             let* estimatedOptimizationPotential :=
               _estimateOptimizationPotential animationData in
             Normal {| frameCount :=
                         Get (js_or (Get animationData "frames") (JArr [] []))
                             "length";
                       duration := duration;
                       repetitiveFrames :=
                         _identifyRepetitiveFrames
                           (js_or (Get animationData "frames") (JArr [] []));
                       redundantProperties :=
                         _identifyRedundantProperties animationData;
                       estimatedOptimizationPotential :=
                         estimatedOptimizationPotential |}) = Throw e ->
            e = Error "Invalid animation data" \/ e = TypeError) as Hrest.
  { intros duration [[d ->]| ->]; [|rewrite bind_Throw; right; congruence].
    rewrite bind_Normal. unfold _estimateOptimizationPotential.
    destruct (JSON_stringify animationData); [done|].
    rewrite bind_Throw. right. congruence. }
  destruct (ToBoolean (Get animationData "duration")).
  - apply Hrest. left. by eexists.
  - apply Hrest, divide_outcome.
Qed.

Lemma optimizeLoop_Throw_inv (this : LoopOptimizer) (env : Env)
      (animationData options : JsValue) (e : Exception) :
  optimizeLoop this env animationData options = Throw e ->
  (ToBoolean (isInitialized this) = false
   /\ e = Error "LoopOptimizer not properly initialized")
  \/ (ToBoolean (isInitialized this) = true
      /\ is_object animationData = false
      /\ e = Error "Invalid animation data")
  \/ (ToBoolean (isInitialized this) = true
      /\ is_object animationData = true
      /\ e = TypeError).
Proof.
  unfold optimizeLoop. intros Hrun.
  destruct (ToBoolean (isInitialized this)); cbn [negb] in Hrun;
    [|left; split; congruence].
  right.
  destruct (_analyzeLoop animationData) as [analysis|e'] eqn:Han.
  - rewrite bind_Normal in Hrun.
    destruct (analyzeLoop_Normal _ _ Han) as (Hobj & _).
    unfold optimizationOptions in Hrun.
    rewrite performLocalOptimizations_eq in Hrun by done.
    destruct (metadata_writable animationData); [done|].
    rewrite bind_Throw in Hrun. right. split; [done|]. split; congruence.
  - rewrite bind_Throw in Hrun. injection Hrun as <-.
    destruct (is_object animationData) eqn:Hobj.
    + right. split; [done|]. split; [done|].
      destruct (analyzeLoop_Throw _ _ Han) as [-> | ->]; [|done].
      apply analyzeLoop_Error in Han as [? _]. congruence.
    + left. split; [done|]. split; [done|].
      rewrite analyzeLoop_invalid in Han by done. congruence.
Qed.

(** X5 (loop_optimizer.js, [optimizeLoop]): a call is rejected with
    [Error("LoopOptimizer not properly initialized")] exactly when the
    instance's [isInitialized] is falsy, which never holds for an instance
    the constructor built; every rejection is that error, the analyzer's
    [Error("Invalid animation data")] for an argument that is not an
    object, or a [TypeError] for one that is. *)
Theorem optimizeLoop_rejections (this : LoopOptimizer) (env : Env)
        (animationData options : JsValue) :
  (optimizeLoop this env animationData options
   = Throw (Error "LoopOptimizer not properly initialized")
   <-> ToBoolean (isInitialized this) = false)
  /\ (forall settings,
        optimizeLoop (constructor settings) env animationData options
        <> Throw (Error "LoopOptimizer not properly initialized"))
  /\ (forall e,
        optimizeLoop this env animationData options = Throw e ->
        e = Error "LoopOptimizer not properly initialized"
        \/ (e = Error "Invalid animation data" /\ is_object animationData = false)
        \/ (e = TypeError /\ is_object animationData = true)).
Proof.
  split; [split|split].
  - intros Hrun.
    apply optimizeLoop_Throw_inv in Hrun as [[? _]|[(_ & _ & ?)|(_ & _ & ?)]];
      [done|discriminate|discriminate].
  - intros Hinit. unfold optimizeLoop. by rewrite Hinit.
  - intros settings Hrun.
    apply optimizeLoop_Throw_inv in Hrun as [[? _]|[(_ & _ & ?)|(_ & _ & ?)]];
      discriminate.
  - intros e Hrun.
    apply optimizeLoop_Throw_inv in Hrun
      as [[_ ->]|[(_ & ? & ->)|(_ & ? & ->)]]; auto.
Qed.

(** X6 (loop_optimizer.js, [optimizeLoop] with [_analyzeLoop] and
    [_performLocalOptimizations]): a call on a constructed optimizer
    resolves exactly when the analyzer returns a report and the metadata of
    the copy can take properties; when the analyzer returns and the
    metadata cannot, it is rejected with a [TypeError]. *)
Theorem optimizeLoop_resolves_iff (settings : JsValue) (env : Env)
        (animationData options : JsValue) :
  ((exists result,
       optimizeLoop (constructor settings) env animationData options
       = Normal result)
   <-> (exists analysis, _analyzeLoop animationData = Normal analysis)
       /\ metadata_writable animationData = true)
  /\ ((exists analysis, _analyzeLoop animationData = Normal analysis)
      /\ metadata_writable animationData = false ->
      optimizeLoop (constructor settings) env animationData options
      = Throw TypeError).
Proof.
  rewrite optimizeLoop_constructed.
  destruct (_analyzeLoop animationData) as [analysis|e].
  - destruct (metadata_writable animationData).
    + split; [|by intros [_ ?]].
      split; [intros _; split; [by exists analysis|done]|].
      intros _. by eexists.
    + split; [|done]. split; [by intros [? ?]|by intros [_ ?]].
  - split; [|by intros [[? ?] _]].
    split; [by intros [? ?]|by intros [[? ?] _]].
Qed.

(** ** The whole call: the record it resolves with *)

Lemma json_clone_keys (props : list (string * JsValue)) :
  exists props', json_clone (JObj props) = JObj props'
                 /\ sublist props'.*1 props.*1.
Proof.
  cbn [json_clone]. eexists. split; [reflexivity|].
  induction props as [|[k v] rest IH]; [done|].
  rewrite omap_cons, fmap_cons. cbn [fst snd].
  destruct v; try (rewrite fmap_cons; by apply sublist_skip);
    by apply sublist_cons.
Qed.

Lemma Get_set_prop_other (k k' : string) (v : JsValue)
      (props : list (string * JsValue)) :
  k <> k' -> Get (JObj (set_prop k v props)) k' = Get (JObj props) k'.
Proof. intros Hne. cbn [Get]. by rewrite lookup_set_prop_other. Qed.

Lemma Get_set_prop_same (k : string) (v : JsValue)
      (props : list (string * JsValue)) :
  Get (JObj (set_prop k v props)) k = v.
Proof. cbn [Get]. by rewrite lookup_set_prop_same. Qed.

(** X7 (loop_optimizer.js, [optimizeLoop]): the record a call resolves
    with is a plain object carrying [optimized: true], the effective
    [quality] as [optimizationLevel], the simulated [sizeReduction] and the
    call's [timestamp], whatever the input held under these four names;
    every other field of an input object except [frames] and [metadata] is
    passed on as a deep copy. *)
Theorem optimizeLoop_result (this : LoopOptimizer) (env : Env)
        (animationData options result : JsValue) :
  optimizeLoop this env animationData options = Normal result ->
  typeof result = "object" /\ Array_isArray result = false
  /\ Get result "optimized" = JBool true
  /\ Get result "optimizationLevel"
     = Get (optimizationOptions this options) "quality"
  /\ Get result "sizeReduction" = JStr (sizeReduction_text (random env))
  /\ Get result "timestamp" = JStr (timestamp env)
  /\ (forall props k,
        animationData = JObj props -> NoDup props.*1 ->
        k ∉ ["frames"; "metadata"; "optimized"; "optimizationLevel";
             "sizeReduction"; "timestamp"] ->
        Get result k = Get (json_clone animationData) k).
Proof.
  intros Hrun.
  apply optimizeLoop_Normal_inv in Hrun
    as (analysis & locallyOptimized & _ & Han & Hlocal & ->).
  split; [done|]. split; [done|].
  split.
  { rewrite !Get_set_prop_other by done. apply Get_set_prop_same. }
  split.
  { rewrite !Get_set_prop_other by done. apply Get_set_prop_same. }
  split.
  { rewrite !Get_set_prop_other by done. apply Get_set_prop_same. }
  split; [apply Get_set_prop_same|].
  intros props k -> Hnodup Hk.
  repeat (apply not_elem_of_cons in Hk as [? Hk]).
  rewrite !Get_set_prop_other by done.
  unfold optimizationOptions in Hlocal.
  rewrite performLocalOptimizations_eq in Hlocal by done.
  destruct (metadata_writable (JObj props)); [|done].
  injection Hlocal as <-.
  destruct (json_clone_keys props) as (props' & Hclone & Hsub).
  assert (NoDup props'.*1) as Hnodup' by (by eapply sublist_NoDup).
  unfold after_frames. rewrite Hclone.
  match goal with
  | |- context [if ?c then _ else _] => destruct c
  end; cbn [assign].
  - rewrite spread_copy by (by do 2 apply NoDup_set_prop).
    by rewrite !Get_set_prop_other.
  - rewrite spread_copy by (by apply NoDup_set_prop).
    by rewrite !Get_set_prop_other.
Qed.

(** ** The simulated size reduction *)

Lemma digits2_pos_lower (p : positive) :
  (2 ^ (Z.pos (digits2_pos p) - 1) <= Z.pos p)%Z.
Proof.
  induction p as [p IH|p IH|]; cbn [digits2_pos]; [| |done].
  - rewrite Pos2Z.inj_succ.
    replace (Z.succ (Z.pos (digits2_pos p)) - 1)%Z
      with (Z.succ (Z.pos (digits2_pos p) - 1))%Z by lia.
    rewrite Z.pow_succ_r by lia. lia.
  - rewrite Pos2Z.inj_succ.
    replace (Z.succ (Z.pos (digits2_pos p)) - 1)%Z
      with (Z.succ (Z.pos (digits2_pos p) - 1))%Z by lia.
    rewrite Z.pow_succ_r by lia. lia.
Qed.

Lemma digits2_pos_upper (p : positive) :
  (Z.pos p < 2 ^ Z.pos (digits2_pos p))%Z.
Proof.
  induction p as [p IH|p IH|]; cbn [digits2_pos]; [| |done].
  - rewrite Pos2Z.inj_succ, Z.pow_succ_r by lia. lia.
  - rewrite Pos2Z.inj_succ, Z.pow_succ_r by lia. lia.
Qed.

Lemma shr_1_spec (mrs : shr_record) :
  (0 <= shr_m mrs)%Z ->
  (0 <= shr_m (shr_1 mrs))%Z
  /\ (2 * shr_m (shr_1 mrs) + bit (shr_r (shr_1 mrs)) = shr_m mrs)%Z.
Proof.
  destruct mrs as [m r s]. cbn [shr_m]. intros Hm.
  destruct m as [|[p|p|]|p]; cbn; lia.
Qed.

Lemma bit_range (b : bool) : (0 <= bit b <= 1)%Z.
Proof. destruct b; cbn; lia. Qed.

Lemma iter_shr_1_spec (p : positive) :
  forall mrs,
    (0 <= shr_m mrs)%Z ->
    (0 <= shr_m (SpecFloat.iter_pos shr_1 p mrs))%Z
    /\ (2 ^ Z.pos p * (2 * shr_m (SpecFloat.iter_pos shr_1 p mrs)
                       + bit (shr_r (SpecFloat.iter_pos shr_1 p mrs)))
        <= 2 * shr_m mrs)%Z.
Proof.
  induction p as [p IH|p IH|]; intros mrs Hm; cbn [SpecFloat.iter_pos].
  - destruct (shr_1_spec mrs Hm) as [H0 H1].
    pose proof (bit_range (shr_r (shr_1 mrs))) as Hr0.
    set (x1 := shr_1 mrs) in *.
    destruct (IH x1 H0) as [H2 H3].
    pose proof (bit_range (shr_r (SpecFloat.iter_pos shr_1 p x1))) as Hr1.
    set (x2 := SpecFloat.iter_pos shr_1 p x1) in *.
    destruct (IH x2 H2) as [H4 H5].
    pose proof (bit_range (shr_r (SpecFloat.iter_pos shr_1 p x2))) as Hr2.
    set (x3 := SpecFloat.iter_pos shr_1 p x2) in *.
    split; [done|].
    replace (Z.pos p~1) with (Z.pos p + Z.pos p + 1)%Z by lia.
    rewrite !Z.pow_add_r by lia. rewrite Z.pow_1_r.
    assert (0 < 2 ^ Z.pos p)%Z as HP by (apply Z.pow_pos_nonneg; lia).
    revert H1 H3 H5 HP Hr0 Hr1 Hr2 H0 H2 H4.
    generalize (2 ^ Z.pos p)%Z (shr_m x1) (shr_m x2) (shr_m x3) (shr_m mrs)
               (bit (shr_r x1)) (bit (shr_r x2)) (bit (shr_r x3)).
    intros P m1 m2 m3 m0 r1 r2 r3 H1 H3 H5 HP Hr0 Hr1 Hr2 H0 H2 H4.
    assert (P * (2 * m2) <= P * (2 * m2 + r2))%Z by nia.
    assert (P * (P * (2 * m3 + r3)) <= P * (2 * m2))%Z by nia.
    nia.
  - destruct (IH mrs Hm) as [H2 H3].
    pose proof (bit_range (shr_r (SpecFloat.iter_pos shr_1 p mrs))) as Hr1.
    set (x2 := SpecFloat.iter_pos shr_1 p mrs) in *.
    destruct (IH x2 H2) as [H4 H5].
    pose proof (bit_range (shr_r (SpecFloat.iter_pos shr_1 p x2))) as Hr2.
    set (x3 := SpecFloat.iter_pos shr_1 p x2) in *.
    split; [done|].
    replace (Z.pos p~0) with (Z.pos p + Z.pos p)%Z by lia.
    rewrite !Z.pow_add_r by lia.
    assert (0 < 2 ^ Z.pos p)%Z as HP by (apply Z.pow_pos_nonneg; lia).
    revert H3 H5 HP Hr1 Hr2 H2 H4.
    generalize (2 ^ Z.pos p)%Z (shr_m x2) (shr_m x3) (shr_m mrs)
               (bit (shr_r x2)) (bit (shr_r x3)).
    intros P m2 m3 m0 r2 r3 H3 H5 HP Hr1 Hr2 H2 H4.
    assert (P * (2 * m2) <= P * (2 * m2 + r2))%Z by nia.
    assert (P * (P * (2 * m3 + r3)) <= P * (2 * m2))%Z by nia.
    nia.
  - destruct (shr_1_spec mrs Hm) as [H0 H1]. split; [done|].
    change (2 ^ 1)%Z with 2%Z. lia.
Qed.

(** Shifting [m] (with no bits pending) by [n] places. *)
Lemma shr_exact_spec (m e n : Z) :
  (0 <= m)%Z ->
  exists k mrs',
    shr (shr_record_of_loc m loc_Exact) e n = (mrs', (e + k)%Z)
    /\ k = Z.max 0 n
    /\ (0 <= shr_m mrs')%Z
    /\ (2 ^ k * (2 * shr_m mrs' + bit (shr_r mrs')) <= 2 * m)%Z.
Proof.
  intros Hm. unfold shr, shr_record_of_loc.
  destruct n as [|p|p].
  - exists 0%Z, (Build_shr_record m false false).
    rewrite Z.add_0_r. cbn.
    split; [reflexivity|]. split; [lia|]. split; lia.
  - destruct (iter_shr_1_spec p (Build_shr_record m false false) Hm) as [H0 H1].
    exists (Z.pos p), (SpecFloat.iter_pos shr_1 p (Build_shr_record m false false)).
    split; [reflexivity|]. split; [lia|]. by split.
  - exists 0%Z, (Build_shr_record m false false).
    rewrite Z.add_0_r. cbn.
    split; [reflexivity|]. split; [lia|]. split; lia.
Qed.

Lemma round_nearest_even_bound (mrs : shr_record) :
  (shr_m mrs <= round_nearest_even (shr_m mrs) (loc_of_shr_record mrs)
   <= shr_m mrs + bit (shr_r mrs))%Z.
Proof.
  destruct mrs as [m [|] [|]]; cbn; try lia.
  destruct (Z.even m); lia.
Qed.

(** Rounding a positive integer [M] scaled by [2 ^ E] to binary64: the
    result is at most half a unit of the first shift above [M]. *)
Lemma binary_round_aux_upper (M E : Z) :
  (0 <= M)%Z ->
  exists K m3,
    (0 <= K)%Z /\ (0 <= m3)%Z
    /\ (2 ^ (K + 1) * m3
        <= 2 * M + 2 ^ Z.max 0 (fexp 53 1024 (Zdigits2 M + E) - E))%Z
    /\ binary_round_aux 53 1024 false M E loc_Exact
       = match m3 with
         | Z0 => S754_zero false
         | Zpos m => if (E + K <=? 1024 - 53)%Z
                     then S754_finite false m (E + K)
                     else S754_infinity false
         | Zneg _ => S754_nan
         end.
Proof.
  intros HM. unfold binary_round_aux, shr_fexp.
  destruct (shr_exact_spec M E (fexp 53 1024 (Zdigits2 M + E) - E) HM)
    as (k1 & mrs1 & -> & Hk1 & Hm1 & Hb1).
  pose proof (round_nearest_even_bound mrs1) as [Hlow Hhigh].
  pose proof (bit_range (shr_r mrs1)) as Hr1.
  set (m2 := round_nearest_even (shr_m mrs1) (loc_of_shr_record mrs1)) in *.
  assert (0 <= m2)%Z as Hm2 by lia.
  destruct (shr_exact_spec m2 (E + k1)
              (fexp 53 1024 (Zdigits2 m2 + (E + k1)) - (E + k1)) Hm2)
    as (k2 & mrs2 & -> & Hk2 & Hm3 & Hb2).
  pose proof (bit_range (shr_r mrs2)) as Hr2.
  exists (k1 + k2)%Z, (shr_m mrs2).
  split; [lia|]. split; [done|]. split.
  - rewrite <- Hk1.
    replace (k1 + k2 + 1)%Z with (k1 + (k2 + 1))%Z by lia.
    rewrite Z.pow_add_r by lia. rewrite Z.pow_add_r by lia.
    rewrite Z.pow_1_r.
    assert (0 < 2 ^ k1)%Z as HP1 by (apply Z.pow_pos_nonneg; lia).
    assert (0 < 2 ^ k2)%Z as HP2 by (apply Z.pow_pos_nonneg; lia).
    revert Hb1 Hb2 HP1 HP2 Hr1 Hr2 Hhigh Hm1 Hm2 Hm3.
    generalize (2 ^ k1)%Z (2 ^ k2)%Z (shr_m mrs1) (shr_m mrs2)
               (bit (shr_r mrs1)) (bit (shr_r mrs2)).
    intros P1 P2 a1 a3 r1 r3 Hb1 Hb2 HP1 HP2 Hr1 Hr2 Hhigh Hm1 Hm2 Hm3.
    assert (P2 * (2 * a3) <= 2 * m2)%Z by nia.
    assert (P1 * (2 * m2) <= P1 * (2 * a1 + r1) + P1 * r1)%Z by nia.
    assert (P1 * (P2 * (2 * a3)) <= P1 * (2 * m2))%Z by nia.
    nia.
  - by rewrite Z.add_assoc.
Qed.

(** The product of a double below 1 with 30, rounded to binary64, is below
    30: its floor is one of 0, ..., 29. *)
Lemma draw_product (m : positive) (e : Z) :
  (Z.pos m < 2 ^ 53)%Z -> (e <= -53)%Z ->
  exists n,
    (0 <= n <= 29)%Z
    /\ double_floor (SFmul 53 1024 (S754_finite false m e) (double_of_Z 30))
       = Some n
    /\ Math_floor (SFmul 53 1024 (S754_finite false m e) (double_of_Z 30))
       = double_of_Z n.
Proof.
  intros Hm He.
  change (double_of_Z 30) with (S754_finite false 8444249301319680 (-48)).
  cbn [SFmul xorb].
  set (M := Z.pos (m * 8444249301319680)).
  set (E := (e + -48)%Z).
  assert (M = Z.pos m * (30 * 2 ^ 48))%Z as HM by (subst M; lia).
  destruct (binary_round_aux_upper M E) as (K & m3 & HK & Hm3 & Hbound & ->);
    [lia|].
  (* the first shift *)
  set (k1 := Z.max 0 (fexp 53 1024 (Zdigits2 M + E) - E)) in *.
  assert (Zdigits2 M <= 106)%Z as Hdigits.
  { subst M. cbn [Zdigits2].
    pose proof (digits2_pos_lower (m * 8444249301319680)) as Hlow.
    destruct (Z_le_gt_dec (Z.pos (digits2_pos (m * 8444249301319680))) 106)
      as [|Hgt]; [done|].
    assert (2 ^ 106 <= 2 ^ (Z.pos (digits2_pos (m * 8444249301319680)) - 1))%Z
      by (apply Z.pow_le_mono_r; lia).
    assert (Z.pos (m * 8444249301319680) < 2 ^ 106)%Z; [|lia].
    rewrite Pos2Z.inj_mul.
    change (2 ^ 106)%Z with (2 ^ 53 * 2 ^ 53)%Z.
    assert (8444249301319680 < 2 ^ 53)%Z by done. nia. }
  assert (0 <= k1 /\ (k1 <= 53 \/ k1 <= -1026 - e))%Z as [Hk1 Hk1'].
  { subst k1 E. unfold fexp, emin. lia. }
  set (X := (2 ^ (- e))%Z).
  assert (2 ^ 53 <= X)%Z as HX by (apply Z.pow_le_mono_r; lia).
  assert (2 ^ k1 <= X)%Z as Hshift.
  { destruct Hk1' as [Hk|Hk].
    - etrans; [|exact HX]. apply Z.pow_le_mono_r; lia.
    - apply Z.pow_le_mono_r; lia. }
  assert (2 ^ (- E) = 2 ^ 48 * X)%Z as HF.
  { subst E X. replace (- (e + -48))%Z with (48 + - e)%Z by lia.
    rewrite Z.pow_add_r by lia. done. }
  assert (2 ^ (K + 1) * m3 < 2 * (30 * 2 ^ (- E)))%Z as Hlt.
  { rewrite HF. eapply Z.le_lt_trans; [exact Hbound|]. rewrite HM.
    revert Hm HX Hshift. generalize (2 ^ k1)%Z X (Z.pos m).
    intros T Y mm Hm HX HT.
    change (2 ^ 53)%Z with 9007199254740992%Z in *.
    change (2 ^ 48)%Z with 281474976710656%Z. lia. }
  rewrite Z.pow_add_r, Z.pow_1_r in Hlt by lia.
  assert (2 ^ K * m3 < 30 * 2 ^ (- E))%Z as Hvalue by lia.
  clear Hlt Hbound.
  assert (0 < - E)%Z as HE by (subst E; lia).
  destruct m3 as [|mm|mm]; [|clear Hm3|lia].
  { exists 0%Z. split; [lia|]. by split. }
  assert (0 < 2 ^ K)%Z as HPK by (apply Z.pow_pos_nonneg; lia).
  assert (0 < 2 ^ (- E))%Z as HPE by (apply Z.pow_pos_nonneg; lia).
  assert (E + K < 5)%Z as Hsmall.
  { assert (2 ^ K < 2 ^ (- E + 5))%Z as Hpow.
    { rewrite Z.pow_add_r by lia. change (2 ^ 5)%Z with 32%Z. nia. }
    apply Z.pow_lt_mono_r_iff in Hpow; lia. }
  rewrite (proj2 (Z.leb_le _ _)) by lia.
  cbn [double_floor Math_floor].
  eexists. split; [|split; reflexivity].
  destruct (Z.leb_spec 0 (E + K)) as [Hnonneg|Hneg].
  - assert (2 ^ K = 2 ^ (E + K) * 2 ^ (- E))%Z as HKsplit.
    { rewrite <- Z.pow_add_r by lia. f_equal. lia. }
    assert (0 < 2 ^ (E + K))%Z by (apply Z.pow_pos_nonneg; lia).
    rewrite HKsplit in Hvalue. nia.
  - assert (2 ^ (- E) = 2 ^ K * 2 ^ (- (E + K)))%Z as HEsplit.
    { rewrite <- Z.pow_add_r by lia. f_equal. lia. }
    assert (0 < 2 ^ (- (E + K)))%Z by (apply Z.pow_pos_nonneg; lia).
    rewrite HEsplit in Hvalue.
    assert (Z.pos mm < 30 * 2 ^ (- (E + K)))%Z as Hmm by nia.
    split; [apply Z.div_pos; lia|].
    assert (Z.pos mm / 2 ^ (- (E + K)) < 30)%Z; [|lia].
    apply Z.div_lt_upper_bound; lia.
Qed.

Lemma is_draw_finite (s : bool) (m : positive) (e : Z) :
  is_draw (S754_finite s m e) = true ->
  s = false /\ (Z.pos m < 2 ^ 53)%Z /\ (e <= -53)%Z.
Proof.
  unfold is_draw. intros Hdraw.
  apply andb_prop in Hdraw as [Hdraw Hbelow].
  apply andb_prop in Hdraw as [Hvalid Hsign].
  cbn [valid_binary] in Hvalid. unfold bounded in Hvalid.
  apply andb_prop in Hvalid as [Hcanonical _].
  unfold canonical_mantissa, fexp, emin in Hcanonical.
  apply Z.eqb_eq in Hcanonical.
  pose proof (digits2_pos_upper m) as Hupper.
  pose proof (digits2_pos_lower m) as Hlower.
  destruct s; [done|]. split; [done|].
  assert (Z.pos (digits2_pos m) <= 53)%Z as Hdigits by lia.
  split.
  { eapply Z.lt_le_trans; [exact Hupper|]. apply Z.pow_le_mono_r; lia. }
  assert (double_of_Z 1 = S754_finite false 4503599627370496 (-52)) as Hone
    by (by vm_compute).
  rewrite Hone in Hbelow.
  unfold SFltb in Hbelow. cbn [SFcompare] in Hbelow.
  destruct (Z.compare_spec e (-52)) as [->|Hlt|Hgt]; [|lia|done].
  exfalso.
  assert (Z.pos (digits2_pos m) = 53)%Z as Heq by lia.
  rewrite Heq in Hlower.
  assert (2 ^ (53 - 1) = 4503599627370496)%Z as Hpow by (by vm_compute).
  rewrite Hpow in Hlower.
  destruct (Pos.compare_cont Eq m 4503599627370496) eqn:Hcmp; try done.
  rewrite Pos.compare_cont_spec in Hcmp.
  assert (forall c, Pos.switch_Eq Eq c = Lt -> c = Lt) as Hswitch
    by (by intros []).
  apply Hswitch in Hcmp. clear Hswitch. rename Hcmp into Hless.
  apply Pos.compare_lt_iff, Pos2Z.pos_lt_pos in Hless.
  clear -Hless Hlower.
  exact (Z.lt_irrefl _ (Z.le_lt_trans _ _ _ Hlower Hless)).
Qed.

Lemma percent_text (n : Z) :
  (0 <= n <= 29)%Z ->
  double_toString (SFadd 53 1024 (double_of_Z n) (double_of_Z 10))
  = string_of_Z (n + 10).
Proof.
  intros Hn.
  assert (forallb (fun k => String.eqb
                              (double_toString
                                 (SFadd 53 1024 (double_of_Z (Z.of_nat k))
                                        (double_of_Z 10)))
                              (string_of_Z (Z.of_nat k + 10)))
                  (seq 0 30) = true) as Hall by (by vm_compute).
  rewrite forallb_forall in Hall.
  specialize (Hall (Z.to_nat n)). rewrite Z2Nat.id in Hall by lia.
  apply String.eqb_eq, Hall, in_seq. lia.
Qed.

(** For every draw the field is the decimal text of an integer between 10
    and 39, followed by a percent sign. *)
Lemma sizeReduction_text_draw (random : spec_float) :
  is_draw random = true ->
  exists percent : Z,
    (10 <= percent <= 39)%Z
    /\ double_floor (SFmul 53 1024 random (double_of_Z 30)) = Some (percent - 10)%Z
    /\ sizeReduction_text random = string_of_Z percent +:+ "%".
Proof.
  intros Hdraw. unfold sizeReduction_text.
  destruct random as [s|s| |s m e].
  - exists 10%Z. split; [lia|]. split; [done|]. by destruct s.
  - by destruct s.
  - done.
  - apply is_draw_finite in Hdraw as (-> & Hm & He).
    destruct (draw_product m e Hm He) as (n & Hn & Hfloor & ->).
    exists (n + 10)%Z. split; [lia|]. split.
    + rewrite Hfloor. f_equal. lia.
    + by rewrite percent_text.
Qed.

(** X8 (loop_optimizer.js, [optimizeLoop], line 79): when [Math.random()]
    yields a binary64 number [r] with [0 <= r < 1], the [sizeReduction] of
    the result is the decimal text of an integer between 10 and 39 followed
    by a percent sign; the integer is 10 more than the floor of the
    binary64 product of [r] and 30, and does not depend on the animation. *)
Theorem sizeReduction_range (this : LoopOptimizer) (env : Env)
        (animationData options result : JsValue) :
  is_draw (random env) = true ->
  optimizeLoop this env animationData options = Normal result ->
  exists percent : Z,
    (10 <= percent <= 39)%Z
    /\ double_floor (SFmul 53 1024 (random env) (double_of_Z 30))
       = Some (percent - 10)%Z
    /\ Get result "sizeReduction" = JStr (string_of_Z percent +:+ "%").
Proof.
  intros Hdraw Hrun.
  apply optimizeLoop_Normal_inv in Hrun as (? & ? & _ & _ & _ & ->).
  destruct (sizeReduction_text_draw _ Hdraw) as (percent & Hrange & Hfloor & Htext).
  exists percent. split; [done|]. split; [done|].
  rewrite Get_set_prop_other by done. rewrite Get_set_prop_same.
  by rewrite Htext.
Qed.

(** ** The local transformer: metadata *)

Lemma is_object_metadata_after (env : Env) (metadata options : JsValue) :
  is_object (metadata_after env metadata options)
  = is_object (js_or metadata (JObj [])).
Proof. unfold metadata_after. by rewrite !is_object_assign. Qed.

(** X9 (loop_optimizer.js, [_performLocalOptimizations], lines 186-189):
    the [metadata] of the transformer's result is an object holding
    [optimized: true], the date of the call and the options the call worked
    with; every other property is the one the copy's metadata had, or
    [undefined] when the copy had no (or a falsy) metadata. *)
Theorem metadata_of_result (env : Env) (animationData : JsValue)
        (analysis : AnalysisReport) (options : list (string * JsValue))
        (optimized : JsValue) :
  _analyzeLoop animationData = Normal analysis ->
  _performLocalOptimizations env animationData analysis (JObj options)
  = Normal optimized ->
  let before := js_or (Get (json_clone animationData) "metadata") (JObj []) in
  let metadata := Get optimized "metadata" in
  is_object metadata = true
  /\ Get metadata "optimized" = JBool true
  /\ Get metadata "optimizationDate" = JStr (optimizationDate env)
  /\ Get metadata "optimizationOptions" = JObj options
  /\ (forall k, k ∉ ["optimized"; "optimizationDate"; "optimizationOptions"] ->
                Get metadata k = Get before k).
Proof.
  intros Han Hrun before metadata.
  destruct (analyzeLoop_Normal _ _ Han) as (Hobj & _).
  rewrite performLocalOptimizations_eq in Hrun by done.
  destruct (metadata_writable animationData) eqn:Hwritable; [|done].
  injection Hrun as <-.
  assert (is_object before = true) as Hbefore.
  { subst before. unfold metadata_writable in Hwritable. unfold js_or.
    destruct (ToBoolean (Get (json_clone animationData) "metadata")); [|done].
    by cbn [negb orb] in Hwritable. }
  assert (metadata
          = metadata_after env (Get (json_clone animationData) "metadata")
                           (JObj options)) as ->.
  { subst metadata. apply Get_assign_same; [|done].
    unfold after_frames.
    destruct (compresses _ _); rewrite ?is_object_assign;
      by rewrite is_object_json_clone. }
  split; [by rewrite is_object_metadata_after|].
  unfold metadata_after. fold before.
  split.
  { rewrite !Get_assign_other by done. by apply Get_assign_same. }
  split.
  { rewrite Get_assign_other by done.
    apply Get_assign_same; [by rewrite is_object_assign|done]. }
  split.
  { apply Get_assign_same; [by rewrite !is_object_assign|done]. }
  intros k Hk. repeat (apply not_elem_of_cons in Hk as [? Hk]).
  by rewrite !Get_assign_other.
Qed.

(** ** The analyzer: when it returns *)

Lemma stringify_object (v : JsValue) :
  is_object v = true -> exists text, JSON_stringify v = Some text.
Proof. destruct v; try done; intros _; cbn [JSON_stringify]; by eexists. Qed.

(** X10 (loop_optimizer.js, [_analyzeLoop], [_identifyRedundantProperties]
    and [_estimateOptimizationPotential]): the analyzer returns a report for
    every object whose [duration] is truthy or whose [frames] is an array
    or falsy; the report never lists a redundant property, its performance
    potential is always [medium], and its size estimate is never
    negative. *)
Theorem analyzeLoop_returns (animationData : JsValue) :
  is_object animationData = true ->
  ToBoolean (Get animationData "duration") = true
  \/ Array_isArray (Get animationData "frames") = true
  \/ ToBoolean (Get animationData "frames") = false ->
  exists analysis,
    _analyzeLoop animationData = Normal analysis
    /\ redundantProperties analysis = []
    /\ performanceImprovementPotential (estimatedOptimizationPotential analysis)
       = "medium"
    /\ (0 <= estimatedSizeReduction (estimatedOptimizationPotential analysis))%Z.
Proof.
  intros Hobj Hcase.
  assert (exists duration,
            (if ToBoolean (Get animationData "duration")
             then Normal (Get animationData "duration")
             else divide (Get (js_or (Get animationData "frames") (JArr [] []))
                              "length") 30)
            = Normal duration) as [duration Hduration].
  { destruct (ToBoolean (Get animationData "duration")); [by eexists|].
    destruct Hcase as [?|[Harray|Hfalsy]]; [done| |].
    - destruct (Get animationData "frames"); try done. by eexists.
    - unfold js_or. rewrite Hfalsy. by eexists. }
  destruct (stringify_object _ Hobj) as [text Htext].
  unfold _analyzeLoop, _estimateOptimizationPotential.
  assert (negb (ToBoolean animationData)
          || negb (String.eqb (typeof animationData) "object") = false) as ->
    by (by destruct animationData).
  rewrite Hduration, Htext, !bind_Normal.
  eexists. split; [reflexivity|]. cbn.
  split; [done|]. split; [done|].
  apply Z.div_pos; lia.
Qed.

(** ** Removing frames by index: any list of indices *)

Lemma filter_by_index_within {A} (keep keep' : nat -> bool) (start : nat)
      (frames : list A) :
  (forall i, start <= i < start + length frames -> keep i = keep' i) ->
  filter_by_index keep start frames = filter_by_index keep' start frames.
Proof.
  revert start. induction frames as [|frame rest IH]; intros start Hext; [done|].
  cbn [filter_by_index length] in *. rewrite (Hext start) by lia.
  rewrite (IH (S start)) by (intros i Hi; apply Hext; lia). done.
Qed.

(** X11 (loop_optimizer.js, [_compressRepetitiveFrames]): for every value
    and every list of indices, in any order, with repetitions or beyond the
    end, the frames of the result are the frames at the positions that are
    not listed, in their order; a value that is not an array is returned as
    it is, and indices beyond the end remove nothing. *)
Theorem compressRepetitiveFrames_any_indices (frames : JsValue)
        (repetitiveIndices : list nat) :
  elements (_compressRepetitiveFrames frames repetitiveIndices)
  = survivors repetitiveIndices (elements frames)
  /\ (forall frame,
        frame ∈ elements (_compressRepetitiveFrames frames repetitiveIndices)
        <-> exists i, (i ∉ repetitiveIndices) /\ elements frames !! i = Some frame)
  /\ length (elements (_compressRepetitiveFrames frames repetitiveIndices))
     <= length (elements frames)
  /\ (Array_isArray frames = false ->
      _compressRepetitiveFrames frames repetitiveIndices = frames)
  /\ (Forall (fun i => length (elements frames) <= i) repetitiveIndices ->
      elements (_compressRepetitiveFrames frames repetitiveIndices)
      = elements frames).
Proof.
  assert (elements (_compressRepetitiveFrames frames repetitiveIndices)
          = survivors repetitiveIndices (elements frames)) as Helems.
  { unfold _compressRepetitiveFrames.
    destruct frames as [| |b|n|s|elems extra|props]; try done.
    cbn [Array_isArray negb orb elements].
    destruct elems as [|frame rest]; [done|].
    destruct repetitiveIndices as [|i others]; [by rewrite survivors_nil|].
    cbn [length Nat.eqb orb elements]. apply filter_excluding_survivors. }
  split; [done|]. rewrite Helems.
  split; [intros frame; apply elem_of_survivors|].
  split; [apply sublist_length, survivors_sublist|].
  split.
  { intros Harray. unfold _compressRepetitiveFrames. by rewrite Harray. }
  intros Hbeyond. rewrite <- filter_excluding_survivors.
  rewrite (filter_by_index_within _ (fun i => negb (includes [] i))).
  { by rewrite filter_excluding_survivors, survivors_nil. }
  intros i Hi. cbn [includes existsb negb]. rewrite includes_false; [done|].
  intros Hin. rewrite Forall_forall in Hbeyond. apply Hbeyond in Hin. lia.
Qed.

(** ** The deep copy is JSON data *)

Lemma is_json_json_clone (v : JsValue) :
  v <> JUndefined -> is_json (json_clone v) = true.
Proof.
  induction v as [| |b|n|s|elems extra IHelems _|props IHprops]
    using JsValue_induction; intros Hdefined; try done.
  - by destruct n.
  - cbn [json_clone is_json]. rewrite andb_true_r. clear Hdefined.
    induction IHelems as [|x elems Hx _ IH]; [done|].
    cbn [map forallb]. rewrite IH, andb_true_r.
    destruct x; try done; by apply Hx.
  - cbn [json_clone is_json]. clear Hdefined.
    induction IHprops as [|[k x] props Hx _ IH]; [done|].
    rewrite omap_cons. cbn [fst snd] in *.
    destruct x; try done; cbn [forallb snd]; rewrite IH, andb_true_r;
      by apply Hx.
Qed.

(** X12 (loop_optimizer.js, [_performLocalOptimizations], line 175): the
    deep copy the transformer works on exists for every value but
    [undefined]; it is JSON data, deep-equal to the original, an object or
    array exactly when the original is, and copying it again changes
    nothing. *)
Theorem deep_copy_normal_form (v : JsValue) :
  (JSON_parse_stringify v = Throw SyntaxError <-> v = JUndefined)
  /\ (forall copy,
        JSON_parse_stringify v = Normal copy ->
        is_json copy = true
        /\ deep_equal copy v
        /\ is_object copy = is_object v
        /\ Array_isArray copy = Array_isArray v
        /\ JSON_parse_stringify copy = Normal copy).
Proof.
  split.
  - by destruct v.
  - intros copy Hcopy.
    assert (v <> JUndefined /\ copy = json_clone v) as [Hdefined ->].
    { unfold JSON_parse_stringify in Hcopy.
      destruct v; try done; cbv beta iota in Hcopy; split; congruence. }
    pose proof (is_json_json_clone v Hdefined) as Hjson.
    split; [done|]. split; [apply stringify_json_clone|].
    split; [apply is_object_json_clone|].
    split; [by destruct v as [| |b|[q| |]|s|elems extra|props]|].
    rewrite <- (json_clone_id _ Hjson) at 2.
    destruct (json_clone v); try done.
Qed.

(** ** The whole call: the frames of the result *)

Lemma performLocalOptimizations_object (env : Env)
      (props : list (string * JsValue)) (analysis : AnalysisReport)
      (options : list (string * JsValue)) (optimized : JsValue) :
  NoDup props.*1 ->
  _performLocalOptimizations env (JObj props) analysis (JObj options)
  = Normal optimized ->
  exists props', optimized = JObj props' /\ NoDup props'.*1.
Proof.
  intros Hnodup Hrun.
  rewrite performLocalOptimizations_eq in Hrun by done.
  destruct (metadata_writable (JObj props)); [|done].
  injection Hrun as <-.
  destruct (json_clone_keys props) as (copy & Hclone & Hsub).
  assert (NoDup copy.*1) as Hcopy by (by eapply sublist_NoDup).
  unfold after_frames. rewrite Hclone.
  destruct (compresses _ _); cbn [assign]; eexists; (split; [reflexivity|]).
  - by do 2 apply NoDup_set_prop.
  - by apply NoDup_set_prop.
Qed.

(** The object literal that [optimizeLoop] resolves with takes [frames] and
    [metadata] from the transformer's result. *)
Lemma optimizeLoop_frames_of_result (this : LoopOptimizer) (env : Env)
      (props : list (string * JsValue)) (options result : JsValue) :
  NoDup props.*1 ->
  optimizeLoop this env (JObj props) options = Normal result ->
  exists analysis locallyOptimized,
    _analyzeLoop (JObj props) = Normal analysis
    /\ _performLocalOptimizations env (JObj props) analysis
         (optimizationOptions this options) = Normal locallyOptimized
    /\ Get result "frames" = Get locallyOptimized "frames"
    /\ Get result "metadata" = Get locallyOptimized "metadata".
Proof.
  intros Hnodup Hrun.
  apply optimizeLoop_Normal_inv in Hrun
    as (analysis & locallyOptimized & _ & Han & Hlocal & ->).
  exists analysis, locallyOptimized. split; [done|]. split; [done|].
  unfold optimizationOptions in Hlocal.
  destruct (performLocalOptimizations_object _ _ _ _ _ Hnodup Hlocal)
    as (props' & -> & Hnodup').
  rewrite spread_copy by done.
  by rewrite !Get_set_prop_other.
Qed.

(** X13 (loop_optimizer.js, [optimizeLoop] with [_analyzeLoop],
    [_performLocalOptimizations] and [_compressRepetitiveFrames]): when the
    effective [enableCompression] is truthy, the record a call resolves
    with for a JSON object has frames among which none is deep-equal to its
    predecessor; they are a subsequence of the input frames, one shorter
    per reported index, and every input frame is deep-equal to one of
    them. *)
Theorem optimizeLoop_removes_repetition (this : LoopOptimizer) (env : Env)
        (props : list (string * JsValue)) (options result : JsValue) :
  NoDup props.*1 ->
  is_json (JObj props) = true ->
  ToBoolean (Get (optimizationOptions this options) "enableCompression") = true ->
  optimizeLoop this env (JObj props) options = Normal result ->
  let frames := elements (Get (JObj props) "frames") in
  _identifyRepetitiveFrames (Get result "frames") = []
  /\ sublist (elements (Get result "frames")) frames
  /\ length (elements (Get result "frames"))
     + length (repetitive_indices frames) = length frames
  /\ (forall frame, frame ∈ frames ->
        exists kept, kept ∈ elements (Get result "frames")
                     /\ deep_equal frame kept).
Proof.
  intros Hnodup Hjson Hon Hrun frames.
  destruct (optimizeLoop_frames_of_result _ _ _ _ _ Hnodup Hrun)
    as (analysis & locallyOptimized & Han & Hlocal & -> & _).
  unfold optimizationOptions in Hlocal, Hon.
  destruct (elements_after_compression _ _ _ _ _ Hjson Han Hon Hlocal)
    as (_ & Helems & _).
  fold frames in Helems.
  split.
  { destruct (Get locallyOptimized "frames") as [| |b|n|s|elems extra|others];
      try (by apply identifyRepetitiveFrames_not_array).
    rewrite identifyRepetitiveFrames_array. cbn [elements] in Helems.
    rewrite Helems. apply repetitive_indices_survivors. }
  rewrite Helems.
  split; [apply survivors_sublist|].
  split; [apply length_survivors_repetitive|].
  intros frame. apply survivors_repetitive_cover.
Qed.

(** ** Default options, end to end *)

(** The options object the transformer was given is the one it records. *)
Lemma optimizationOptions_in_metadata (env : Env) (animationData : JsValue)
      (analysis : AnalysisReport) (options : list (string * JsValue))
      (optimized : JsValue) :
  _analyzeLoop animationData = Normal analysis ->
  _performLocalOptimizations env animationData analysis (JObj options)
  = Normal optimized ->
  Get (Get optimized "metadata") "optimizationOptions" = JObj options.
Proof.
  intros Han Hrun.
  destruct (analyzeLoop_Normal _ _ Han) as (Hobj & _).
  rewrite performLocalOptimizations_eq in Hrun by done.
  destruct (metadata_writable animationData) eqn:Hwritable; [|done].
  injection Hrun as <-.
  rewrite Get_assign_same; [| |done].
  - unfold metadata_after. apply Get_assign_same; [|done].
    rewrite !is_object_assign. unfold metadata_writable in Hwritable.
    unfold js_or.
    destruct (ToBoolean (Get (json_clone animationData) "metadata")); [|done].
    by cbn [negb orb] in Hwritable.
  - unfold after_frames.
    destruct (compresses _ _); rewrite ?is_object_assign;
      by rewrite is_object_json_clone.
Qed.

(** C10. Let the optimizer be constructed with a configuration that has
    neither [quality] nor [enableCompression] (no configuration at all is
    one).  Then the effective options of a call whose own options omit these
    keys (a call without options is one) have [quality = 8] and
    [enableCompression = true].  Such a call resolves whenever the analyzer
    accepts the record and its metadata can take properties, and only then;
    the record it resolves with has [optimizationLevel = 8]; its frames and
    metadata are those of the local transformer run with the effective
    options, which the metadata records; and for a JSON object the frames
    of the result are the input frames without the repetitive ones, none of
    which repeats its predecessor. *)
Theorem default_options (settings : JsValue) :
  omits_defaults settings ->
  let this := constructor settings in
  (forall options, omits_defaults options ->
      Get (optimizationOptions this options) "quality" = JNum (Number_of_Z 8)
      /\ Get (optimizationOptions this options) "enableCompression" = JBool true)
  /\ (forall env animationData analysis options,
      omits_defaults options ->
      _analyzeLoop animationData = Normal analysis ->
      metadata_writable animationData = true ->
      exists result locallyOptimized,
        optimizeLoop this env animationData options = Normal result
        /\ Get result "optimizationLevel" = JNum (Number_of_Z 8)
        /\ _performLocalOptimizations env animationData analysis
             (optimizationOptions this options) = Normal locallyOptimized
        /\ Get (Get locallyOptimized "metadata") "optimizationOptions"
           = optimizationOptions this options
        /\ (is_json animationData = true -> repetitiveFrames analysis <> [] ->
            Get locallyOptimized "frames"
            = JArr (survivors (repetitiveFrames analysis)
                              (elements (Get animationData "frames"))) [])
        /\ (forall props, animationData = JObj props -> NoDup props.*1 ->
            Get result "frames" = Get locallyOptimized "frames"
            /\ Get result "metadata" = Get locallyOptimized "metadata"
            /\ (is_json animationData = true -> repetitiveFrames analysis <> [] ->
                Get result "frames"
                = JArr (survivors (repetitiveFrames analysis)
                                  (elements (Get animationData "frames"))) []
                /\ _identifyRepetitiveFrames (Get result "frames") = [])))
  /\ (forall env animationData options result,
      omits_defaults options ->
      optimizeLoop this env animationData options = Normal result ->
      Get result "optimizationLevel" = JNum (Number_of_Z 8)
      /\ (exists analysis, _analyzeLoop animationData = Normal analysis)
      /\ metadata_writable animationData = true).
Proof.
  intros [Hq Hc]. cbv zeta.
  assert (forall options, omits_defaults options ->
      Get (optimizationOptions (constructor settings) options) "quality"
      = JNum (Number_of_Z 8)
      /\ Get (optimizationOptions (constructor settings) options) "enableCompression"
         = JBool true) as Hdefaults.
  { intros options [Hq' Hc']. by rewrite !optimizationOptions_defaults. }
  assert (forall env animationData options result,
      omits_defaults options ->
      optimizeLoop (constructor settings) env animationData options
      = Normal result ->
      Get result "optimizationLevel" = JNum (Number_of_Z 8)) as Hlevel.
  { intros env animationData options result Homits Hrun.
    apply optimizeLoop_Normal_inv in Hrun as (? & ? & _ & _ & _ & ->).
    rewrite !Get_set_prop_other by done. rewrite Get_set_prop_same.
    by apply Hdefaults. }
  split; [done|]. split.
  - intros env animationData analysis options Homits Han Hmeta.
    destruct (Hdefaults options Homits) as [_ Henable].
    assert (exists result,
               optimizeLoop (constructor settings) env animationData options
               = Normal result) as [result Hrun].
    { rewrite optimizeLoop_constructed, Han, Hmeta. by eexists. }
    destruct (optimizeLoop_Normal_inv _ _ _ _ _ Hrun)
      as (analysis' & locallyOptimized & _ & Han' & Hlocal & _).
    rewrite Han in Han'. injection Han' as <-.
    exists result, locallyOptimized.
    split; [done|]. split; [by eapply Hlevel|]. split; [done|].
    assert (exists oprops,
               optimizationOptions (constructor settings) options = JObj oprops)
      as [oprops Hopts] by (by eexists).
    rewrite Hopts in *.
    assert (is_json animationData = true -> repetitiveFrames analysis <> [] ->
            Get locallyOptimized "frames"
            = JArr (survivors (repetitiveFrames analysis)
                              (elements (Get animationData "frames"))) [])
      as Hremoved.
    { intros Hjson Hne.
      destruct (frames_after_local_optimizations env animationData analysis
                  oprops Han Hmeta Hjson) as (optimized & Hrun' & Hremoved & _).
      rewrite Hlocal in Hrun'. injection Hrun' as <-.
      apply Hremoved. split; [done|]. by rewrite Henable. }
    split; [by eapply optimizationOptions_in_metadata|].
    split; [done|].
    intros props -> Hnodup.
    destruct (optimizeLoop_frames_of_result _ _ _ _ _ Hnodup Hrun)
      as (analysis' & locallyOptimized' & Han' & Hlocal' & Hframes & Hmetadata).
    rewrite Han in Han'. injection Han' as <-.
    rewrite Hopts, Hlocal in Hlocal'. injection Hlocal' as <-.
    split; [done|]. split; [done|].
    intros Hjson Hne. rewrite Hframes, Hremoved by done.
    split; [done|].
    rewrite identifyRepetitiveFrames_array.
    destruct (analyzeLoop_Normal _ _ Han) as (_ & _ & _ & Hrep & _).
    rewrite identifyRepetitiveFrames_or_empty in Hrep. rewrite Hrep.
    apply repetitive_indices_survivors.
  - intros env animationData options result Homits Hrun.
    split; [by eapply Hlevel|].
    rewrite optimizeLoop_constructed in Hrun.
    destruct (_analyzeLoop animationData) as [analysis|e]; [|done].
    split; [by eexists|].
    by destruct (metadata_writable animationData).
Qed.

(** ** The web server *)

Lemma absent_or_present (v : JsValue) :
  absent v \/ (v <> JUndefined /\ v <> JNull).
Proof. unfold absent. destruct v; auto. Qed.

Lemma post_api_optimize_absent (env : Env) (req_body : JsValue) :
  absent req_body ->
  post_api_optimize env req_body
  = {| status := 500;
       body := JObj [("success", JBool false);
                     ("error", JStr (error_message TypeError))] |}.
Proof. by intros [-> | ->]. Qed.

Lemma post_api_optimize_present (env : Env) (req_body : JsValue) :
  req_body <> JUndefined -> req_body <> JNull ->
  post_api_optimize env req_body
  = let animationData := Get req_body "animationData" in
    if negb (ToBoolean animationData)
    then {| status := 400;
            body := JObj [("error", JStr "Animation data is required")] |}
    else
      match optimizeLoop optimizer env animationData (Get req_body "options") with
      | Normal optimized =>
          {| status := 200;
             body := JObj [("success", JBool true); ("data", optimized)] |}
      | Throw error =>
          {| status := 500;
             body := JObj [("success", JBool false);
                           ("error", JStr (error_message error))] |}
      end.
Proof.
  intros Hundefined Hnull. unfold post_api_optimize.
  assert (forall k, GetV req_body k = Normal (Get req_body k)) as HGet
    by (by destruct req_body).
  rewrite !HGet, !bind_Normal. cbv zeta.
  destruct (ToBoolean (Get req_body "animationData")); cbn [negb]; [|done].
  by destruct (optimizeLoop optimizer env _ _).
Qed.

(** X14 (server.js, the handler of [POST /api/optimize]): the handler
    answers 200, 400 or 500.  It answers 400, with
    [{error: "Animation data is required"}], exactly when the request body
    is an object whose [animationData] is missing or falsy; it answers 200
    exactly when the analyzer returns a report for [animationData] and the
    metadata of its copy can take properties. *)
Theorem post_api_optimize_status (env : Env) (req_body : JsValue) :
  let response := post_api_optimize env req_body in
  let animationData := Get req_body "animationData" in
  let present := req_body <> JUndefined /\ req_body <> JNull in
  (status response = 200 \/ status response = 400 \/ status response = 500)
  /\ (status response = 400
      <-> present /\ ToBoolean animationData = false)
  /\ (status response = 400 ->
      body response = JObj [("error", JStr "Animation data is required")])
  /\ (status response = 200
      <-> present
          /\ (exists analysis, _analyzeLoop animationData = Normal analysis)
          /\ metadata_writable animationData = true).
Proof.
  cbv zeta.
  destruct (absent_or_present req_body) as [Habsent|[Hundefined Hnull]].
  { rewrite post_api_optimize_absent by done. cbn [status body].
    unfold absent in Habsent. split; [auto|].
    split; [split; [done|intros [[? ?] _]; tauto]|].
    split; [done|]. split; [done|]. intros [[? ?] _]. tauto. }
  assert (req_body <> JUndefined /\ req_body <> JNull) as Hboth by tauto.
  rewrite post_api_optimize_present by done. cbv zeta.
  destruct (ToBoolean (Get req_body "animationData")) eqn:Htruthy; cbn [negb].
  - unfold optimizer. rewrite optimizeLoop_constructed.
    destruct (_analyzeLoop (Get req_body "animationData")) as [analysis|e].
    + destruct (metadata_writable (Get req_body "animationData"));
        cbn [status body].
      * split; [auto|]. split; [split; [done|by intros [_ ?]]|].
        split; [done|]. split; [intros _|done].
        split; [done|]. split; [by eexists|done].
      * split; [auto|]. split; [split; [done|by intros [_ ?]]|].
        split; [done|]. split; [done|]. by intros (_ & _ & ?).
    + cbn [status body]. split; [auto|].
      split; [split; [done|by intros [_ ?]]|].
      split; [done|]. split; [done|]. by intros (_ & [? ?] & _).
  - cbn [status body]. split; [auto|]. split; [done|]. split; [done|].
    split; [done|]. intros (_ & [analysis Han] & _).
    apply analyzeLoop_Normal in Han as (Hobj & _).
    destruct (Get req_body "animationData"); done.
Qed.

(** X15 (server.js, the handler of [POST /api/optimize]): an
    [animationData] that is truthy but not an object (a number, a string,
    [true]) is answered with 500 and the analyzer's message, not with 400;
    every 500 answer carries that message or the engine's text for a
    [TypeError], never the message of an optimizer that is not
    initialized. *)
Theorem post_api_optimize_failure (env : Env) (req_body : JsValue) :
  let response := post_api_optimize env req_body in
  let animationData := Get req_body "animationData" in
  (req_body <> JUndefined -> req_body <> JNull ->
   ToBoolean animationData = true -> is_object animationData = false ->
   response = {| status := 500;
                 body := JObj [("success", JBool false);
                               ("error", JStr "Invalid animation data")] |})
  /\ (status response = 500 ->
      exists text,
        body response = JObj [("success", JBool false); ("error", JStr text)]
        /\ (text = "Invalid animation data"
            \/ text = engine_message TypeError)).
Proof.
  cbv zeta.
  destruct (absent_or_present req_body) as [Habsent|[Hundefined Hnull]].
  { rewrite post_api_optimize_absent by done. unfold absent in Habsent.
    split; [intros; tauto|]. intros _. eexists. split; [reflexivity|by right]. }
  rewrite post_api_optimize_present by done. cbv zeta. split.
  - intros _ _ -> Hprimitive. cbn [negb].
    unfold optimizer. rewrite optimizeLoop_constructed.
    by rewrite analyzeLoop_invalid.
  - destruct (ToBoolean (Get req_body "animationData")); cbn [negb]; [|done].
    destruct (optimizeLoop optimizer env _ _) as [optimized|e] eqn:Hrun; [done|].
    intros _. eexists. split; [reflexivity|].
    apply optimizeLoop_Throw_inv in Hrun
      as [[Hinit _]|[(_ & _ & ->)|(_ & _ & ->)]]; [done|by left|by right].
Qed.

(** X16 (server.js, the handler of [POST /api/optimize]): a 200 answer
    carries [success: true] and the optimizer's record as [data]; its
    [optimizationLevel] is the [quality] of the request's [options] when
    they have one, and the server's 8 otherwise. *)
Theorem post_api_optimize_success (env : Env) (req_body : JsValue) :
  let response := post_api_optimize env req_body in
  let options := Get req_body "options" in
  status response = 200 ->
  exists data,
    body response = JObj [("success", JBool true); ("data", data)]
    /\ optimizeLoop optimizer env (Get req_body "animationData") options
       = Normal data
    /\ Get data "optimized" = JBool true
    /\ (NoDup (own_enumerable options).*1 ->
        Get data "optimizationLevel"
        = default (JNum (Number_of_Z 8))
                  (lookup_prop "quality" (own_enumerable options))).
Proof.
  cbv zeta.
  destruct (absent_or_present req_body) as [Habsent|[Hundefined Hnull]].
  { by rewrite post_api_optimize_absent. }
  rewrite post_api_optimize_present by done. cbv zeta.
  destruct (ToBoolean (Get req_body "animationData")); cbn [negb]; [|done].
  destruct (optimizeLoop optimizer env _ _) as [data|e] eqn:Hrun; [|done].
  intros _. exists data. split; [done|]. split; [done|].
  apply optimizeLoop_Normal_inv in Hrun as (? & ? & _ & _ & _ & ->).
  split.
  { rewrite !Get_set_prop_other by done. apply Get_set_prop_same. }
  intros Hnodup.
  rewrite !Get_set_prop_other by done. rewrite Get_set_prop_same.
  unfold optimizationOptions, optimizer, constructor. cbn [config Get].
  assert (own_enumerable match Get req_body "options" with
                         | JUndefined => JObj []
                         | _ => Get req_body "options"
                         end = own_enumerable (Get req_body "options")) as Hown
    by (by destruct (Get req_body "options")).
  rewrite lookup_spread by (by rewrite Hown). rewrite Hown.
  by destruct (lookup_prop "quality" (own_enumerable (Get req_body "options"))).
Qed.

(** X17 (server.js, the handler of [POST /api/optimize], with
    loop_optimizer.js): the server removes repetition unless the request
    turns it off.  For a request whose [animationData] is a JSON object
    and whose [options] have no [enableCompression], a 200 answer carries
    frames among which none is deep-equal to its predecessor, a
    subsequence of the frames sent. *)
Theorem post_api_optimize_removes_repetition (env : Env) (req_body : JsValue)
        (props : list (string * JsValue)) :
  let response := post_api_optimize env req_body in
  Get req_body "animationData" = JObj props ->
  NoDup props.*1 ->
  is_json (JObj props) = true ->
  lookup_prop "enableCompression" (own_enumerable (Get req_body "options")) = None ->
  status response = 200 ->
  exists data,
    body response = JObj [("success", JBool true); ("data", data)]
    /\ _identifyRepetitiveFrames (Get data "frames") = []
    /\ sublist (elements (Get data "frames"))
               (elements (Get (JObj props) "frames")).
Proof.
  cbv zeta. intros Hdata Hnodup Hjson Hoptions.
  destruct (absent_or_present req_body) as [Habsent|[Hundefined Hnull]].
  { by rewrite post_api_optimize_absent. }
  rewrite post_api_optimize_present by done. cbv zeta. rewrite Hdata.
  cbn [ToBoolean negb].
  destruct (optimizeLoop optimizer env _ _) as [data|e] eqn:Hrun; [|done].
  intros _. exists data. split; [done|].
  assert (ToBoolean (Get (optimizationOptions optimizer (Get req_body "options"))
                         "enableCompression") = true) as Hon.
  { unfold optimizationOptions, optimizer, constructor. cbn [config Get].
    rewrite lookup_spread_omitted by (by destruct (Get req_body "options")).
    reflexivity. }
  destruct (optimizeLoop_frames_of_result _ _ _ _ _ Hnodup Hrun)
    as (analysis & locallyOptimized & Han & Hlocal & -> & _).
  unfold optimizationOptions in Hlocal, Hon.
  destruct (elements_after_compression _ _ _ _ _ Hjson Han Hon Hlocal)
    as (_ & Helems & _).
  split.
  { destruct (Get locallyOptimized "frames") as [| |b|n|s|elems extra|others];
      try (by apply identifyRepetitiveFrames_not_array).
    rewrite identifyRepetitiveFrames_array. cbn [elements] in Helems.
    rewrite Helems. apply repetitive_indices_survivors. }
  rewrite Helems. apply survivors_sublist.
Qed.

(** ** The record a call resolves with is a new object *)

Lemma triple_any_failure {A} (P : Heap -> Prop) (m : HeapM A)
      (Q : A -> Heap -> Prop) (E : Heap -> Prop) :
  triple P m Q E -> triple P m Q (fun _ => True).
Proof. intros Hm. eapply triple_consequence; [exact Hm|auto..]. Qed.

(** X18 (loop_optimizer.js, [optimizeLoop], lines 75-81): on the store,
    the record a call resolves with is an object the call created: it is
    none of the objects that existed before the call, in particular neither
    the animation nor the options passed in, and it is a plain object
    holding [optimized: true] and the call's [timestamp]. *)
Theorem h_optimizeLoop_result_is_new (this : H_LoopOptimizer) (env : Env)
        (h : Heap) (animationData options : HValue) :
  match h_optimizeLoop this env animationData options h with
  | (h', Normal result) =>
      exists l props,
        result = HRef l
        /\ length h <= l
        /\ h' !! l = Some (HObj props)
        /\ lookup_prop "optimized" props = Some (HBool true)
        /\ lookup_prop "timestamp" props = Some (HStr (timestamp env))
        /\ (forall l0, l0 < length h -> result <> HRef l0)
  | (_, Throw _) => True
  end.
Proof.
  assert (triple (fun h1 => h `prefix_of` h1)
                 (h_optimizeLoop this env animationData options)
                 (fun result h' =>
                    exists l props,
                      result = HRef l
                      /\ length h <= l
                      /\ h' !! l = Some (HObj props)
                      /\ lookup_prop "optimized" props = Some (HBool true)
                      /\ lookup_prop "timestamp" props
                         = Some (HStr (timestamp env))
                      /\ (forall l0, l0 < length h -> result <> HRef l0))
                 (fun _ => True)) as Hcall.
  { unfold h_optimizeLoop.
    eapply (triple_bind _ _ _ (fun _ h1 => h `prefix_of` h1)).
    { destruct options; try (by apply triple_ret).
      eapply triple_any_failure, allocate_prefix. }
    intros options'. destruct (negb _); [by intros h1 Hh1|].
    eapply (triple_bind _ _ _ (fun _ h1 => h `prefix_of` h1)).
    { intros h1 Hh1. by apply prefix_app_r. }
    intros optimizationOptions.
    eapply (triple_bind _ _ _ (fun _ h1 => h `prefix_of` h1)).
    { intros h1 Hh1. unfold h_analyzeLoop. destruct (_ || _); [done|].
      destruct (h_snapshot h1 animationData); [|done].
      by destruct (_analyzeLoop _). }
    intros analysis.
    eapply (triple_bind _ _ _ (fun _ h1 => h `prefix_of` h1)).
    { eapply triple_any_failure, triple_prefix_trans. intros h1.
      eapply triple_consequence; [apply h_performLocalOptimizations_extends|..].
      - done.
      - by intros a h2 [[? _] _].
      - by intros h2 [? _]. }
    intros locallyOptimized.
    eapply (triple_bind _ _ _ (fun _ h1 => h `prefix_of` h1)).
    { eapply triple_any_failure, h_GetV_reads. }
    intros quality h1 Hh1. cbn [allocate].
    apply prefix_length in Hh1.
    eexists (length h1), _. split; [reflexivity|]. split; [done|].
    split; [by apply list_lookup_middle|].
    split.
    { rewrite !lookup_set_prop_other by done. apply lookup_set_prop_same. }
    split; [apply lookup_set_prop_same|].
    intros l0 Hl0 [= Heq]. lia. }
  specialize (Hcall h (reflexivity h)).
  by destruct (h_optimizeLoop this env animationData options h) as [h' [result|e]].
Qed.

End Runtime.

(** ** Examples *)

Lemma performLocalOptimizations_frames_witness :
  _analyzeLoop integer_toString coerce_NaN animation_AAAB = Normal analysis_AAAB
  /\ (metadata_writable animation_AAAB = false ->
      _performLocalOptimizations env_example animation_AAAB analysis_AAAB
                                 (JObj options_on) = Throw TypeError)
  /\ (metadata_writable animation_AAAB = true ->
      exists optimized,
        _performLocalOptimizations env_example animation_AAAB analysis_AAAB
                                   (JObj options_on) = Normal optimized
        /\ (repetitiveFrames analysis_AAAB <> []
            /\ ToBoolean (Get (JObj options_on) "enableCompression") = true ->
            Get optimized "frames"
            = JArr (survivors (repetitiveFrames analysis_AAAB)
                              (elements (Get (json_clone animation_AAAB) "frames")))
                   [])
        /\ (~ (repetitiveFrames analysis_AAAB <> []
               /\ ToBoolean (Get (JObj options_on) "enableCompression") = true) ->
            Get optimized "frames" = Get (json_clone animation_AAAB) "frames")
        /\ (is_json animation_AAAB = true ->
            (repetitiveFrames analysis_AAAB <> []
             /\ ToBoolean (Get (JObj options_on) "enableCompression") = true ->
             Get optimized "frames"
             = JArr (survivors (repetitiveFrames analysis_AAAB)
                               (elements (Get animation_AAAB "frames"))) [])
            /\ (~ (repetitiveFrames analysis_AAAB <> []
                   /\ ToBoolean (Get (JObj options_on) "enableCompression") = true) ->
                Get optimized "frames" = Get animation_AAAB "frames")
            /\ sublist (elements (Get optimized "frames"))
                       (elements (Get animation_AAAB "frames")))).
Proof.
  split; [reflexivity|].
  apply (performLocalOptimizations_frames integer_toString coerce_NaN).
  reflexivity.
Defined.

Lemma performLocalOptimizations_without_compression_witness :
  ToBoolean (Get (JObj options_off) "enableCompression") = false
  /\ (is_object animation_AAAB = false ->
      exists e,
        _performLocalOptimizations env_example animation_AAAB analysis_AAAB
                                   (JObj options_off) = Throw e)
  /\ (is_object animation_AAAB = true ->
      metadata_writable animation_AAAB = false ->
      _performLocalOptimizations env_example animation_AAAB analysis_AAAB
                                 (JObj options_off) = Throw TypeError)
  /\ (is_object animation_AAAB = true ->
      metadata_writable animation_AAAB = true ->
      exists optimized,
        _performLocalOptimizations env_example animation_AAAB analysis_AAAB
                                   (JObj options_off) = Normal optimized
        /\ Get optimized "frames" = Get (json_clone animation_AAAB) "frames"
        /\ (is_json animation_AAAB = true ->
            Get optimized "frames" = Get animation_AAAB "frames")
        /\ (forall props, animation_AAAB = JObj props -> NoDup props.*1 ->
            deep_equal integer_toString (Get optimized "frames")
                       (Get animation_AAAB "frames"))
        /\ (forall k, k <> "metadata" ->
            Get optimized k = Get (json_clone animation_AAAB) k)).
Proof.
  split; [reflexivity|].
  apply (performLocalOptimizations_without_compression integer_toString).
  reflexivity.
Defined.

Lemma estimateOptimizationPotential_by_length_witness :
  _analyzeLoop integer_toString coerce_NaN animation_AAAB = Normal analysis_AAAB
  /\ exists text,
      JSON_stringify integer_toString animation_AAAB = Some text
      /\ let s := Z.of_nat (String.length text) in
         let potential := estimatedOptimizationPotential analysis_AAAB in
         estimatedSizeReduction potential = Qfloor (inject_Z s * (3 # 10))
         /\ estimatedSizeReduction potential = (3 * s / 10)%Z
         /\ (sizeReductionPotential potential = "high" <-> (10000 < s)%Z)
         /\ (sizeReductionPotential potential = "medium" <-> (1000 < s <= 10000)%Z)
         /\ (sizeReductionPotential potential = "low" <-> (s <= 1000)%Z)
         /\ (ascii_only text = true -> Z.of_nat (utf8_size text) = s).
Proof.
  split; [reflexivity|].
  apply (estimateOptimizationPotential_by_length integer_toString coerce_NaN).
  reflexivity.
Defined.

Lemma default_options_witness :
  omits_defaults JUndefined
  /\ let this := constructor JUndefined in
     (forall options, omits_defaults options ->
         Get (optimizationOptions this options) "quality" = JNum (Number_of_Z 8)
         /\ Get (optimizationOptions this options) "enableCompression" = JBool true)
     /\ (forall env animationData analysis options,
         omits_defaults options ->
         _analyzeLoop integer_toString coerce_NaN animationData = Normal analysis ->
         metadata_writable animationData = true ->
         exists result locallyOptimized,
           optimizeLoop integer_toString coerce_NaN this env animationData options
           = Normal result
           /\ Get result "optimizationLevel" = JNum (Number_of_Z 8)
           /\ _performLocalOptimizations env animationData analysis
                (optimizationOptions this options) = Normal locallyOptimized
           /\ Get (Get locallyOptimized "metadata") "optimizationOptions"
              = optimizationOptions this options
           /\ (is_json animationData = true -> repetitiveFrames analysis <> [] ->
               Get locallyOptimized "frames"
               = JArr (survivors (repetitiveFrames analysis)
                                 (elements (Get animationData "frames"))) [])
           /\ (forall props, animationData = JObj props -> NoDup props.*1 ->
               Get result "frames" = Get locallyOptimized "frames"
               /\ Get result "metadata" = Get locallyOptimized "metadata"
               /\ (is_json animationData = true ->
                   repetitiveFrames analysis <> [] ->
                   Get result "frames"
                   = JArr (survivors (repetitiveFrames analysis)
                                     (elements (Get animationData "frames"))) []
                   /\ _identifyRepetitiveFrames integer_toString
                        (Get result "frames") = [])))
     /\ (forall env animationData options result,
         omits_defaults options ->
         optimizeLoop integer_toString coerce_NaN this env animationData options
         = Normal result ->
         Get result "optimizationLevel" = JNum (Number_of_Z 8)
         /\ (exists analysis,
                _analyzeLoop integer_toString coerce_NaN animationData
                = Normal analysis)
         /\ metadata_writable animationData = true).
Proof.
  split; [by split|].
  apply (default_options integer_toString coerce_NaN JUndefined). by split.
Defined.

(** The call of the example resolves with [optimizationLevel = 8] and the
    frames [A, B]. *)
Example optimizeLoop_AAAB :
  exists result,
    optimizeLoop integer_toString coerce_NaN (constructor JUndefined) env_example
                 animation_AAAB JUndefined = Normal result
    /\ Get result "frames" = JArr [frame_A; frame_B] []
    /\ Get result "optimizationLevel" = JNum (Number_of_Z 8)
    /\ Get result "optimized" = JBool true.
Proof. eexists. split; [reflexivity|]. by repeat split. Qed.

(** A record whose [metadata] is a string: the transformer throws. *)
Example optimizeLoop_metadata_string :
  optimizeLoop integer_toString coerce_NaN (constructor JUndefined) env_example
               (JObj [("frames", JArr [] []); ("metadata", JStr "v1")]) JUndefined
  = Throw TypeError.
Proof. reflexivity. Qed.

(** C3 as stated fails for the empty sequence: no index is reported, and 0
    is not below 0. *)
Lemma repetitiveFrames_count_empty_sequence :
  ~ (length (_identifyRepetitiveFrames integer_toString (JArr [] []))
     < length ([] : list JsValue)).
Proof. simpl. lia. Qed.

(** C2 as stated fails for JSON data whose [metadata] is a string: the
    analyzer reports index 1 and compression is enabled, but the transformer
    throws and there is no transformed animation whose frames could be
    [[A]]. *)
Lemma performLocalOptimizations_frames_metadata_string :
  is_json animation_AA_v1 = true
  /\ _analyzeLoop integer_toString coerce_NaN animation_AA_v1 = Normal analysis_AA_v1
  /\ repetitiveFrames analysis_AA_v1 <> []
  /\ ToBoolean (Get (JObj options_on) "enableCompression") = true
  /\ _performLocalOptimizations env_example animation_AA_v1 analysis_AA_v1
       (JObj options_on) = Throw TypeError
  /\ ~ (exists optimized,
          _performLocalOptimizations env_example animation_AA_v1 analysis_AA_v1
            (JObj options_on) = Normal optimized
          /\ Get optimized "frames" = JArr [frame_A] []).
Proof.
  do 5 (split; [done|]). intros (optimized & Hrun & _). discriminate Hrun.
Qed.

(** C6 as stated fails for the same record: with [enableCompression] false
    the transformer throws as well and yields no output. *)
Lemma performLocalOptimizations_without_compression_metadata_string :
  is_json animation_AA_v1 = true
  /\ ToBoolean (Get (JObj options_off) "enableCompression") = false
  /\ _performLocalOptimizations env_example animation_AA_v1 analysis_AA_v1
       (JObj options_off) = Throw TypeError
  /\ ~ (exists optimized,
          _performLocalOptimizations env_example animation_AA_v1 analysis_AA_v1
            (JObj options_off) = Normal optimized
          /\ deep_equal integer_toString (Get optimized "frames")
                        (Get animation_AA_v1 "frames")).
Proof.
  do 3 (split; [done|]). intros (optimized & Hrun & _). discriminate Hrun.
Qed.

(** C2 speaks of the input frames; outside JSON data the frames of the
    result are those of the deep copy: for [{frames: [NaN, NaN]}] index 1
    is reported and the result's frames are [[null]], not [[NaN]]. *)
Example performLocalOptimizations_frames_not_json :
  let animationData := JObj [("frames", JArr [JNum NaN; JNum NaN] [])] in
  exists analysis optimized,
    _analyzeLoop integer_toString coerce_NaN animationData = Normal analysis
    /\ repetitiveFrames analysis = [1]
    /\ _performLocalOptimizations env_example animationData analysis
         (JObj options_on) = Normal optimized
    /\ Get optimized "frames" = JArr [JNull] []
    /\ survivors [1] (elements (Get animationData "frames")) = [JNum NaN].
Proof. eexists _, _. split; [reflexivity|]. by repeat split. Qed.

(** C9 as stated fails when the serialization is not ASCII: the record
    [{a: "\u00e9\u00e9\u00e9"}] serializes to 11 code units, which are 14
    bytes; the reported reduction is [floor (0.3 * 11) = 3], not
    [floor (0.3 * 14) = 4]. *)
Lemma estimatedSizeReduction_counts_code_units :
  exists analysis text,
    _analyzeLoop integer_toString coerce_NaN animation_accents = Normal analysis
    /\ JSON_stringify integer_toString animation_accents = Some text
    /\ String.length text = 11
    /\ utf8_size text = 14
    /\ estimatedSizeReduction (estimatedOptimizationPotential analysis) = 3%Z
    /\ estimatedSizeReduction (estimatedOptimizationPotential analysis)
       <> Qfloor (inject_Z (Z.of_nat (utf8_size text)) * (3 # 10)).
Proof. eexists _, _. split; [reflexivity|]. by repeat split. Qed.

(** The draw [0.7] (the double [0x3FE6666666666666]): its product with 30
    rounds up to 21 in binary64, so the field is [31%], where the exact
    product [20.999...] would give [30%]. *)
Example sizeReduction_of_seven_tenths :
  let draw := S754_finite false 6305039478318694 (-53) in
  is_draw draw = true
  /\ sizeReduction_text integer_toString draw = "31%"
  /\ Qfloor (Q_of_finite false 6305039478318694 (-53) * 30) = 20%Z.
Proof. by vm_compute. Qed.

(** *** The same call on the store *)

(** On the store the call returns a record that serializes as the tree
    model's result, and every object the store held before the call
    serializes as before. *)
Example h_optimizeLoop_AAAB_run :
  let '(animationData, h0) := store_AAAB in
  match h_constructor HUndefined h0 with
  | (h1, Normal this) =>
      match h_optimizeLoop integer_toString coerce_NaN this env_example
                           animationData HUndefined h1 with
      | (h2, Normal result) =>
          let text h v := match h_snapshot h v with
                          | Some tree => JSON_stringify integer_toString tree
                          | None => None
                          end in
          Normal (text h2 result)
          = match optimizeLoop integer_toString coerce_NaN (constructor JUndefined)
                               env_example animation_AAAB JUndefined with
            | Normal tree => Normal (JSON_stringify integer_toString tree)
            | Throw e => Throw e
            end
          /\ text h2 animationData = JSON_stringify integer_toString animation_AAAB
          /\ map (fun l => text h2 (HRef l)) (seq 0 (length h0))
             = map (fun l => text h0 (HRef l)) (seq 0 (length h0))
      | _ => False
      end
  | _ => False
  end.
Proof. vm_compute. by repeat split. Qed.

(** ** Instances of the further properties *)

Lemma optimized_frames_do_not_repeat_witness :
  is_json animation_AAAB = true
  /\ _analyzeLoop integer_toString coerce_NaN animation_AAAB = Normal analysis_AAAB
  /\ ToBoolean (Get (JObj options_on) "enableCompression") = true
  /\ _performLocalOptimizations env_example animation_AAAB analysis_AAAB
       (JObj options_on) = Normal optimized_AAAB
  /\ _identifyRepetitiveFrames integer_toString (Get optimized_AAAB "frames") = [].
Proof.
  do 4 (split; [reflexivity|]).
  apply (optimized_frames_do_not_repeat integer_toString coerce_NaN env_example
           animation_AAAB analysis_AAAB options_on optimized_AAAB);
    reflexivity.
Defined.

Lemma optimized_frame_count_witness :
  is_json animation_AAAB = true
  /\ _analyzeLoop integer_toString coerce_NaN animation_AAAB = Normal analysis_AAAB
  /\ ToBoolean (Get (JObj options_on) "enableCompression") = true
  /\ _performLocalOptimizations env_example animation_AAAB analysis_AAAB
       (JObj options_on) = Normal optimized_AAAB
  /\ length (elements (Get optimized_AAAB "frames"))
     + length (repetitiveFrames analysis_AAAB)
     = length (elements (Get animation_AAAB "frames"))
  /\ head (elements (Get optimized_AAAB "frames"))
     = head (elements (Get animation_AAAB "frames")).
Proof.
  do 4 (split; [reflexivity|]).
  apply (optimized_frame_count integer_toString coerce_NaN env_example
           animation_AAAB analysis_AAAB options_on optimized_AAAB);
    reflexivity.
Defined.

Lemma optimized_frames_cover_witness :
  is_json animation_AAAB = true
  /\ _analyzeLoop integer_toString coerce_NaN animation_AAAB = Normal analysis_AAAB
  /\ ToBoolean (Get (JObj options_on) "enableCompression") = true
  /\ _performLocalOptimizations env_example animation_AAAB analysis_AAAB
       (JObj options_on) = Normal optimized_AAAB
  /\ frame_A ∈ elements (Get animation_AAAB "frames")
  /\ exists kept, kept ∈ elements (Get optimized_AAAB "frames")
                  /\ deep_equal integer_toString frame_A kept.
Proof.
  do 4 (split; [reflexivity|]). split; [left|].
  apply (optimized_frames_cover integer_toString coerce_NaN env_example
           animation_AAAB analysis_AAAB options_on optimized_AAAB frame_A);
    try reflexivity.
  left.
Defined.

Lemma options_precedence_witness :
  NoDup (own_enumerable (JObj [("quality", JNum (Number_of_Z 5))])).*1
  /\ NoDup (own_enumerable (JObj [("enableCompression", JBool false)])).*1
  /\ Get (optimizationOptions
            (constructor (JObj [("quality", JNum (Number_of_Z 5))]))
            (JObj [("enableCompression", JBool false)])) "quality"
     = JNum (Number_of_Z 5).
Proof.
  split; [apply NoDup_singleton|]. split; [apply NoDup_singleton|].
  apply (options_precedence (JObj [("quality", JNum (Number_of_Z 5))])
                            (JObj [("enableCompression", JBool false)])
                            "quality");
    apply NoDup_singleton.
Defined.

Lemma optimizeLoop_result_witness :
  optimizeLoop integer_toString coerce_NaN (constructor JUndefined) env_example
               animation_AAAB JUndefined = Normal result_AAAB
  /\ typeof result_AAAB = "object" /\ Array_isArray result_AAAB = false
  /\ Get result_AAAB "optimized" = JBool true
  /\ Get result_AAAB "optimizationLevel"
     = Get (optimizationOptions (constructor JUndefined) JUndefined) "quality"
  /\ Get result_AAAB "sizeReduction"
     = JStr (sizeReduction_text integer_toString (random env_example))
  /\ Get result_AAAB "timestamp" = JStr (timestamp env_example)
  /\ (forall props k,
        animation_AAAB = JObj props -> NoDup props.*1 ->
        k ∉ ["frames"; "metadata"; "optimized"; "optimizationLevel";
             "sizeReduction"; "timestamp"] ->
        Get result_AAAB k = Get (json_clone animation_AAAB) k).
Proof.
  split; [reflexivity|].
  apply (optimizeLoop_result integer_toString coerce_NaN (constructor JUndefined)
           env_example animation_AAAB JUndefined result_AAAB).
  reflexivity.
Defined.

Lemma sizeReduction_range_witness :
  is_draw (random env_example) = true
  /\ optimizeLoop integer_toString coerce_NaN (constructor JUndefined) env_example
                  animation_AAAB JUndefined = Normal result_AAAB
  /\ exists percent : Z,
      (10 <= percent <= 39)%Z
      /\ double_floor (SFmul 53 1024 (random env_example) (double_of_Z 30))
         = Some (percent - 10)%Z
      /\ Get result_AAAB "sizeReduction" = JStr (string_of_Z percent +:+ "%").
Proof.
  split; [reflexivity|]. split; [reflexivity|].
  apply (sizeReduction_range integer_toString coerce_NaN (constructor JUndefined)
           env_example animation_AAAB JUndefined result_AAAB);
    reflexivity.
Defined.

Lemma metadata_of_result_witness :
  _analyzeLoop integer_toString coerce_NaN animation_AAAB = Normal analysis_AAAB
  /\ _performLocalOptimizations env_example animation_AAAB analysis_AAAB
       (JObj options_on) = Normal optimized_AAAB
  /\ is_object (Get optimized_AAAB "metadata") = true
  /\ Get (Get optimized_AAAB "metadata") "optimized" = JBool true
  /\ Get (Get optimized_AAAB "metadata") "optimizationDate"
     = JStr (optimizationDate env_example)
  /\ Get (Get optimized_AAAB "metadata") "optimizationOptions" = JObj options_on
  /\ (forall k, k ∉ ["optimized"; "optimizationDate"; "optimizationOptions"] ->
                Get (Get optimized_AAAB "metadata") k
                = Get (js_or (Get (json_clone animation_AAAB) "metadata")
                             (JObj [])) k).
Proof.
  do 2 (split; [reflexivity|]).
  apply (metadata_of_result integer_toString coerce_NaN env_example
           animation_AAAB analysis_AAAB options_on optimized_AAAB);
    reflexivity.
Defined.

Lemma analyzeLoop_returns_witness :
  is_object animation_AAAB = true
  /\ Array_isArray (Get animation_AAAB "frames") = true
  /\ exists analysis,
      _analyzeLoop integer_toString coerce_NaN animation_AAAB = Normal analysis
      /\ redundantProperties analysis = []
      /\ performanceImprovementPotential (estimatedOptimizationPotential analysis)
         = "medium"
      /\ (0 <= estimatedSizeReduction (estimatedOptimizationPotential analysis))%Z.
Proof.
  do 2 (split; [reflexivity|]).
  apply (analyzeLoop_returns integer_toString coerce_NaN animation_AAAB);
    [reflexivity|right; left; reflexivity].
Defined.

Lemma post_api_optimize_success_witness :
  status (post_api_optimize integer_toString coerce_NaN plain_message
                            env_example request_AAAB) = 200
  /\ exists data,
      body (post_api_optimize integer_toString coerce_NaN plain_message
                              env_example request_AAAB)
      = JObj [("success", JBool true); ("data", data)]
      /\ optimizeLoop integer_toString coerce_NaN optimizer env_example
                      (Get request_AAAB "animationData")
                      (Get request_AAAB "options") = Normal data
      /\ Get data "optimized" = JBool true
      /\ (NoDup (own_enumerable (Get request_AAAB "options")).*1 ->
          Get data "optimizationLevel"
          = default (JNum (Number_of_Z 8))
                    (lookup_prop "quality"
                       (own_enumerable (Get request_AAAB "options")))).
Proof.
  split; [reflexivity|].
  apply (post_api_optimize_success integer_toString coerce_NaN plain_message
           env_example request_AAAB).
  reflexivity.
Defined.

Lemma optimizeLoop_removes_repetition_witness :
  NoDup [("frames", JArr [frame_A; frame_A; frame_A; frame_B] [])].*1
  /\ is_json animation_AAAB = true
  /\ ToBoolean (Get (optimizationOptions (constructor JUndefined) JUndefined)
                    "enableCompression") = true
  /\ optimizeLoop integer_toString coerce_NaN (constructor JUndefined) env_example
                  animation_AAAB JUndefined = Normal result_AAAB
  /\ _identifyRepetitiveFrames integer_toString (Get result_AAAB "frames") = []
  /\ sublist (elements (Get result_AAAB "frames"))
             (elements (Get animation_AAAB "frames"))
  /\ length (elements (Get result_AAAB "frames"))
     + length (repetitive_indices integer_toString
                 (elements (Get animation_AAAB "frames")))
     = length (elements (Get animation_AAAB "frames"))
  /\ (forall frame, frame ∈ elements (Get animation_AAAB "frames") ->
        exists kept, kept ∈ elements (Get result_AAAB "frames")
                     /\ deep_equal integer_toString frame kept).
Proof.
  split; [apply NoDup_singleton|]. do 3 (split; [reflexivity|]).
  apply (optimizeLoop_removes_repetition integer_toString coerce_NaN
           (constructor JUndefined) env_example
           [("frames", JArr [frame_A; frame_A; frame_A; frame_B] [])]
           JUndefined result_AAAB);
    [apply NoDup_singleton|reflexivity..].
Defined.

Lemma post_api_optimize_removes_repetition_witness :
  Get request_AAAB "animationData" = animation_AAAB
  /\ NoDup [("frames", JArr [frame_A; frame_A; frame_A; frame_B] [])].*1
  /\ is_json animation_AAAB = true
  /\ lookup_prop "enableCompression"
                 (own_enumerable (Get request_AAAB "options")) = None
  /\ status (post_api_optimize integer_toString coerce_NaN plain_message
                               env_example request_AAAB) = 200
  /\ exists data,
      body (post_api_optimize integer_toString coerce_NaN plain_message
                              env_example request_AAAB)
      = JObj [("success", JBool true); ("data", data)]
      /\ _identifyRepetitiveFrames integer_toString (Get data "frames") = []
      /\ sublist (elements (Get data "frames"))
                 (elements (Get animation_AAAB "frames")).
Proof.
  split; [reflexivity|]. split; [apply NoDup_singleton|].
  do 3 (split; [reflexivity|]).
  apply (post_api_optimize_removes_repetition integer_toString coerce_NaN
           plain_message env_example request_AAAB
           [("frames", JArr [frame_A; frame_A; frame_A; frame_B] [])]);
    [reflexivity|apply NoDup_singleton|reflexivity..].
Defined.

(** ** Binary64 agreement *)

Lemma agrees_from_spec (count : nat) :
  forall first, agrees_from count first = true ->
  forall dataSize, (first <= dataSize < first + Z.of_nat count)%Z ->
                   floor_of_product dataSize
                   = Some (Qfloor (inject_Z dataSize * (3 # 10))).
Proof.
  induction count as [|count IH]; intros first Hall dataSize Hrange; [lia|].
  cbn [agrees_from] in Hall. apply andb_prop in Hall as [Hfirst Hrest].
  destruct (decide (dataSize = first)) as [->|Hne].
  - unfold agrees in Hfirst. destruct (floor_of_product first); [|done].
    by apply Z.eqb_eq in Hfirst as ->.
  - apply (IH (first + 1)%Z); [done|lia].
Qed.

(** On every size up to 20000, past both thresholds, the double computation
    of [Math.floor(dataSize * 0.3)] yields the integer the exact product
    floors to. *)
Lemma double_agrees_with_rationals (dataSize : Z) :
  (0 <= dataSize <= 20000)%Z ->
  floor_of_product dataSize = Some (Qfloor (inject_Z dataSize * (3 # 10))).
Proof.
  intros Hrange.
  assert (Z.of_nat 20001 = 20001%Z) as Hcount by (by vm_compute).
  apply (agrees_from_spec 20001 0); [by vm_compute|rewrite Hcount; lia].
Qed.
